(** * SwarmForge: the agent pool, the orchestrator, the memory store,
      the evaluation engine and the five-stage pipeline

    A shallow embedding of [agents.py] and [graph.py], and of the registry
    of [tools.py].

    Conventions of the embedding.
    - A Python [dict] is an insertion-ordered association list with pairwise
      distinct keys ([PyDict]); assignment to a present key keeps its position.
    - Mutable objects are passed and returned explicitly; an object that lives
      inside a container is written back at the place it was read from.
    - [datetime.now()] reads a clock that is part of the state ([Clock]); an
      instant is a number of microseconds, a [timedelta] their difference.
    - A Python [float] is idealised as an exact rational ([Q]); rounding is
      not modelled.  Values that the source writes as float literals are
      compared up to [Qeq] where a quotient is involved.  What is stated of
      scores and means is kept to what rounding leaves true: which sum is
      divided by which count, bounds, the values 0 and 1, and the mean of
      one number or of the same number twice.
    - A [str] is a [string]; [len] is [String.length] and [s[:n]] is
      [substring 0 n s]. *)

From Stdlib Require Import String Ascii ZArith QArith Qminmax Lia.
From Stdlib Require Import DecimalString DecimalNat.
From stdpp Require Import base tactics option list sorting strings.

Local Open Scope string_scope.
Local Open Scope list_scope.

(** ** Python dictionaries *)

Module PyDict.

Definition t (V : Type) : Type := list (string * V).

Definition empty {V} : t V := [].

Definition keys {V} (d : t V) : list string := map fst d.
Definition values {V} (d : t V) : list V := map snd d.
Definition items {V} (d : t V) : list (string * V) := d.

(** [d.get(k)] *)
Fixpoint get {V} (k : string) (d : t V) : option V :=
  match d with
  | [] => None
  | (k', v) :: rest => if String.eqb k k' then Some v else get k rest
  end.

(** [k in d] *)
Definition mem {V} (k : string) (d : t V) : bool :=
  match get k d with Some _ => true | None => false end.

(** [d[k] = v] *)
Fixpoint set {V} (k : string) (v : V) (d : t V) : t V :=
  match d with
  | [] => [(k, v)]
  | (k', v') :: rest =>
      if String.eqb k k' then (k', v) :: rest else (k', v') :: set k v rest
  end.

(** [del d[k]] for a present key; a missing key leaves [d] as it is (the
    callers test [k in d] first). *)
Fixpoint del {V} (k : string) (d : t V) : t V :=
  match d with
  | [] => []
  | (k', v') :: rest =>
      if String.eqb k k' then rest else (k', v') :: del k rest
  end.

(** A dictionary filled from a sequence of key/value pairs, in order:
    [for k, v in pairs: d[k] = v]. *)
Definition update {V} (d : t V) (pairs : list (string * V)) : t V :=
  fold_left (fun acc kv => set (fst kv) (snd kv) acc) pairs d.

(** Well-formedness: the keys of a dictionary are pairwise distinct. *)
Definition wf {V} (d : t V) : Prop := NoDup (keys d).

End PyDict.


(** ** The clock, exceptions and outcomes *)

(** [readings n] is what the [n]-th call of [datetime.now()] returns, in
    microseconds; [reads] counts the calls made so far. *)
Record Clock := { readings : nat -> Z; reads : nat }.

Definition datetime_now (clk : Clock) : Z * Clock :=
  (readings clk (reads clk),
   {| readings := readings clk; reads := S (reads clk) |}).

(** A clock that advances by a millisecond at every reading, for examples. *)
Definition sample_clock : Clock :=
  {| readings := fun n => (1000 * Z.of_nat n)%Z; reads := 0 |}.

(** [timedelta.total_seconds()] *)
Definition total_seconds (delta : Z) : Q := Qmake delta 1000000.

(** The exceptions the modelled code can raise, each with its message. *)
Inductive Exn :=
| AttributeError (msg : string)
| ValueError (msg : string)
| ZeroDivisionError (msg : string)
| GraphRecursionError (msg : string).

(** [str(e)] *)
Definition str_exn (e : Exn) : string :=
  match e with
  | AttributeError msg | ValueError msg
  | ZeroDivisionError msg | GraphRecursionError msg => msg
  end.

(** A call either returns a value or raises. *)
Inductive Outcome (A : Type) :=
| Returned (a : A)
| Raised (e : Exn).
Arguments Returned {A} a.
Arguments Raised {A} e.

(** [a / n] on floats, [n] being a length: Python raises on a zero divisor. *)
Definition truediv (a : Q) (n : nat) : Outcome Q :=
  match n with
  | O => Raised (ZeroDivisionError "division by zero")
  | S _ => Returned (a / inject_Z (Z.of_nat n))%Q
  end.

(** [sum(xs)]: starts from [0] and adds from the left. *)
Definition py_sum (xs : list Q) : Q := fold_left Qplus xs 0%Q.

(** [min(a, b)]: the first argument unless the second is smaller. *)
Definition py_min (a b : Q) : Q :=
  match (b ?= a)%Q with Lt => b | _ => a end.

(** ** agents.py *)

Module Agents.

Inductive ExecutionMode := SEQUENTIAL | PARALLEL | HIERARCHICAL.

Definition ExecutionMode_value (m : ExecutionMode) : string :=
  match m with
  | SEQUENTIAL => "sequential"
  | PARALLEL => "parallel"
  | HIERARCHICAL => "hierarchical"
  end.

Inductive AgentRole := RESEARCHER | ANALYZER | SYNTHESIZER | EXECUTOR | COORDINATOR.

Definition AgentRole_value (r : AgentRole) : string :=
  match r with
  | RESEARCHER => "researcher"
  | ANALYZER => "analyzer"
  | SYNTHESIZER => "synthesizer"
  | EXECUTOR => "executor"
  | COORDINATOR => "coordinator"
  end.

(** What the [role] field of a config holds.  [AgentConfig] is a dataclass:
    the annotation [role: AgentRole] is not checked when a config is built, so
    the field holds a member of the enum or, for instance, the plain string a
    caller passed in its place.  Only a member has a [.value]. *)
Inductive RoleField :=
| Member (r : AgentRole)
| PlainStr (s : string).

Record AgentConfig := {
  name : string;
  role : RoleField;
  tools : option (list string);
  memory_enabled : bool;
  max_iterations : Z;
  timeout : Z
}.

(** [AgentConfig(name=..., role=...)] with the defaults of the dataclass. *)
Definition AgentConfig_new (n : string) (r : RoleField) : AgentConfig :=
  {| name := n; role := r; tools := None; memory_enabled := true;
     max_iterations := 5; timeout := 30 |}.

(** One record of [execution_log]: the keys [task], [duration], [status] and
    [timestamp] are always set, and one of [result] and [error]. *)
Record LogEntry := {
  log_task : string;
  log_result : option string;
  log_error : option string;
  log_duration : Q;
  log_status : string;
  log_timestamp : Z
}.

(** An agent.  The fields [llm], [messages] and [memory] are left out: no
    method modelled here reads or writes them. *)
Record Agent := {
  config : AgentConfig;
  execution_log : list LogEntry;
  state : string
}.

Definition Agent_init (cfg : AgentConfig) : Agent :=
  {| config := cfg; execution_log := []; state := "idle" |}.

Definition set_state (s : string) (self : Agent) : Agent :=
  {| config := config self; execution_log := execution_log self; state := s |}.

Definition log_append (entry : LogEntry) (self : Agent) : Agent :=
  {| config := config self;
     execution_log := execution_log self ++ [entry];
     state := state self |}.

(** [self.config.role.value] *)
Definition role_value (r : RoleField) : Outcome string :=
  match r with
  | Member m => Returned (AgentRole_value m)
  | PlainStr _ => Raised (AttributeError "'str' object has no attribute 'value'")
  end.

(** The simulated execution, the first statement of the [try] block:
    [f"Agent {name} ({role.value}) processed: {task[:100]}"]. *)
Definition processed (cfg : AgentConfig) (task : string) : Outcome string :=
  match role_value (role cfg) with
  | Returned rv =>
      Returned ("Agent " +:+ name cfg +:+ " (" +:+ rv +:+ ") processed: "
                +:+ substring 0 100 task)
  | Raised e => Raised e
  end.

(** [Agent.execute]: the clock is read once for [start_time] and, in either
    arm, once for the duration and once for the timestamp of the record. *)
Definition Agent_execute (self : Agent) (task : string) (clk : Clock)
  : Outcome string * Agent * Clock :=
  let self := set_state "executing" self in
  let '(start_time, clk) := datetime_now clk in
  match processed (config self) task with
  | Returned result =>
      let '(t_end, clk) := datetime_now clk in
      let '(t_stamp, clk) := datetime_now clk in
      let self :=
        log_append {| log_task := task;
                      log_result := Some result;
                      log_error := None;
                      log_duration := total_seconds (t_end - start_time);
                      log_status := "completed";
                      log_timestamp := t_stamp |} self in
      let self := set_state "idle" self in
      (Returned result, self, clk)
  | Raised e =>
      let '(t_end, clk) := datetime_now clk in
      let '(t_stamp, clk) := datetime_now clk in
      let self :=
        log_append {| log_task := task;
                      log_result := None;
                      log_error := Some (str_exn e);
                      log_duration := total_seconds (t_end - start_time);
                      log_status := "failed";
                      log_timestamp := t_stamp |} self in
      let self := set_state "error" self in
      (Raised e, self, clk)
  end.

Record Stats := {
  agent_name : string;
  total_executions : nat;
  successful : nat;
  failed : nat;
  total_duration : Q;
  avg_duration : Q
}.

(** [Agent.get_execution_stats]; the conditional expression evaluates the
    division only when the log is not empty. *)
Definition Agent_get_execution_stats (self : Agent) : Outcome Stats :=
  let completed :=
    List.filter (fun log => String.eqb (log_status log) "completed")
                (execution_log self) in
  let failed_logs :=
    List.filter (fun log => String.eqb (log_status log) "failed")
                (execution_log self) in
  let total := py_sum (map log_duration (execution_log self)) in
  let avg :=
    match execution_log self with
    | _ :: _ => truediv total (length (execution_log self))
    | [] => Returned 0%Q
    end in
  match avg with
  | Returned a =>
      Returned {| agent_name := name (config self);
                  total_executions := length (execution_log self);
                  successful := length completed;
                  failed := length failed_logs;
                  total_duration := total;
                  avg_duration := a |}
  | Raised e => Raised e
  end.

(** *** AgentPool *)

Record AgentPool := {
  agents : PyDict.t Agent;
  execution_mode : ExecutionMode
}.

Definition AgentPool_init : AgentPool :=
  {| agents := PyDict.empty; execution_mode := SEQUENTIAL |}.

Definition with_agents (ags : PyDict.t Agent) (self : AgentPool) : AgentPool :=
  {| agents := ags; execution_mode := execution_mode self |}.

Definition AgentPool_add_agent (cfg : AgentConfig) (self : AgentPool)
  : Agent * AgentPool :=
  let agent := Agent_init cfg in
  (agent, with_agents (PyDict.set (name cfg) agent (agents self)) self).

Definition AgentPool_remove_agent (agent_name : string) (self : AgentPool)
  : AgentPool :=
  if PyDict.mem agent_name (agents self)
  then with_agents (PyDict.del agent_name (agents self)) self
  else self.

Definition AgentPool_set_execution_mode (mode : ExecutionMode) (self : AgentPool)
  : AgentPool :=
  {| agents := agents self; execution_mode := mode |}.

(** One slot of a result mapping: [{status, result}] or [{status, error}]. *)
Record ResultEntry := {
  status : string;
  result : option string;
  error : option string
}.

(** The slot written for an agent, from what its [execute] call returned or
    raised (the two arms of the [try] in sequential mode, the [isinstance]
    test on the gathered response in the other modes). *)
Definition slot (response : Outcome string) : ResultEntry :=
  match response with
  | Returned r => {| status := "success"; result := Some r; error := None |}
  | Raised e => {| status := "failed"; result := None; error := Some (str_exn e) |}
  end.

(** The loop of [execute_sequential] over [self.agents.items()]; it returns
    the results and the items with every agent as its call left it. *)
Fixpoint sequential_loop (task : string) (items : list (string * Agent))
  (results : PyDict.t ResultEntry) (clk : Clock)
  : PyDict.t ResultEntry * list (string * Agent) * Clock :=
  match items with
  | [] => (results, [], clk)
  | (agent_name, agent) :: rest =>
      let '(response, agent, clk) := Agent_execute agent task clk in
      let results := PyDict.set agent_name (slot response) results in
      let '(results, rest, clk) := sequential_loop task rest results clk in
      (results, (agent_name, agent) :: rest, clk)
  end.

Definition AgentPool_execute_sequential (task : string) (self : AgentPool)
  (clk : Clock) : PyDict.t ResultEntry * AgentPool * Clock :=
  let '(results, items, clk) :=
    sequential_loop task (PyDict.items (agents self)) PyDict.empty clk in
  (results, with_agents items self, clk).

(** *** [asyncio.gather(..., return_exceptions=True)]

    [Agent.execute] has no suspension point, so a task of the event loop runs
    a whole call once it is started, and the only freedom the loop has is the
    order in which it starts the tasks.  A [Scheduler] makes that choice: from
    the queue of tasks not yet started it names the position of the one to
    start (taken modulo the length of the queue).  CPython's loop starts the
    tasks in the order [gather] received them, which is [fifo]. *)

Definition Scheduler := list nat -> nat.

Definition fifo : Scheduler := fun _ => 0.

(** The responses collected so far, kept in the order of the arguments of
    [gather] whatever the order of completion. *)
Fixpoint place (i : nat) (r : Outcome string) (done : list (nat * Outcome string))
  : list (nat * Outcome string) :=
  match done with
  | [] => [(i, r)]
  | (j, s) :: rest =>
      if (i <=? j)%nat then (i, r) :: (j, s) :: rest else (j, s) :: place i r rest
  end.

(** Running task [i]: the [i]-th agent executes and its response is kept;
    with [return_exceptions=True] an exception is a response like any other. *)
Definition run_task (task : string) (i : nat)
  (st : list Agent * list (nat * Outcome string) * Clock)
  : list Agent * list (nat * Outcome string) * Clock :=
  let '(ags, done, clk) := st in
  match ags !! i with
  | Some a =>
      let '(r, a, clk) := Agent_execute a task clk in
      (<[i := a]> ags, place i r done, clk)
  | None => st
  end.

Fixpoint event_loop (pick : Scheduler) (task : string) (fuel : nat)
  (ready : list nat) (st : list Agent * list (nat * Outcome string) * Clock)
  : list Agent * list (nat * Outcome string) * Clock :=
  match fuel with
  | O => st
  | S fuel =>
      let k := (pick ready mod length ready)%nat in
      match ready !! k with
      | Some i => event_loop pick task fuel (delete k ready) (run_task task i st)
      | None => st
      end
  end.

(** Awaiting [gather] on the calls [a.execute(task)] for [a] in [coros], with
    [return_exceptions=True]: the responses in the order of the arguments, and
    the agents after their calls. *)
Definition gather (pick : Scheduler) (task : string) (coros : list Agent)
  (clk : Clock) : list (Outcome string) * list Agent * Clock :=
  let n := length coros in
  let '(ags, done, clk) := event_loop pick task n (seq 0 n) (coros, [], clk) in
  (map snd done, ags, clk).

(** The loop over [zip(names, responses)] that fills a result mapping. *)
Definition collect (names : list string) (responses : list (Outcome string))
  : PyDict.t ResultEntry :=
  PyDict.update PyDict.empty
    (map (fun nr => (fst nr, slot (snd nr))) (zip names responses)).

Definition AgentPool_execute_parallel (pick : Scheduler) (task : string)
  (self : AgentPool) (clk : Clock) : PyDict.t ResultEntry * AgentPool * Clock :=
  let tasks := PyDict.values (agents self) in
  match tasks with
  | [] => (PyDict.empty, self, clk)
  | _ :: _ =>
      let '(responses, ags, clk) := gather pick task tasks clk in
      let results := collect (PyDict.keys (agents self)) responses in
      (results, with_agents (zip (PyDict.keys (agents self)) ags) self, clk)
  end.

(** The [coordinator] section: [{agent, result}] when the coordinator
    returned, [{error}] when it raised. *)
Record CoordinatorSection := {
  section_agent : option string;
  section_result : option string;
  section_error : option string
}.

(** The result of hierarchical execution: each of the keys [coordinator] and
    [workers] is set or not. *)
Record HierarchicalResult := {
  coordinator : option CoordinatorSection;
  workers : option (PyDict.t ResultEntry)
}.

(** The section written after the call of the coordinator [c]: the arm of
    the [try] sets [agent] and [result], the [except] arm sets [error] only. *)
Definition coordinator_section (c : string) (coord_result : Outcome string)
  : CoordinatorSection :=
  match coord_result with
  | Returned r =>
      {| section_agent := Some c; section_result := Some r; section_error := None |}
  | Raised e =>
      {| section_agent := None; section_result := None;
         section_error := Some (str_exn e) |}
  end.

(** Truth value of an [Optional[str]]: [None] and the empty string are false. *)
Definition truthy (o : option string) : bool :=
  match o with
  | Some s => negb (String.eqb s "")
  | None => false
  end.

(** [name != coordinator] *)
Definition differs (n : string) (c : option string) : bool :=
  match c with
  | Some s => negb (String.eqb n s)
  | None => true
  end.

Definition AgentPool_execute_hierarchical (pick : Scheduler) (task : string)
  (coordinator_arg : option string) (self : AgentPool) (clk : Clock)
  : HierarchicalResult * AgentPool * Clock :=
  (* find or designate the coordinator *)
  let coordinator_name :=
    if negb (truthy coordinator_arg) then
      match PyDict.keys (agents self) with
      | first :: _ => Some first
      | [] => coordinator_arg
      end
    else coordinator_arg in
  (* the coordinator processes first *)
  let '(coord, self, clk) :=
    match coordinator_name with
    | Some c =>
        match truthy coordinator_name, PyDict.get c (agents self) with
        | true, Some coord_agent =>
            let '(coord_result, coord_agent, clk) :=
              Agent_execute coord_agent ("Coordinate: " +:+ task) clk in
            (Some (coordinator_section c coord_result),
             with_agents (PyDict.set c coord_agent (agents self)) self, clk)
        | _, _ => (None, self, clk)
        end
    | None => (None, self, clk)
    end in
  (* the other agents execute in parallel *)
  let worker_agents :=
    List.filter (fun na => differs (fst na) coordinator_name)
                (PyDict.items (agents self)) in
  match worker_agents with
  | [] => ({| coordinator := coord; workers := None |}, self, clk)
  | _ :: _ =>
      let '(worker_results, ags, clk) :=
        gather pick task (PyDict.values worker_agents) clk in
      let results := collect (PyDict.keys worker_agents) worker_results in
      ({| coordinator := coord; workers := Some results |},
       with_agents (PyDict.update (agents self) (zip (PyDict.keys worker_agents) ags)) self,
       clk)
  end.

(** What [AgentPool.execute] returns: the flat mapping of the sequential and
    parallel modes or the nested one of the hierarchical mode. *)
Inductive PoolResult :=
| Flat (results : PyDict.t ResultEntry)
| Nested (results : HierarchicalResult).

(** [AgentPool.execute].  The final [else] of the source, which raises
    [ValueError], is not reached for a member of [ExecutionMode]. *)
Definition AgentPool_execute (pick : Scheduler) (task : string)
  (self : AgentPool) (clk : Clock) : PoolResult * AgentPool * Clock :=
  match execution_mode self with
  | SEQUENTIAL =>
      let '(r, self, clk) := AgentPool_execute_sequential task self clk in
      (Flat r, self, clk)
  | PARALLEL =>
      let '(r, self, clk) := AgentPool_execute_parallel pick task self clk in
      (Flat r, self, clk)
  | HIERARCHICAL =>
      let '(r, self, clk) := AgentPool_execute_hierarchical pick task None self clk in
      (Nested r, self, clk)
  end.

(** *** SwarmOrchestrator *)

Record ExecutionRecord := {
  record_pool : string;
  record_task : string;
  record_result : PoolResult;
  record_duration : Q;
  record_timestamp : Z
}.

(** The orchestrator; [llm] and the unused [task_queue] are left out. *)
Record SwarmOrchestrator := {
  agent_pools : PyDict.t AgentPool;
  execution_history : list ExecutionRecord
}.

Definition SwarmOrchestrator_init : SwarmOrchestrator :=
  {| agent_pools := PyDict.empty; execution_history := [] |}.

Definition SwarmOrchestrator_create_pool (pool_name : string)
  (self : SwarmOrchestrator) : AgentPool * SwarmOrchestrator :=
  let pool := AgentPool_init in
  (pool, {| agent_pools := PyDict.set pool_name pool (agent_pools self);
            execution_history := execution_history self |}).

Definition SwarmOrchestrator_get_pool (pool_name : string)
  (self : SwarmOrchestrator) : option AgentPool :=
  PyDict.get pool_name (agent_pools self).

(** [SwarmOrchestrator.execute_task].  An [AgentPool] defines neither
    [__bool__] nor [__len__], so [not pool] holds for [None] only. *)
Definition SwarmOrchestrator_execute_task (pick : Scheduler)
  (pool_name task : string) (self : SwarmOrchestrator) (clk : Clock)
  : Outcome ExecutionRecord * SwarmOrchestrator * Clock :=
  match SwarmOrchestrator_get_pool pool_name self with
  | None =>
      (Raised (ValueError ("Pool '" +:+ pool_name +:+ "' not found")), self, clk)
  | Some pool =>
      let '(start_time, clk) := datetime_now clk in
      let '(res, pool, clk) := AgentPool_execute pick task pool clk in
      let '(t_end, clk) := datetime_now clk in
      let duration := total_seconds (t_end - start_time) in
      let '(t_stamp, clk) := datetime_now clk in
      let execution_record :=
        {| record_pool := pool_name;
           record_task := task;
           record_result := res;
           record_duration := duration;
           record_timestamp := t_stamp |} in
      (Returned execution_record,
       {| agent_pools := PyDict.set pool_name pool (agent_pools self);
          execution_history := execution_history self ++ [execution_record] |},
       clk)
  end.

(** *** Vocabulary of the statements about pools *)

(** The name and the config of every agent of a pool, in its order. *)
Definition profile (ags : PyDict.t Agent) : list (string * AgentConfig) :=
  map (fun na => (fst na, config (snd na))) ags.

(** For each agent of a pool, in its order, the slot of what the agent
    answers to the task. *)
Definition slots (task : string) (ags : PyDict.t Agent) : PyDict.t ResultEntry :=
  map (fun na => (fst na, slot (processed (config (snd na)) task))) ags.

(** The result shape that the specification gives to hierarchical execution
    with the coordinator [c], read on a result [res] for the pool [self]: a
    coordinator section that names [c] as its agent and holds a result or an
    error, and a workers mapping whose key set is the names of the pool
    without [c]. *)
Definition specified_hierarchical_shape (c : string) (self : AgentPool)
  (res : HierarchicalResult) : Prop :=
  (exists sec,
      coordinator res = Some sec
      /\ section_agent sec = Some c
      /\ (is_Some (section_result sec) \/ is_Some (section_error sec)))
  /\ (exists ws,
         workers res = Some ws
         /\ forall n, n ∈ PyDict.keys ws <-> n ∈ PyDict.keys (agents self) /\ n <> c).

(** The result that is stated for a coordinator name outside the pool, read
    on a result [res] for the pool [self]: no coordinator section, and a
    workers mapping whose key set is the names of all the agents. *)
Definition specified_foreign_coordinator_shape (self : AgentPool)
  (res : HierarchicalResult) : Prop :=
  coordinator res = None
  /\ exists ws,
       workers res = Some ws
       /\ forall n, n ∈ PyDict.keys ws <-> n ∈ PyDict.keys (agents self).

(** *** Sample pools *)

(** A pool filled by [add_agent], one call for each config. *)
Definition pool_of (cfgs : list AgentConfig) : AgentPool :=
  fold_left (fun pool cfg => snd (AgentPool_add_agent cfg pool)) cfgs AgentPool_init.

Definition pool_ABC : AgentPool :=
  pool_of [AgentConfig_new "A" (Member RESEARCHER);
           AgentConfig_new "B" (Member COORDINATOR);
           AgentConfig_new "C" (Member ANALYZER)].

(** The same pool with the role of [B] given as a string. *)
Definition pool_ABC_str_role : AgentPool :=
  pool_of [AgentConfig_new "A" (Member RESEARCHER);
           AgentConfig_new "B" (PlainStr "coordinator");
           AgentConfig_new "C" (Member ANALYZER)].

Definition pool_B : AgentPool :=
  pool_of [AgentConfig_new "B" (Member COORDINATOR)].

(** *** The private memory of an agent

    [store_memory] and [retrieve_memory] read and write the attribute
    [memory] and nothing else; the attribute is passed and returned.  The
    stored values are arbitrary objects, of a type [V]. *)

Record MemoryCell (V : Type) := {
  cell_value : V;
  cell_timestamp : Z
}.
Arguments cell_value {V} _.
Arguments cell_timestamp {V} _.

Definition Agent_store_memory {V} (key : string) (value : V)
  (memory : PyDict.t (MemoryCell V)) (clk : Clock)
  : PyDict.t (MemoryCell V) * Clock :=
  let '(now, clk) := datetime_now clk in
  (PyDict.set key {| cell_value := value; cell_timestamp := now |} memory, clk).

Definition Agent_retrieve_memory {V} (key : string)
  (memory : PyDict.t (MemoryCell V)) : option V :=
  match PyDict.get key memory with
  | Some cell => Some (cell_value cell)
  | None => None
  end.

(** *** Statistics of a pool and of the orchestrator *)

Record PoolStats := {
  total_agents : nat;
  stats_execution_mode : string;
  stats_agents : PyDict.t Stats
}.

(** The loop of [get_pool_stats] over [self.agents.items()]. *)
Fixpoint pool_stats_loop (items : list (string * Agent)) (acc : PyDict.t Stats)
  : Outcome (PyDict.t Stats) :=
  match items with
  | [] => Returned acc
  | (agent_name, agent) :: rest =>
      match Agent_get_execution_stats agent with
      | Returned st => pool_stats_loop rest (PyDict.set agent_name st acc)
      | Raised e => Raised e
      end
  end.

Definition AgentPool_get_pool_stats (self : AgentPool) : Outcome PoolStats :=
  match pool_stats_loop (PyDict.items (agents self)) PyDict.empty with
  | Returned per_agent =>
      Returned {| total_agents := length (agents self);
                  stats_execution_mode := ExecutionMode_value (execution_mode self);
                  stats_agents := per_agent |}
  | Raised e => Raised e
  end.

Record OrchestrationStats := {
  total_pools : nat;
  stats_total_executions : nat;
  stats_pools : PyDict.t PoolStats
}.

(** The loop of [get_orchestration_stats] over [self.agent_pools.items()]. *)
Fixpoint orchestration_stats_loop (items : list (string * AgentPool))
  (acc : PyDict.t PoolStats) : Outcome (PyDict.t PoolStats) :=
  match items with
  | [] => Returned acc
  | (pool_name, pool) :: rest =>
      match AgentPool_get_pool_stats pool with
      | Returned st => orchestration_stats_loop rest (PyDict.set pool_name st acc)
      | Raised e => Raised e
      end
  end.

Definition SwarmOrchestrator_get_orchestration_stats (self : SwarmOrchestrator)
  : Outcome OrchestrationStats :=
  match orchestration_stats_loop (PyDict.items (agent_pools self)) PyDict.empty with
  | Returned per_pool =>
      Returned {| total_pools := length (agent_pools self);
                  stats_total_executions := length (execution_history self);
                  stats_pools := per_pool |}
  | Raised e => Raised e
  end.

(** *** Sequences of calls *)

(** The calls [self.execute(t)] for [t] in [tasks], one after the other;
    an exception of a call is dropped, as a caller with a [try] does. *)
Fixpoint Agent_execute_all (tasks : list string) (self : Agent) (clk : Clock)
  : Agent * Clock :=
  match tasks with
  | [] => (self, clk)
  | t :: rest =>
      let '(_, self, clk) := Agent_execute self t clk in
      Agent_execute_all rest self clk
  end.

(** An agent [after] is an agent [before] that was called once on [task]. *)
Definition called_once (task : string) (before after : Agent) : Prop :=
  exists clk, after = snd (fst (Agent_execute before task clk)).

(** An agent and the statistics [get_execution_stats] returns for it. *)
Abbreviation stats_of :=
  (fun (a : Agent) (s : Stats) => Agent_get_execution_stats a = Returned s).

End Agents.

(** ** graph.py *)

Module Graph.

(** *** MemoryManager

    The stored values are arbitrary Python objects; the store is generic in
    their type [V]. *)

Record ShortTermEntry (V : Type) := {
  st_value : V;
  st_timestamp : Z;
  st_ttl : option Z
}.
Arguments st_value {V} _.
Arguments st_timestamp {V} _.
Arguments st_ttl {V} _.

Record LongTermEntry (V : Type) := {
  lt_value : V;
  lt_timestamp : Z
}.
Arguments lt_value {V} _.
Arguments lt_timestamp {V} _.

Record MemoryManager (V : Type) := {
  memory_type : string;
  short_term : PyDict.t (ShortTermEntry V);
  long_term : PyDict.t (PyDict.t (LongTermEntry V));
  memory_index : PyDict.t (list string)
}.
Arguments memory_type {V} _.
Arguments short_term {V} _.
Arguments long_term {V} _.
Arguments memory_index {V} _.

Definition MemoryManager_init {V} (mtype : string) : MemoryManager V :=
  {| memory_type := mtype; short_term := PyDict.empty;
     long_term := PyDict.empty; memory_index := PyDict.empty |}.

Definition store_short_term {V} (key : string) (value : V) (ttl : option Z)
  (self : MemoryManager V) (clk : Clock) : MemoryManager V * Clock :=
  let '(now, clk) := datetime_now clk in
  ({| memory_type := memory_type self;
      short_term :=
        PyDict.set key {| st_value := value; st_timestamp := now; st_ttl := ttl |}
                   (short_term self);
      long_term := long_term self;
      memory_index := memory_index self |}, clk).

(** The TTL test of the source guards a [pass]. *)
Definition retrieve_short_term {V} (key : string) (self : MemoryManager V)
  : option V :=
  match PyDict.get key (short_term self) with
  | Some data => Some (st_value data)
  | None => None
  end.

(** [d[k]] where the statement before made sure that [k in d]: the default
    stands for a [KeyError] that cannot happen (see [item_ensure]). *)
Definition item {A} (k : string) (d : PyDict.t A) (unreachable : A) : A :=
  match PyDict.get k d with
  | Some a => a
  | None => unreachable
  end.

(** [if k not in d: d[k] = fresh] *)
Definition ensure {A} (k : string) (fresh : A) (d : PyDict.t A) : PyDict.t A :=
  if PyDict.mem k d then d else PyDict.set k fresh d.

Definition store_long_term {V} (key : string) (value : V) (category : string)
  (self : MemoryManager V) (clk : Clock) : MemoryManager V * Clock :=
  let lt := ensure category PyDict.empty (long_term self) in
  let '(now, clk) := datetime_now clk in
  let bucket :=
    PyDict.set key {| lt_value := value; lt_timestamp := now |}
               (item category lt PyDict.empty) in
  let lt := PyDict.set category bucket lt in
  (* update the index *)
  let idx := ensure category [] (memory_index self) in
  let idx := PyDict.set category (item category idx [] ++ [key]) idx in
  ({| memory_type := memory_type self;
      short_term := short_term self;
      long_term := lt;
      memory_index := idx |}, clk).

Definition retrieve_long_term {V} (key category : string)
  (self : MemoryManager V) : option V :=
  match PyDict.get category (long_term self) with
  | Some bucket =>
      match PyDict.get key bucket with
      | Some data => Some (lt_value data)
      | None => None
      end
  | None => None
  end.

(** [str.lower()] is a method of Python's library, not of the repository.
    It works on Unicode text, and the lower case of a letter can depend on
    its place in the word (a capital sigma at the end of a word).  The store
    is therefore modelled for any function [lower] from texts to texts, and
    nothing is assumed about it: what is proved of [search_memory] holds
    whatever [str.lower()] does.

    [ascii_lower] is what the method does on a text of ASCII characters: the
    letters A to Z become a to z and every other character stays.  It stands
    for [lower] in the examples, whose texts are ASCII. *)
Definition lower_ascii (c : ascii) : ascii :=
  let n := nat_of_ascii c in
  if ((65 <=? n) && (n <=? 90))%nat then ascii_of_nat (n + 32) else c.

Fixpoint ascii_lower (s : string) : string :=
  match s with
  | EmptyString => EmptyString
  | String c rest => String (lower_ascii c) (ascii_lower rest)
  end.

(** [needle in hay] *)
Definition contains (needle hay : string) : bool :=
  match String.index 0 needle hay with
  | Some _ => true
  | None => false
  end.

Definition search_memory {V} (lower : string -> string)
  (query category : string) (self : MemoryManager V) : list (string * V) :=
  match PyDict.get category (long_term self) with
  | Some bucket =>
      map (fun kd => (fst kd, lt_value (snd kd)))
          (List.filter (fun kd => contains (lower query) (lower (fst kd)))
                       (PyDict.items bucket))
  | None => []
  end.

Definition clear_short_term {V} (self : MemoryManager V) : MemoryManager V :=
  {| memory_type := memory_type self;
     short_term := PyDict.empty;
     long_term := long_term self;
     memory_index := memory_index self |}.

Record MemoryStats := {
  short_term_size : nat;
  long_term_categories : list string;
  long_term_total : nat
}.

Definition get_memory_stats {V} (self : MemoryManager V) : MemoryStats :=
  {| short_term_size := length (short_term self);
     long_term_categories := PyDict.keys (long_term self);
     long_term_total :=
       fold_left Nat.add (map (fun v => length v) (PyDict.values (long_term self))) 0%nat |}.

(** The public operations of the store, for statements about every sequence
    of calls. *)
Inductive MemoryOp (V : Type) :=
| StoreShortTerm (key : string) (value : V) (ttl : option Z)
| RetrieveShortTerm (key : string)
| StoreLongTerm (key : string) (value : V) (category : string)
| RetrieveLongTerm (key category : string)
| SearchMemory (query category : string)
| ClearShortTerm
| GetMemoryStats.
Arguments StoreShortTerm {V} key value ttl.
Arguments RetrieveShortTerm {V} key.
Arguments StoreLongTerm {V} key value category.
Arguments RetrieveLongTerm {V} key category.
Arguments SearchMemory {V} query category.
Arguments ClearShortTerm {V}.
Arguments GetMemoryStats {V}.

(** The effect of one call on the store and the clock (the queries return
    their answer and change nothing). *)
Definition apply_op {V} (op : MemoryOp V) (st : MemoryManager V * Clock)
  : MemoryManager V * Clock :=
  let '(self, clk) := st in
  match op with
  | StoreShortTerm key value ttl => store_short_term key value ttl self clk
  | StoreLongTerm key value category => store_long_term key value category self clk
  | ClearShortTerm => (clear_short_term self, clk)
  | RetrieveShortTerm _ | RetrieveLongTerm _ _ | SearchMemory _ _
  | GetMemoryStats => (self, clk)
  end.

Definition run_ops {V} (ops : list (MemoryOp V)) (st : MemoryManager V * Clock)
  : MemoryManager V * Clock :=
  fold_left (fun st op => apply_op op st) ops st.

(** The invariant of the long-term tier: every key of a category's bucket
    occurs in that category's index. *)
Definition index_covers_storage {V} (self : MemoryManager V) : Prop :=
  forall category bucket,
    PyDict.get category (long_term self) = Some bucket ->
    exists idx,
      PyDict.get category (memory_index self) = Some idx /\
      forall key, key ∈ PyDict.keys bucket -> key ∈ idx.

(** *** EvaluationEngine *)

Record Evaluation := {
  eval_output : string;
  criteria_scores : PyDict.t Q;
  overall_score : Q;
  eval_timestamp : Z
}.

(** The engine; [llm] is never called. *)
Record EvaluationEngine := {
  evaluation_history : list Evaluation
}.

Definition EvaluationEngine_init : EvaluationEngine :=
  {| evaluation_history := [] |}.

(** The score of one criterion: [len(output) / 1000.0], then [min(score, 1.0)]. *)
Definition criterion_score (output : string) : Q :=
  let score := (inject_Z (Z.of_nat (String.length output)) / 1000)%Q in
  py_min score 1%Q.

(** The loop over [criteria.items()]. *)
Fixpoint score_loop (output : string) (items : list (string * string))
  (scores : PyDict.t Q) (total_score : Q) : PyDict.t Q * Q :=
  match items with
  | [] => (scores, total_score)
  | (criterion, description) :: rest =>
      let score := criterion_score output in
      score_loop output rest (PyDict.set criterion score scores)
                 (total_score + score)%Q
  end.

Definition evaluate_output (output : string) (criteria : PyDict.t string)
  (self : EvaluationEngine) (clk : Clock)
  : Outcome Evaluation * EvaluationEngine * Clock :=
  let snippet :=
    if (100 <? String.length output)%nat
    then substring 0 100 output +:+ "..."
    else output in
  let '(now, clk) := datetime_now clk in
  let scored :=
    match criteria with
    | _ :: _ =>
        let '(scores, total_score) :=
          score_loop output (PyDict.items criteria) PyDict.empty 0%Q in
        match truediv total_score (length criteria) with
        | Returned overall => Returned (scores, overall)
        | Raised e => Raised e
        end
    | [] => Returned (PyDict.empty, 0%Q)
    end in
  match scored with
  | Returned (scores, overall) =>
      let evaluation :=
        {| eval_output := snippet; criteria_scores := scores;
           overall_score := overall; eval_timestamp := now |} in
      (Returned evaluation,
       {| evaluation_history := evaluation_history self ++ [evaluation] |}, clk)
  | Raised e => (Raised e, self, clk)
  end.

(** *** The state graph of langgraph

    The library is not part of the repository.  The model covers what
    [_build_graph] uses: named nodes, one outgoing edge for each node, an
    entry point, and [invoke], which runs the node functions along the edges
    until [END], within the library's default recursion limit.  A node
    function takes the state and returns it; [Env] is what the bound methods
    used as node functions close over. *)

Section StateGraph.
Context {St Env : Type}.

Definition NodeFn : Type := St -> Env -> Outcome St * Env.

Record StateGraph := {
  nodes : PyDict.t NodeFn;
  edges : PyDict.t string;
  entry_point : option string
}.

Definition StateGraph_new : StateGraph :=
  {| nodes := PyDict.empty; edges := PyDict.empty; entry_point := None |}.

Definition add_node (node : string) (action : NodeFn) (g : StateGraph) : StateGraph :=
  {| nodes := PyDict.set node action (nodes g);
     edges := edges g; entry_point := entry_point g |}.

Definition add_edge (start_key end_key : string) (g : StateGraph) : StateGraph :=
  {| nodes := nodes g;
     edges := PyDict.set start_key end_key (edges g);
     entry_point := entry_point g |}.

Definition set_entry_point (key : string) (g : StateGraph) : StateGraph :=
  {| nodes := nodes g; edges := edges g; entry_point := Some key |}.

Definition END : string := "__end__".

Definition recursion_limit : nat := 25.

Fixpoint run_from (limit : nat) (g : StateGraph) (node : string)
  (s : St) (env : Env) : Outcome St * Env :=
  match limit with
  | O => (Raised (GraphRecursionError "Recursion limit reached without hitting a stop condition"), env)
  | S limit =>
      if String.eqb node END then (Returned s, env)
      else
        match PyDict.get node (nodes g) with
        | None => (Raised (ValueError ("Unknown node: " +:+ node)), env)
        | Some action =>
            match action s env with
            | (Returned s, env) =>
                match PyDict.get node (edges g) with
                | Some next => run_from limit g next s env
                | None => (Returned s, env)
                end
            | (Raised e, env) => (Raised e, env)
            end
        end
  end.

Definition invoke (g : StateGraph) (s : St) (env : Env) : Outcome St * Env :=
  match entry_point g with
  | Some node => run_from recursion_limit g node s env
  | None => (Raised (ValueError "Graph must have an entrypoint"), env)
  end.

End StateGraph.
Arguments StateGraph St Env : clear implicits.
Arguments NodeFn St Env : clear implicits.

(** *** SwarmGraph *)

Inductive Message :=
| HumanMessage (content : string)
| AIMessage (content : string).

(** [agent_results]: empty at first, then the two keys the agent stage sets. *)
Record AgentResults := {
  primary_agent : option string;
  results_timestamp : option Z
}.

(** What the pipeline stores in memory: the task text in the short-term tier,
    the record of a run in the long-term tier. *)
Inductive MemValue :=
| TextValue (s : string)
| RunValue (task : string) (results : AgentResults) (evaluation : option Evaluation).

Record SwarmState := {
  task : string;
  messages : list Message;
  agent_results : AgentResults;
  evaluation_results : option Evaluation;
  short_term_memory : PyDict.t (ShortTermEntry MemValue);
  long_term_memory : PyDict.t (PyDict.t (LongTermEntry MemValue));
  status : string
}.

(** The mutable parts of a [SwarmGraph]; the compiled graph is the same for
    every instance ([build_graph]). *)
Record SwarmGraph := {
  memory : MemoryManager MemValue;
  evaluator : EvaluationEngine
}.

Definition SwarmGraph_init : SwarmGraph :=
  {| memory := MemoryManager_init "chroma"; evaluator := EvaluationEngine_init |}.

Definition Env : Type := SwarmGraph * Clock.

(** [str(n)] for a natural number. *)
Definition str_nat (n : nat) : string := NilEmpty.string_of_uint (Nat.to_uint n).

Definition process_input (state : SwarmState) (env : Env) : Outcome SwarmState * Env :=
  let '(self, clk) := env in
  let '(mem, clk) :=
    store_short_term "current_task" (TextValue (task state)) None (memory self) clk in
  (Returned {| task := task state;
               messages := messages state ++ [HumanMessage (task state)];
               agent_results := agent_results state;
               evaluation_results := evaluation_results state;
               short_term_memory := short_term_memory state;
               long_term_memory := long_term_memory state;
               status := "input_processed" |},
   ({| memory := mem; evaluator := evaluator self |}, clk)).

Definition agent_execution (state : SwarmState) (env : Env) : Outcome SwarmState * Env :=
  let '(self, clk) := env in
  let '(now, clk) := datetime_now clk in
  (Returned {| task := task state;
               messages := messages state;
               agent_results :=
                 {| primary_agent :=
                      Some ("Processing: " +:+ substring 0 50 (task state) +:+ "...");
                    results_timestamp := Some now |};
               evaluation_results := evaluation_results state;
               short_term_memory := short_term_memory state;
               long_term_memory := long_term_memory state;
               status := "agents_executed" |},
   (self, clk)).

Definition builtin_criteria : PyDict.t string :=
  [("relevance", "Is it relevant?"); ("completeness", "Is it complete?")].

Definition evaluation (state : SwarmState) (env : Env) : Outcome SwarmState * Env :=
  let '(self, clk) := env in
  let output := default "" (primary_agent (agent_results state)) in
  let '(eval_result, ev, clk) :=
    evaluate_output output builtin_criteria (evaluator self) clk in
  let self := {| memory := memory self; evaluator := ev |} in
  match eval_result with
  | Returned eval_result =>
      (Returned {| task := task state;
                   messages := messages state;
                   agent_results := agent_results state;
                   evaluation_results := Some eval_result;
                   short_term_memory := short_term_memory state;
                   long_term_memory := long_term_memory state;
                   status := "evaluated" |},
       (self, clk))
  | Raised e => (Raised e, (self, clk))
  end.

(** [f"task_{n}"] *)
Definition task_key (n : nat) : string := "task_" +:+ str_nat n.

(** The key of a run: [f"task_{len(self.memory.long_term.get('tasks', {}))}"]. *)
Definition next_task_key (mem : MemoryManager MemValue) : string :=
  task_key (length (default PyDict.empty (PyDict.get "tasks" (long_term mem)))).

Definition memory_update (state : SwarmState) (env : Env) : Outcome SwarmState * Env :=
  let '(self, clk) := env in
  let '(mem, clk) :=
    store_long_term (next_task_key (memory self))
      (RunValue (task state) (agent_results state) (evaluation_results state))
      "tasks" (memory self) clk in
  (Returned {| task := task state;
               messages := messages state;
               agent_results := agent_results state;
               evaluation_results := evaluation_results state;
               short_term_memory := short_term mem;
               long_term_memory := long_term mem;
               status := "memory_updated" |},
   ({| memory := mem; evaluator := evaluator self |}, clk)).

Definition aggregate_results (state : SwarmState) (env : Env) : Outcome SwarmState * Env :=
  (Returned {| task := task state;
               messages :=
                 messages state
                 ++ [AIMessage ("Task completed: " +:+ substring 0 50 (task state) +:+ "...")];
               agent_results := agent_results state;
               evaluation_results := evaluation_results state;
               short_term_memory := short_term_memory state;
               long_term_memory := long_term_memory state;
               status := "completed" |},
   env).

(** [SwarmGraph._build_graph] *)
Definition build_graph : StateGraph SwarmState Env :=
  let graph_builder := StateGraph_new in
  let graph_builder := add_node "process_input" process_input graph_builder in
  let graph_builder := add_node "agent_execution" agent_execution graph_builder in
  let graph_builder := add_node "evaluation" evaluation graph_builder in
  let graph_builder := add_node "memory_update" memory_update graph_builder in
  let graph_builder := add_node "aggregate_results" aggregate_results graph_builder in
  let graph_builder := add_edge "process_input" "agent_execution" graph_builder in
  let graph_builder := add_edge "agent_execution" "evaluation" graph_builder in
  let graph_builder := add_edge "evaluation" "memory_update" graph_builder in
  let graph_builder := add_edge "memory_update" "aggregate_results" graph_builder in
  let graph_builder := add_edge "aggregate_results" END graph_builder in
  set_entry_point "process_input" graph_builder.

Definition initial_state (t : string) : SwarmState :=
  {| task := t;
     messages := [];
     agent_results := {| primary_agent := None; results_timestamp := None |};
     evaluation_results := None;
     short_term_memory := PyDict.empty;
     long_term_memory := PyDict.empty;
     status := "initialized" |}.

(** [SwarmGraph.run] *)
Definition run (t : string) (self : SwarmGraph) (clk : Clock)
  : Outcome SwarmState * SwarmGraph * Clock :=
  let '(res, (self, clk)) := invoke build_graph (initial_state t) (self, clk) in
  (res, self, clk).

(** The graphs a program can hold: a new one, or one that has run a task. *)
Inductive Reachable : SwarmGraph -> Prop :=
| Reachable_init : Reachable SwarmGraph_init
| Reachable_run g t clk :
    Reachable g -> Reachable (snd (fst (run t g clk))).

(** The keys of the long-term category [tasks]. *)
Definition task_keys (g : SwarmGraph) : list string :=
  PyDict.keys (default PyDict.empty (PyDict.get "tasks" (long_term (memory g)))).

(** An output of 2000 characters, for the example of the specification. *)
Definition two_thousand_x : string :=
  string_of_list_ascii (List.repeat "x"%char 2000).

(** The dictionaries of a store have pairwise distinct keys, as Python
    dictionaries do: the two tiers, the index and every bucket. *)
Definition store_wf {V} (self : MemoryManager V) : Prop :=
  PyDict.wf (short_term self)
  /\ PyDict.wf (long_term self)
  /\ PyDict.wf (memory_index self)
  /\ forall category bucket,
       PyDict.get category (long_term self) = Some bucket -> PyDict.wf bucket.

(** *** Batch evaluation and the wrappers of the graph *)

Record BatchResult := {
  evaluations : list Evaluation;
  average_score : Q
}.

(** The loop of [batch_evaluate] over [outputs]; an exception of
    [evaluate_output] ends it. *)
Fixpoint batch_loop (outputs : list string) (criteria : PyDict.t string)
  (acc : list Evaluation) (self : EvaluationEngine) (clk : Clock)
  : Outcome (list Evaluation) * EvaluationEngine * Clock :=
  match outputs with
  | [] => (Returned acc, self, clk)
  | output :: rest =>
      let '(eval_result, self, clk) := evaluate_output output criteria self clk in
      match eval_result with
      | Returned ev => batch_loop rest criteria (acc ++ [ev]) self clk
      | Raised e => (Raised e, self, clk)
      end
  end.

Definition batch_evaluate (outputs : list string) (criteria : PyDict.t string)
  (self : EvaluationEngine) (clk : Clock)
  : Outcome BatchResult * EvaluationEngine * Clock :=
  let '(looped, self, clk) := batch_loop outputs criteria [] self clk in
  match looped with
  | Returned evals =>
      let average :=
        match evals with
        | _ :: _ =>
            let scores := map overall_score evals in
            truediv (py_sum scores) (length scores)
        | [] => Returned 0%Q
        end in
      match average with
      | Returned avg =>
          (Returned {| evaluations := evals; average_score := avg |}, self, clk)
      | Raised e => (Raised e, self, clk)
      end
  | Raised e => (Raised e, self, clk)
  end.

(** [SwarmGraph.get_memory_stats] *)
Definition SwarmGraph_get_memory_stats (self : SwarmGraph) : MemoryStats :=
  get_memory_stats (memory self).

(** The calls [self.run(t)] for [t] in [tasks], one after the other. *)
Fixpoint run_all (tasks : list string) (self : SwarmGraph) (clk : Clock)
  : SwarmGraph * Clock :=
  match tasks with
  | [] => (self, clk)
  | t :: rest =>
      let '(_, self, clk) := run t self clk in
      run_all rest self clk
  end.

(** What the engine computes as overall score: the score of the output
    when there is a criterion, zero when there is none. *)
Abbreviation expected_overall output criteria :=
  (match criteria with [] => 0%Q | _ :: _ => criterion_score output end).

(** The text the agent stage produces for a task. *)
Abbreviation processing t := ("Processing: " +:+ substring 0 50 t +:+ "...").

End Graph.

(** ** tools.py

    The registry of the tools and its reader.  A tool is the function the
    decorator [@tool] wraps; the registry files each under the name of its
    function.  What the tools do is input and output, which is not part of
    the model. *)

Module Tools.

Inductive Tool :=
| web_search | code_execution | file_operations | data_analysis | memory_store.

Definition TOOL_REGISTRY : PyDict.t Tool :=
  [("web_search", web_search);
   ("code_execution", code_execution);
   ("file_operations", file_operations);
   ("data_analysis", data_analysis);
   ("memory_store", memory_store)].

(** [tool_names] is [None] by default.  The comprehension keeps the names
    that are in the registry and looks each of them up. *)
Definition get_tools (tool_names : option (list string)) : list Tool :=
  match tool_names with
  | None => PyDict.values TOOL_REGISTRY
  | Some names => omap (fun name => PyDict.get name TOOL_REGISTRY) names
  end.

End Tools.


(** * Facts

    ** Dictionaries *)

Section PyDictFacts.
Import PyDict.
Context {V : Type}.
Implicit Types (d : t V) (k : string) (v : V).

Lemma dict_get_None k d : get k d = None <-> k ∉ keys d.
Proof.
  induction d as [|[k' v'] d IH]; simpl.
  - split; [intros _; apply not_elem_of_nil | done].
  - destruct (String.eqb_spec k k') as [->|Hne].
    + split; [done | intros H; exfalso; apply H; left].
    + rewrite IH. rewrite not_elem_of_cons. tauto.
Qed.

Lemma dict_get_Some_elem k v d : get k d = Some v -> (k, v) ∈ d.
Proof.
  induction d as [|[k' v'] d IH]; simpl; [done|].
  destruct (String.eqb_spec k k') as [->|Hne].
  - intros [= ->]. left.
  - intros H. right. auto.
Qed.

Lemma dict_elem_get k v d : wf d -> (k, v) ∈ d -> get k d = Some v.
Proof.
  unfold wf. induction d as [|[k' v'] d IH]; simpl.
  - intros _ H. by apply elem_of_nil in H.
  - intros Hnd Hin. apply NoDup_cons in Hnd as [Hk' Hnd].
    apply elem_of_cons in Hin as [[= -> ->]|Hin].
    + by rewrite String.eqb_refl.
    + destruct (String.eqb_spec k k') as [->|Hne]; [|auto].
      exfalso. apply Hk'. change k' with (fst (k', v)).
      by apply list_elem_of_fmap_2.
Qed.

Lemma dict_mem_true k d : mem k d = true <-> k ∈ keys d.
Proof.
  unfold mem. destruct (get k d) eqn:E.
  - split; [intros _|done].
    apply dict_get_Some_elem in E. change k with (fst (k, v)).
    by apply list_elem_of_fmap_2.
  - apply dict_get_None in E. split; [done | intros; contradiction].
Qed.

Lemma dict_mem_false k d : mem k d = false <-> k ∉ keys d.
Proof.
  rewrite <- dict_get_None. unfold mem. destruct (get k d); split; congruence.
Qed.

Lemma dict_get_set_eq k v d : get k (set k v d) = Some v.
Proof.
  induction d as [|[k' v'] d IH]; simpl.
  - by rewrite String.eqb_refl.
  - destruct (String.eqb_spec k k') as [->|Hne]; simpl.
    + by rewrite String.eqb_refl.
    + by destruct (String.eqb_spec k k').
Qed.

Lemma dict_get_set_ne k k' v d : k <> k' -> get k' (set k v d) = get k' d.
Proof.
  intros Hne. induction d as [|[k0 v0] d IH]; simpl.
  - by destruct (String.eqb_spec k' k); [subst|].
  - destruct (String.eqb_spec k k0) as [->|Hne0]; simpl.
    + by destruct (String.eqb_spec k' k0); [subst|].
    + by rewrite IH.
Qed.

(** Assigning to a present key changes no key. *)
Lemma dict_keys_set_present k v d : k ∈ keys d -> keys (set k v d) = keys d.
Proof.
  induction d as [|[k' v'] d IH]; simpl.
  - intros H. by apply elem_of_nil in H.
  - intros H. destruct (String.eqb_spec k k') as [->|Hne]; [done|].
    simpl. f_equal. apply IH.
    apply elem_of_cons in H as [?|?]; [congruence | done].
Qed.

(** Assigning to an absent key appends it. *)
Lemma dict_set_absent k v d : k ∉ keys d -> set k v d = d ++ [(k, v)].
Proof.
  induction d as [|[k' v'] d IH]; simpl; [done|].
  intros H. apply not_elem_of_cons in H as [Hne H].
  destruct (String.eqb_spec k k'); [done|]. by rewrite IH.
Qed.

Lemma dict_keys_set k v d :
  keys (set k v d) = if mem k d then keys d else keys d ++ [k].
Proof.
  destruct (mem k d) eqn:E.
  - apply dict_keys_set_present. by apply dict_mem_true.
  - apply dict_mem_false in E. rewrite dict_set_absent by done.
    unfold keys. by rewrite map_app.
Qed.

Lemma dict_wf_set k v d : wf d -> wf (set k v d).
Proof.
  unfold wf. intros Hd. rewrite dict_keys_set. destruct (mem k d) eqn:E; [done|].
  apply dict_mem_false in E. apply NoDup_app. repeat split; [done | | apply NoDup_singleton].
  intros x Hx Hx'. apply list_elem_of_singleton in Hx'. by subst.
Qed.

(** Filling from pairs with fresh, distinct keys appends them in order. *)
Lemma dict_update_fresh d pairs :
  NoDup (keys d ++ map fst pairs) -> update d pairs = d ++ pairs.
Proof.
  unfold update. revert d.
  induction pairs as [|[k v] pairs IH]; intros d Hnd; simpl.
  - by rewrite app_nil_r.
  - simpl in Hnd.
    assert (k ∉ keys d) as Hk.
    { apply NoDup_app in Hnd as (_ & Hdis & _). intros Hin.
      apply (Hdis k Hin). left. }
    rewrite dict_set_absent by done. rewrite IH.
    + by rewrite <- app_assoc.
    + unfold keys. rewrite map_app. simpl. by rewrite <- app_assoc.
Qed.

Lemma dict_keys_del_subseteq k d x : x ∈ keys (del k d) -> x ∈ keys d.
Proof.
  induction d as [|[k' v'] d IH]; simpl; [done|].
  destruct (String.eqb k k'); simpl; rewrite !elem_of_cons; [tauto|].
  intros [?|?]; [tauto | right; auto].
Qed.

Lemma dict_wf_del k d : wf d -> wf (del k d).
Proof.
  unfold wf. induction d as [|[k' v'] d IH]; simpl; [done|].
  intros Hnd. apply NoDup_cons in Hnd as [Hk' Hnd].
  destruct (String.eqb k k'); simpl; [done|].
  apply NoDup_cons. split; [|auto].
  intros Hin. apply Hk'. by apply (dict_keys_del_subseteq k).
Qed.

Lemma dict_update_empty (pairs : list (string * V)) :
  NoDup (map fst pairs) -> update empty pairs = pairs.
Proof. intros H. by rewrite dict_update_fresh. Qed.

End PyDictFacts.


(** ** Agents *)

Section AgentFacts.
Import Agents.

(** What a call returns or raises depends on the config and the task only. *)
Lemma Agent_execute_outcome (self : Agent) (task : string) (clk : Clock) :
  (Agent_execute self task clk).1.1 = processed (config self) task.
Proof.
  unfold Agent_execute. simpl. by destruct (processed (config self) task).
Qed.

Lemma Agent_execute_config (self : Agent) (task : string) (clk : Clock) :
  config (Agent_execute self task clk).1.2 = config self.
Proof.
  unfold Agent_execute. simpl. by destruct (processed (config self) task).
Qed.

(** A call reads the clock three times. *)
Lemma Agent_execute_clock (self : Agent) (task : string) (clk : Clock) :
  (Agent_execute self task clk).2
  = {| readings := readings clk; reads := S (S (S (reads clk))) |}.
Proof.
  unfold Agent_execute. simpl. by destruct (processed (config self) task).
Qed.

(** A call fails exactly when the role of the config is not a member of the
    enum. *)
Lemma processed_Returned (cfg : AgentConfig) (task : string) (m : AgentRole) :
  role cfg = Member m ->
  processed cfg task
  = Returned ("Agent " +:+ name cfg +:+ " (" +:+ AgentRole_value m
              +:+ ") processed: " +:+ substring 0 100 task).
Proof. intros H. unfold processed. by rewrite H. Qed.

Lemma processed_Raised (cfg : AgentConfig) (task s : string) :
  role cfg = PlainStr s ->
  processed cfg task = Raised (AttributeError "'str' object has no attribute 'value'").
Proof. intros H. unfold processed. by rewrite H. Qed.

(** C1. For every task, [Agent.execute] appends exactly one entry to the
    execution log of the agent; the entry carries the task, the duration (the
    seconds between the first and the second reading of the clock) and a
    status; when the call returns, the state is ["idle"] and the entry is
    ["completed"] with the result; when it raises, the state is ["error"] and
    the entry is ["failed"] with the text of the error. *)
Theorem Agent_execute_logs_once (self : Agent) (task : string) (clk : Clock) :
  exists entry : LogEntry,
    execution_log (Agent_execute self task clk).1.2 = execution_log self ++ [entry]
    /\ log_task entry = task
    /\ log_duration entry
       = total_seconds (readings clk (S (reads clk)) - readings clk (reads clk))
    /\ match (Agent_execute self task clk).1.1 with
       | Returned r =>
           state (Agent_execute self task clk).1.2 = "idle"
           /\ log_status entry = "completed" /\ log_result entry = Some r
       | Raised e =>
           state (Agent_execute self task clk).1.2 = "error"
           /\ log_status entry = "failed" /\ log_error entry = Some (str_exn e)
       end.
Proof.
  unfold Agent_execute. simpl.
  destruct (processed (config self) task) as [r|e]; simpl;
    eexists; repeat split; reflexivity.
Qed.

(** Both outcomes occur. *)
Example Agent_execute_returns :
  let a := Agent_init (AgentConfig_new "a" (Member RESEARCHER)) in
  let clk := {| readings := fun n => Z.of_nat n; reads := 0 |} in
  (Agent_execute a "t" clk).1.1 = Returned "Agent a (researcher) processed: t"
  /\ state (Agent_execute a "t" clk).1.2 = "idle"
  /\ length (execution_log (Agent_execute a "t" clk).1.2) = 1.
Proof. repeat split. Qed.

Example Agent_execute_raises :
  let a := Agent_init (AgentConfig_new "a" (PlainStr "researcher")) in
  let clk := {| readings := fun n => Z.of_nat n; reads := 0 |} in
  (Agent_execute a "t" clk).1.1
  = Raised (AttributeError "'str' object has no attribute 'value'")
  /\ state (Agent_execute a "t" clk).1.2 = "error"
  /\ length (execution_log (Agent_execute a "t" clk).1.2) = 1.
Proof. repeat split. Qed.

(** The statistics never raise: the division is made on a log that is not
    empty only. *)
Lemma Agent_get_execution_stats_returns (self : Agent) :
  exists st, Agent_get_execution_stats self = Returned st.
Proof.
  unfold Agent_get_execution_stats.
  destruct (execution_log self) as [|e l]; simpl; eauto.
Qed.

(** C9. For an agent whose execution log is empty, [get_execution_stats]
    returns (it does not raise), and the average duration it reports is [0],
    as are the counts and the total duration. *)
Theorem Agent_stats_of_empty_log (self : Agent) :
  execution_log self = [] ->
  exists st,
    Agent_get_execution_stats self = Returned st
    /\ avg_duration st = 0%Q
    /\ total_executions st = 0%nat
    /\ total_duration st = 0%Q.
Proof.
  intros Hlog. unfold Agent_get_execution_stats. rewrite Hlog. simpl.
  eexists. repeat split.
Qed.

Lemma Agent_stats_of_empty_log_witness :
  exists st,
    Agent_get_execution_stats (Agent_init (AgentConfig_new "a" (Member RESEARCHER)))
    = Returned st
    /\ avg_duration st = 0%Q
    /\ total_executions st = 0%nat
    /\ total_duration st = 0%Q.
Proof.
  apply (Agent_stats_of_empty_log (Agent_init (AgentConfig_new "a" (Member RESEARCHER)))).
  reflexivity.
Defined.

End AgentFacts.

(** ** Gathering the calls of a pool *)

Section GatherFacts.
Import Agents.

Lemma place_Permutation i r done : place i r done ≡ₚ (i, r) :: done.
Proof.
  induction done as [|[j s] rest IH]; simpl; [done|].
  destruct (i <=? j)%nat; [done|].
  rewrite IH. apply Permutation_swap.
Qed.

Lemma place_Sorted i r done :
  Sorted le done.*1 -> Sorted le (place i r done).*1.
Proof.
  induction done as [|[j s] rest IH]; simpl; intros Hs.
  - repeat constructor.
  - destruct (Nat.leb_spec i j) as [Hij|Hji]; simpl.
    + constructor; [done|]. by constructor.
    + apply Sorted_inv in Hs as [Hs Hhd]. constructor; [by apply IH|].
      destruct rest as [|[j' s'] rest']; simpl.
      * constructor. lia.
      * destruct (i <=? j')%nat; simpl; constructor; [lia|].
        by apply HdRel_inv in Hhd.
Qed.

Lemma Sorted_le_seq a n : Sorted le (seq a n).
Proof.
  revert a. induction n as [|n IH]; intros a; simpl; [constructor|].
  constructor; [apply IH|]. destruct n; simpl; constructor. lia.
Qed.

(** The invariant of the event loop, for the agents [ags0] that [gather]
    received: the configs stay, every response kept is what the agent at its
    position answers, and the responses are kept in the order of positions. *)
Lemma event_loop_inv pick task (ags0 : list Agent) fuel :
  forall ready ags done clk,
    length ready <= fuel ->
    config <$> ags = config <$> ags0 ->
    Forall (fun ir => exists a0, ags0 !! ir.1 = Some a0
                                 /\ ir.2 = processed (config a0) task) done ->
    Sorted le done.*1 ->
    Forall (fun i => i < length ags0) ready ->
    exists ags' done' clk',
      event_loop pick task fuel ready (ags, done, clk) = (ags', done', clk')
      /\ config <$> ags' = config <$> ags0
      /\ Forall (fun ir => exists a0, ags0 !! ir.1 = Some a0
                                      /\ ir.2 = processed (config a0) task) done'
      /\ Sorted le done'.*1
      /\ done'.*1 ≡ₚ ready ++ done.*1.
Proof.
  induction fuel as [|fuel IH]; intros ready ags done clk Hlen Hcfg Hdone Hsorted Hready.
  - destruct ready; [|simpl in Hlen; lia]. simpl. eauto 10.
  - cbn [event_loop]. destruct ready as [|i0 rest] eqn:Eready.
    { simpl. eauto 10. }
    rewrite <- Eready in *.
    set (k := (pick ready mod length ready)%nat).
    assert (k < length ready) as Hk.
    { apply Nat.mod_upper_bound. rewrite Eready. simpl. lia. }
    destruct (lookup_lt_is_Some_2 _ _ Hk) as [i Hi]. rewrite Hi.
    assert (i < length ags0) as Hi0.
    { by apply (Forall_lookup_1 _ _ _ _ Hready Hi). }
    assert (length ags = length ags0) as Hlens.
    { by rewrite <- (length_fmap config ags), Hcfg, length_fmap. }
    destruct (lookup_lt_is_Some_2 ags i) as [a Ha]; [lia|].
    destruct (lookup_lt_is_Some_2 ags0 i) as [a0 Ha0]; [lia|].
    assert (config a = config a0) as Haa0.
    { assert ((config <$> ags) !! i = Some (config a)) as H1 by by rewrite list_lookup_fmap, Ha.
      rewrite Hcfg, list_lookup_fmap, Ha0 in H1. simpl in H1. congruence. }
    unfold run_task at 1. rewrite Ha.
    pose proof (Agent_execute_outcome a task clk) as Hout.
    pose proof (Agent_execute_config a task clk) as Hconf.
    destruct (Agent_execute a task clk) as [[r a'] clk'] eqn:E. simpl in Hout, Hconf.
    pose proof (delete_Permutation _ _ _ Hi) as Hperm.
    destruct (IH (delete k ready) (<[i:=a']> ags) (place i r done) clk')
      as (ags' & done' & clk'' & Hrun & Hcfg' & Hdone' & Hsorted' & Hperm').
    + rewrite length_delete by eauto. lia.
    + rewrite list_fmap_insert, Hconf, <- Hcfg.
      apply list_insert_id. by rewrite list_lookup_fmap, Ha.
    + rewrite place_Permutation. constructor; [|done].
      exists a0. simpl. split; [done|]. by rewrite Hout, Haa0.
    + by apply place_Sorted.
    + rewrite Hperm in Hready. by apply Forall_cons in Hready as [_ ?].
    + exists ags', done', clk''. repeat split; try done.
      rewrite Hperm'.
      rewrite (fmap_Permutation fst _ _ (place_Permutation i r done)).
      rewrite Hperm at 2. simpl. by rewrite <- Permutation_middle.
Qed.

(** Whatever the scheduler, [gather] returns, in the order of its arguments,
    what each agent answers, and no config changes. *)
Lemma gather_spec pick task (ags : list Agent) clk :
  (gather pick task ags clk).1.1 = (fun a => processed (config a) task) <$> ags
  /\ config <$> (gather pick task ags clk).1.2 = config <$> ags.
Proof.
  unfold gather.
  destruct (event_loop_inv pick task ags (length ags) (seq 0 (length ags)) ags [] clk)
    as (ags' & done' & clk' & Hrun & Hcfg & Hdone & Hsorted & Hperm).
  - by rewrite length_seq.
  - done.
  - constructor.
  - constructor.
  - apply Forall_forall. intros i Hi. apply elem_of_seq in Hi. lia.
  - rewrite Hrun. simpl. split; [|done].
    rewrite app_nil_r in Hperm.
    assert (done'.*1 = seq 0 (length ags)) as Hkeys.
    { apply (Sorted_unique le); [done | apply Sorted_le_seq | done]. }
    apply list_eq. intros j. rewrite !list_lookup_fmap.
    destruct (done' !! j) as [[i r]|] eqn:Ej; simpl.
    + assert (done'.*1 !! j = Some i) as H1 by by rewrite list_lookup_fmap, Ej.
      rewrite Hkeys in H1. apply lookup_seq in H1 as [-> Hj]. simpl in *.
      destruct (Forall_lookup_1 _ _ _ _ Hdone Ej) as (a0 & Ha0 & Hr). simpl in *.
      by rewrite Ha0, Hr.
    + apply lookup_ge_None in Ej.
      assert (length done' = length ags) as Hl.
      { by rewrite <- (length_fmap fst done'), Hkeys, length_seq. }
      rewrite lookup_ge_None_2; [done | lia].
Qed.

Lemma gather_responses pick task (ags : list Agent) clk :
  (gather pick task ags clk).1.1 = (fun a => processed (config a) task) <$> ags.
Proof. apply gather_spec. Qed.

Lemma gather_configs pick task (ags : list Agent) clk :
  config <$> (gather pick task ags clk).1.2 = config <$> ags.
Proof. apply gather_spec. Qed.

Lemma gather_length pick task (ags : list Agent) clk :
  length (gather pick task ags clk).1.2 = length ags.
Proof.
  by rewrite <- (length_fmap config), gather_configs, length_fmap.
Qed.

End GatherFacts.

(** ** Sequential and parallel execution of a pool *)

Section PoolFacts.
Import Agents.

Lemma slots_profile task (ags : PyDict.t Agent) :
  slots task ags = (fun nc => (nc.1, slot (processed nc.2 task))) <$> profile ags.
Proof.
  unfold slots, profile. rewrite <- list_fmap_compose. done.
Qed.

Lemma slots_keys task (ags : PyDict.t Agent) :
  PyDict.keys (slots task ags) = PyDict.keys ags.
Proof.
  unfold PyDict.keys, slots. rewrite map_map. done.
Qed.

Lemma profile_keys (ags : PyDict.t Agent) :
  PyDict.keys ags = (profile ags).*1.
Proof.
  unfold PyDict.keys, profile. rewrite <- list_fmap_compose. done.
Qed.

Lemma profile_values (ags : PyDict.t Agent) :
  config <$> PyDict.values ags = (profile ags).*2.
Proof.
  unfold PyDict.values, profile. rewrite <- !list_fmap_compose. done.
Qed.

Lemma slots_get task (ags : PyDict.t Agent) (n : string) :
  PyDict.get n (slots task ags)
  = (fun a => slot (processed (config a) task)) <$> PyDict.get n ags.
Proof.
  induction ags as [|[k a] ags IH]; simpl; [done|].
  by destruct (String.eqb n k).
Qed.

(** Names with configs determine a pool up to what its agents logged. *)
Lemma profile_zip (ags : PyDict.t Agent) (ags' : list Agent) :
  config <$> ags' = config <$> PyDict.values ags ->
  profile (zip (PyDict.keys ags) ags') = profile ags.
Proof.
  revert ags'. induction ags as [|[k a] ags IH]; intros [|a' ags'] H; simpl in *; try done.
  injection H as H1 H2. unfold profile in *. simpl. rewrite H1. f_equal. by apply IH.
Qed.

Lemma zip_keys_values {A B} (f : A -> B) (d : PyDict.t A) :
  zip (PyDict.keys d) (f <$> PyDict.values d) = (fun kv => (kv.1, f kv.2)) <$> d.
Proof.
  induction d as [|[k a] d IH]; simpl; [done|]. f_equal. apply IH.
Qed.

(** The loop of the sequential mode writes the slot of every agent, in order,
    and leaves names and configs as they are. *)
Lemma sequential_loop_spec task (items : list (string * Agent)) :
  forall results clk,
    (sequential_loop task items results clk).1.1
    = PyDict.update results (slots task items)
    /\ profile (sequential_loop task items results clk).1.2 = profile items.
Proof.
  induction items as [|[n a] items IH]; intros results clk; simpl; [done|].
  pose proof (Agent_execute_outcome a task clk) as Hout.
  pose proof (Agent_execute_config a task clk) as Hcfg.
  destruct (Agent_execute a task clk) as [[r a'] clk']. simpl in Hout, Hcfg.
  specialize (IH (PyDict.set n (slot r) results) clk').
  destruct (sequential_loop task items (PyDict.set n (slot r) results) clk')
    as [[res items'] clk'']. simpl in *.
  destruct IH as [-> Hp]. subst r. split; [done|].
  unfold profile in *. simpl. by rewrite Hcfg, Hp.
Qed.

Lemma collect_slots task (ags : PyDict.t Agent) :
  collect (PyDict.keys ags) ((fun a => processed (config a) task) <$> PyDict.values ags)
  = PyDict.update PyDict.empty (slots task ags).
Proof.
  unfold collect. rewrite zip_keys_values. unfold slots.
  f_equal. rewrite <- list_fmap_compose. done.
Qed.

Lemma execute_sequential_results task (self : AgentPool) clk :
  (AgentPool_execute_sequential task self clk).1.1
  = PyDict.update PyDict.empty (slots task (agents self)).
Proof.
  unfold AgentPool_execute_sequential.
  pose proof (sequential_loop_spec task (PyDict.items (agents self)) PyDict.empty clk) as [H _].
  destruct (sequential_loop task (PyDict.items (agents self)) PyDict.empty clk) as [[res items] clk'].
  done.
Qed.

Lemma execute_parallel_results pick task (self : AgentPool) clk :
  (AgentPool_execute_parallel pick task self clk).1.1
  = PyDict.update PyDict.empty (slots task (agents self)).
Proof.
  unfold AgentPool_execute_parallel.
  destruct (PyDict.values (agents self)) as [|a0 rest] eqn:Ev.
  - destruct (agents self); [done | discriminate].
  - rewrite <- Ev.
    pose proof (gather_responses pick task (PyDict.values (agents self)) clk) as H.
    destruct (gather pick task (PyDict.values (agents self)) clk) as [[responses ags] clk'].
    simpl in *. rewrite H. apply collect_slots.
Qed.

(** Both modes leave the names and the configs of the pool as they are. *)
Lemma execute_sequential_profile task (self : AgentPool) clk :
  profile (agents (AgentPool_execute_sequential task self clk).1.2) = profile (agents self).
Proof.
  unfold AgentPool_execute_sequential.
  pose proof (sequential_loop_spec task (PyDict.items (agents self)) PyDict.empty clk) as [_ H].
  destruct (sequential_loop task (PyDict.items (agents self)) PyDict.empty clk) as [[res items] clk'].
  done.
Qed.

Lemma execute_parallel_profile pick task (self : AgentPool) clk :
  profile (agents (AgentPool_execute_parallel pick task self clk).1.2) = profile (agents self).
Proof.
  unfold AgentPool_execute_parallel.
  destruct (PyDict.values (agents self)) as [|a0 rest] eqn:Ev; [done|].
  rewrite <- Ev.
  pose proof (gather_configs pick task (PyDict.values (agents self)) clk) as H.
  destruct (gather pick task (PyDict.values (agents self)) clk) as [[responses ags] clk'].
  simpl in *. by apply profile_zip.
Qed.

Lemma slots_wf task (ags : PyDict.t Agent) :
  PyDict.wf ags -> PyDict.update PyDict.empty (slots task ags) = slots task ags.
Proof.
  intros Hwf. apply dict_update_empty.
  change (map fst (slots task ags)) with (PyDict.keys (slots task ags)).
  by rewrite slots_keys.
Qed.


(** The pools a program builds have pairwise distinct names. *)
Lemma AgentPool_init_wf : PyDict.wf (agents AgentPool_init).
Proof. constructor. Qed.

Lemma AgentPool_add_agent_wf (cfg : AgentConfig) (self : AgentPool) :
  PyDict.wf (agents self) -> PyDict.wf (agents (AgentPool_add_agent cfg self).2).
Proof. apply dict_wf_set. Qed.

Lemma AgentPool_remove_agent_wf (agent_name : string) (self : AgentPool) :
  PyDict.wf (agents self) -> PyDict.wf (agents (AgentPool_remove_agent agent_name self)).
Proof.
  intros Hwf. unfold AgentPool_remove_agent.
  destruct (PyDict.mem agent_name (agents self)); [|done]. by apply dict_wf_del.
Qed.

Lemma AgentPool_execute_sequential_wf task (self : AgentPool) clk :
  PyDict.wf (agents self) ->
  PyDict.wf (agents (AgentPool_execute_sequential task self clk).1.2).
Proof.
  unfold PyDict.wf. by rewrite !profile_keys, execute_sequential_profile.
Qed.

Lemma AgentPool_execute_parallel_wf pick task (self : AgentPool) clk :
  PyDict.wf (agents self) ->
  PyDict.wf (agents (AgentPool_execute_parallel pick task self clk).1.2).
Proof.
  unfold PyDict.wf. by rewrite !profile_keys, execute_parallel_profile.
Qed.

(** C2. For every pool (its names pairwise distinct, as the keys of a
    dictionary are) and every task, [AgentPool.execute] in sequential and in
    parallel mode, under every scheduler, returns a flat result mapping whose
    keys are the names of the agents of the pool, in their order.  The slot
    of an agent is decided by the call of that agent alone: [{status:
    "failed", error}] with the text of the exception when its call raises,
    [{status: "success", result}] when it returns; so a failure neither cuts
    the loop short nor changes the slot of another agent. *)
Theorem AgentPool_execute_isolates_failures (pick : Scheduler) (task : string)
  (self : AgentPool) (clk : Clock) :
  PyDict.wf (agents self) ->
  execution_mode self <> HIERARCHICAL ->
  exists results,
    (AgentPool_execute pick task self clk).1.1 = Flat results
    /\ PyDict.keys results = PyDict.keys (agents self)
    /\ forall agent_name agent clk0,
         PyDict.get agent_name (agents self) = Some agent ->
         match (Agent_execute agent task clk0).1.1 with
         | Returned r =>
             PyDict.get agent_name results
             = Some {| status := "success"; result := Some r; error := None |}
         | Raised e =>
             PyDict.get agent_name results
             = Some {| status := "failed"; result := None; error := Some (str_exn e) |}
         end.
Proof.
  intros Hwf Hmode. exists (slots task (agents self)).
  split; [|split].
  - unfold AgentPool_execute. destruct (execution_mode self); [| |done].
    + pose proof (execute_sequential_results task self clk) as H.
      destruct (AgentPool_execute_sequential task self clk) as [[r p] c].
      simpl in *. by rewrite H, slots_wf.
    + pose proof (execute_parallel_results pick task self clk) as H.
      destruct (AgentPool_execute_parallel pick task self clk) as [[r p] c].
      simpl in *. by rewrite H, slots_wf.
  - apply slots_keys.
  - intros agent_name agent clk0 Hget.
    rewrite slots_get, Hget, Agent_execute_outcome. simpl.
    by destruct (processed (config agent) task).
Qed.

Lemma AgentPool_execute_isolates_failures_witness :
  exists results,
    (AgentPool_execute (fun _ => 1) "t"
       (AgentPool_set_execution_mode PARALLEL pool_ABC_str_role) sample_clock).1.1
    = Flat results
    /\ PyDict.keys results
       = PyDict.keys (agents (AgentPool_set_execution_mode PARALLEL pool_ABC_str_role))
    /\ forall agent_name agent clk0,
         PyDict.get agent_name
           (agents (AgentPool_set_execution_mode PARALLEL pool_ABC_str_role))
         = Some agent ->
         match (Agent_execute agent "t" clk0).1.1 with
         | Returned r =>
             PyDict.get agent_name results
             = Some {| status := "success"; result := Some r; error := None |}
         | Raised e =>
             PyDict.get agent_name results
             = Some {| status := "failed"; result := None; error := Some (str_exn e) |}
         end.
Proof.
  apply (AgentPool_execute_isolates_failures (fun _ => 1) "t"
           (AgentPool_set_execution_mode PARALLEL pool_ABC_str_role) sample_clock).
  - apply NoDup_ListNoDup. vm_compute. repeat constructor; simpl; intuition discriminate.
  - simpl. discriminate.
Defined.

(** The result of that call: the failure of B fills the slot of B only. *)
Example AgentPool_execute_parallel_str_role :
  (AgentPool_execute (fun _ => 1) "t"
     (AgentPool_set_execution_mode PARALLEL pool_ABC_str_role) sample_clock).1.1
  = Flat [("A", {| status := "success";
                   result := Some "Agent A (researcher) processed: t";
                   error := None |});
          ("B", {| status := "failed"; result := None;
                   error := Some "'str' object has no attribute 'value'" |});
          ("C", {| status := "success";
                   result := Some "Agent C (analyzer) processed: t";
                   error := None |})].
Proof. reflexivity. Qed.

(** C3. For every pool and every task, [execute_sequential] and
    [execute_parallel] (under every scheduler), applied to the same pool and
    the same clock, return the same result mapping: the same keys in the same
    order and the same entry under every key.  This holds for all pools, so in
    particular for those whose agents all succeed. *)
Theorem sequential_and_parallel_agree (pick : Scheduler) (task : string)
  (self : AgentPool) (clk : Clock) :
  let seq_results := (AgentPool_execute_sequential task self clk).1.1 in
  let par_results := (AgentPool_execute_parallel pick task self clk).1.1 in
  seq_results = par_results
  /\ PyDict.keys seq_results = PyDict.keys par_results
  /\ forall agent_name,
       PyDict.get agent_name seq_results = PyDict.get agent_name par_results.
Proof.
  simpl. rewrite execute_sequential_results, execute_parallel_results. done.
Qed.

End PoolFacts.

(** ** Hierarchical execution of a pool *)

Section HierarchicalFacts.
Import Agents.

Lemma truthy_Some (c : string) : c <> "" -> truthy (Some c) = true.
Proof. intros H. simpl. by destruct (String.eqb_spec c ""). Qed.

Lemma profile_set (c : string) (a a' : Agent) (ags : PyDict.t Agent) :
  PyDict.get c ags = Some a -> config a' = config a ->
  profile (PyDict.set c a' ags) = profile ags.
Proof.
  intros Hget Hcfg. induction ags as [|[k b] ags IH]; simpl in *; [done|].
  destruct (String.eqb_spec c k) as [->|Hne]; unfold profile in *; simpl.
  - injection Hget as ->. by rewrite Hcfg.
  - f_equal. by apply IH.
Qed.

Lemma profile_filter (P : string -> bool) (ags : PyDict.t Agent) :
  profile (List.filter (fun na => P na.1) ags)
  = List.filter (fun nc => P nc.1) (profile ags).
Proof.
  unfold profile. induction ags as [|[k a] ags IH]; simpl; [done|].
  destruct (P k); simpl; by rewrite IH.
Qed.

Lemma keys_filter {A} (P : string -> bool) (d : PyDict.t A) :
  PyDict.keys (List.filter (fun kv => P kv.1) d) = List.filter P (PyDict.keys d).
Proof.
  unfold PyDict.keys. induction d as [|[k a] d IH]; simpl; [done|].
  destruct (P k); simpl; by rewrite IH.
Qed.

Lemma NoDup_list_filter (P : string -> bool) (l : list string) :
  NoDup l -> NoDup (List.filter P l).
Proof.
  induction 1 as [|x l Hx Hl IH]; simpl; [constructor|].
  destruct (P x); [|done]. constructor; [|done].
  intros Hin. apply Hx. apply list_elem_of_In in Hin.
  apply filter_In in Hin as [Hin _]. by apply list_elem_of_In.
Qed.

Lemma wf_filter {A} (P : string -> bool) (d : PyDict.t A) :
  PyDict.wf d -> PyDict.wf (List.filter (fun kv => P kv.1) d).
Proof.
  unfold PyDict.wf. rewrite keys_filter. apply NoDup_list_filter.
Qed.

Lemma profile_nil (ags : PyDict.t Agent) : profile ags = [] -> ags = [].
Proof. by destruct ags. Qed.

Lemma wf_profile (ags ags' : PyDict.t Agent) :
  profile ags = profile ags' -> PyDict.wf ags -> PyDict.wf ags'.
Proof. unfold PyDict.wf. rewrite !profile_keys. by intros ->. Qed.

(** The worker phase on the agents [ags1] that the coordinator phase left:
    what it writes depends on names and configs only. *)
Lemma worker_slots pick task (ws : PyDict.t Agent) clk :
  PyDict.wf ws ->
  collect (PyDict.keys ws) (gather pick task (PyDict.values ws) clk).1.1
  = slots task ws.
Proof.
  intros Hwf. rewrite gather_responses, collect_slots. by apply slots_wf.
Qed.

(** Hierarchical execution with a coordinator name that is not empty: the
    coordinator section is written exactly when the name is an agent of the
    pool, the workers section exactly when some agent has another name. *)
Lemma execute_hierarchical_spec pick task (c : string) (self : AgentPool) clk :
  c <> "" -> PyDict.wf (agents self) ->
  let res := (AgentPool_execute_hierarchical pick task (Some c) self clk).1.1 in
  coordinator res
  = (fun a => coordinator_section c (processed (config a) ("Coordinate: " +:+ task)))
      <$> PyDict.get c (agents self)
  /\ workers res
     = match List.filter (fun na => differs na.1 (Some c)) (agents self) with
       | [] => None
       | w :: ws => Some (slots task (w :: ws))
       end.
Proof.
  intros Hc Hwf. unfold AgentPool_execute_hierarchical, PyDict.items.
  cbv zeta. rewrite !(truthy_Some c Hc). cbn [negb]. rewrite !(truthy_Some c Hc).
  destruct (PyDict.get c (agents self)) as [a|] eqn:Hget.
  - pose proof (Agent_execute_outcome a ("Coordinate: " +:+ task) clk) as Hout.
    pose proof (Agent_execute_config a ("Coordinate: " +:+ task) clk) as Hcfg.
    destruct (Agent_execute a ("Coordinate: " +:+ task) clk) as [[out a'] clk'].
    simpl in Hout, Hcfg. cbn [agents with_agents PyDict.items].
    pose proof (profile_set c a a' (agents self) Hget Hcfg) as Hprof.
    assert (profile (List.filter (fun na => differs na.1 (Some c)) (PyDict.set c a' (agents self)))
            = profile (List.filter (fun na => differs na.1 (Some c)) (agents self))) as HW.
    { by rewrite !(profile_filter (fun n => differs n (Some c))), Hprof. }
    assert (PyDict.wf (List.filter (fun na => differs na.1 (Some c)) (PyDict.set c a' (agents self)))) as HwfW.
    { apply (wf_filter (fun n => differs n (Some c))). by apply dict_wf_set. }
    destruct (List.filter (fun na => differs na.1 (Some c)) (PyDict.set c a' (agents self)))
      as [|w' ws'] eqn:EW'.
    + symmetry in HW. apply profile_nil in HW. rewrite HW. simpl. by rewrite Hout.
    + pose proof (worker_slots pick task (w' :: ws') clk' HwfW) as Hws.
      destruct (gather pick task (PyDict.values (w' :: ws')) clk') as [[wr ags] clk''].
      cbn [fst snd] in Hws. cbn [fst snd coordinator workers fmap option_fmap option_map].
      rewrite Hout. split; [done|].
      destruct (List.filter (fun na => differs na.1 (Some c)) (agents self)) as [|w ws] eqn:EW.
      * discriminate HW.
      * rewrite Hws. by rewrite !slots_profile, HW.
  - cbn [agents with_agents PyDict.items].
    assert (PyDict.wf (List.filter (fun na => differs na.1 (Some c)) (agents self))) as HwfW.
    { by apply (wf_filter (fun n => differs n (Some c))). }
    destruct (List.filter (fun na => differs na.1 (Some c)) (agents self)) as [|w ws] eqn:EW.
    + done.
    + pose proof (worker_slots pick task (w :: ws) clk HwfW) as Hws.
      destruct (gather pick task (PyDict.values (w :: ws)) clk) as [[wr ags] clk''].
      cbn [fst snd] in Hws. cbn [fst snd coordinator workers fmap option_fmap option_map].
      by rewrite Hws.
Qed.


Lemma filter_differs_absent (c : string) (ags : PyDict.t Agent) :
  c ∉ PyDict.keys ags ->
  List.filter (fun na => differs na.1 (Some c)) ags = ags.
Proof.
  induction ags as [|[k a] ags IH]; [done|].
  intros H. apply not_elem_of_cons in H as [Hne H].
  assert (differs k (Some c) = true) as Hk.
  { simpl. by destruct (String.eqb_spec k c) as [->|_]. }
  cbn [List.filter fst]. by rewrite Hk, IH.
Qed.

Lemma keys_filter_differs (c : string) (ags : PyDict.t Agent) :
  PyDict.keys (List.filter (fun na => differs na.1 (Some c)) ags)
  = List.filter (fun n => negb (String.eqb n c)) (PyDict.keys ags).
Proof. apply (keys_filter (fun n => negb (String.eqb n c))). Qed.

(** C5, as the code has it.  For every pool (names pairwise distinct) and
    every coordinator name [c] that is not empty and is an agent of the pool,
    under every scheduler: the result has a coordinator section, decided by
    the call of the coordinator on the task prefixed with ["Coordinate: "];
    when that call returns [r] the section is [{agent: c, result: r}], when
    it raises the section holds the text of the error.  The workers mapping
    is set exactly when the pool has an agent with another name, and its keys
    are then the names of the pool without [c], in the order of the pool;
    when [c] is the only agent the result has no workers key. *)
Theorem execute_hierarchical_member_coordinator (pick : Scheduler)
  (task c : string) (self : AgentPool) (clk : Clock) (coord_agent : Agent) :
  PyDict.wf (agents self) ->
  c <> "" ->
  PyDict.get c (agents self) = Some coord_agent ->
  let res := (AgentPool_execute_hierarchical pick task (Some c) self clk).1.1 in
  match (Agent_execute coord_agent ("Coordinate: " +:+ task) clk).1.1 with
  | Returned r =>
      coordinator res
      = Some {| section_agent := Some c; section_result := Some r;
                section_error := None |}
  | Raised e =>
      exists sec,
        coordinator res = Some sec
        /\ section_error sec = Some (str_exn e)
        /\ section_result sec = None
  end
  /\ match List.filter (fun n => negb (String.eqb n c)) (PyDict.keys (agents self)) with
     | [] => workers res = None
     | n :: others =>
         exists ws, workers res = Some ws /\ PyDict.keys ws = n :: others
     end.
Proof.
  intros Hwf Hc Hget res.
  destruct (execute_hierarchical_spec pick task c self clk Hc Hwf) as [Hcoord Hwork].
  fold res in Hcoord, Hwork. rewrite Hget in Hcoord. simpl in Hcoord.
  rewrite Agent_execute_outcome. split.
  - rewrite Hcoord. destruct (processed (config coord_agent) ("Coordinate: " +:+ task)); simpl; eauto.
  - rewrite <- keys_filter_differs. rewrite Hwork.
    destruct (List.filter (fun na => differs na.1 (Some c)) (agents self)) as [|w ws]; [done|].
    eexists. split; [done|]. apply slots_keys.
Qed.

Lemma execute_hierarchical_member_coordinator_witness :
  let res := (AgentPool_execute_hierarchical fifo "t" (Some "B") pool_ABC sample_clock).1.1 in
  match (Agent_execute (Agent_init (AgentConfig_new "B" (Member COORDINATOR)))
                       ("Coordinate: " +:+ "t") sample_clock).1.1 with
  | Returned r =>
      coordinator res
      = Some {| section_agent := Some "B"; section_result := Some r;
                section_error := None |}
  | Raised e =>
      exists sec,
        coordinator res = Some sec
        /\ section_error sec = Some (str_exn e)
        /\ section_result sec = None
  end
  /\ match List.filter (fun n => negb (String.eqb n "B")) (PyDict.keys (agents pool_ABC)) with
     | [] => workers res = None
     | n :: others =>
         exists ws, workers res = Some ws /\ PyDict.keys ws = n :: others
     end.
Proof.
  apply (execute_hierarchical_member_coordinator fifo "t" "B" pool_ABC sample_clock
           (Agent_init (AgentConfig_new "B" (Member COORDINATOR)))).
  - apply NoDup_ListNoDup. vm_compute. repeat constructor; simpl; intuition discriminate.
  - discriminate.
  - reflexivity.
Defined.

(** The example of the specification: agents A, B, C and the coordinator B. *)
Example execute_hierarchical_ABC :
  let res := (AgentPool_execute_hierarchical fifo "t" (Some "B") pool_ABC sample_clock).1.1 in
  section_agent <$> coordinator res = Some (Some "B")
  /\ PyDict.keys <$> workers res = Some ["A"; "C"].
Proof. split; reflexivity. Qed.

(** C5 as stated fails, at two inputs.  With B as the only agent of the pool
    and as the coordinator, the result has no workers key.  With agents A, B,
    C where the role of B is a string, the call of the coordinator B raises
    and the coordinator section holds the error and no agent. *)
Lemma specified_hierarchical_shape_counterexample :
  ~ specified_hierarchical_shape "B" pool_B
      (AgentPool_execute_hierarchical fifo "t" (Some "B") pool_B sample_clock).1.1
  /\ ~ specified_hierarchical_shape "B" pool_ABC_str_role
        (AgentPool_execute_hierarchical fifo "t" (Some "B") pool_ABC_str_role sample_clock).1.1.
Proof.
  split; intros [(sec & Hsec & Hagent & _) (ws & Hws & _)].
  - vm_compute in Hws. discriminate Hws.
  - vm_compute in Hsec. injection Hsec as <-. discriminate Hagent.
Qed.

(** What the two results are. *)
Example execute_hierarchical_only_coordinator :
  (AgentPool_execute_hierarchical fifo "t" (Some "B") pool_B sample_clock).1.1
  = {| coordinator :=
         Some {| section_agent := Some "B";
                 section_result := Some "Agent B (coordinator) processed: Coordinate: t";
                 section_error := None |};
       workers := None |}.
Proof. reflexivity. Qed.

Example execute_hierarchical_failed_coordinator :
  coordinator
    (AgentPool_execute_hierarchical fifo "t" (Some "B") pool_ABC_str_role sample_clock).1.1
  = Some {| section_agent := None; section_result := None;
            section_error := Some "'str' object has no attribute 'value'" |}.
Proof. reflexivity. Qed.

(** C10. For every pool with at least one agent (names pairwise distinct)
    and every coordinator name [c] that is not empty and is not an agent of
    the pool, under every scheduler: the result has no coordinator section,
    and its workers mapping has the names of all the agents of the pool as
    its keys, each with the slot of that agent. *)
Theorem execute_hierarchical_foreign_coordinator (pick : Scheduler)
  (task c : string) (self : AgentPool) (clk : Clock) :
  PyDict.wf (agents self) ->
  agents self <> [] ->
  c <> "" ->
  c ∉ PyDict.keys (agents self) ->
  let res := (AgentPool_execute_hierarchical pick task (Some c) self clk).1.1 in
  coordinator res = None
  /\ exists ws,
       workers res = Some ws
       /\ PyDict.keys ws = PyDict.keys (agents self)
       /\ ws = slots task (agents self).
Proof.
  intros Hwf Hne Hc Habs res.
  destruct (execute_hierarchical_spec pick task c self clk Hc Hwf) as [Hcoord Hwork].
  fold res in Hcoord, Hwork.
  apply dict_get_None in Habs as Hget. rewrite Hget in Hcoord.
  rewrite (filter_differs_absent c _ Habs) in Hwork.
  split; [done|]. destruct (agents self) as [|w ws] eqn:E; [done|].
  eexists. split; [done|]. split; [apply slots_keys | done].
Qed.

Lemma execute_hierarchical_foreign_coordinator_witness :
  let res := (AgentPool_execute_hierarchical fifo "t" (Some "Z") pool_ABC sample_clock).1.1 in
  coordinator res = None
  /\ exists ws,
       workers res = Some ws
       /\ PyDict.keys ws = PyDict.keys (agents pool_ABC)
       /\ ws = slots "t" (agents pool_ABC).
Proof.
  apply (execute_hierarchical_foreign_coordinator fifo "t" "Z" pool_ABC sample_clock).
  - apply NoDup_ListNoDup. vm_compute. repeat constructor; simpl; intuition discriminate.
  - discriminate.
  - discriminate.
  - vm_compute. intros H. repeat (apply elem_of_cons in H as [H|H]; [discriminate H|]).
    by apply elem_of_nil in H.
Defined.

(** C10 as stated fails at the empty name.  The pool of A, B and C has an
    agent and none of them is named by the empty text; given that text as
    the coordinator, the code takes it for no name at all ([not coordinator]
    holds of it) and makes the first agent, A, the coordinator: the result
    has a coordinator section, and A is not among the workers. *)
Lemma specified_foreign_coordinator_shape_counterexample :
  agents pool_ABC <> []
  /\ ("" ∉ PyDict.keys (agents pool_ABC))
  /\ ~ specified_foreign_coordinator_shape pool_ABC
        (AgentPool_execute_hierarchical fifo "t" (Some "") pool_ABC sample_clock).1.1
  /\ (let res :=
        (AgentPool_execute_hierarchical fifo "t" (Some "") pool_ABC sample_clock).1.1 in
      section_agent <$> coordinator res = Some (Some "A")
      /\ PyDict.keys <$> workers res = Some ["B"; "C"]).
Proof.
  split; [discriminate|]. split; [|split; [|split; reflexivity]].
  - vm_compute. intros H. repeat (apply elem_of_cons in H as [H|H]; [discriminate H|]).
    by apply elem_of_nil in H.
  - intros [Hcoord _]. vm_compute in Hcoord. discriminate Hcoord.
Qed.

(** Without a coordinator name, or with the empty one, the first agent of the
    pool is the coordinator. *)
Lemma execute_hierarchical_default (pick : Scheduler) (task : string)
  (arg : option string) (self : AgentPool) (clk : Clock) (first : string)
  (a : Agent) (rest : PyDict.t Agent) :
  truthy arg = false ->
  agents self = (first, a) :: rest ->
  AgentPool_execute_hierarchical pick task arg self clk
  = AgentPool_execute_hierarchical pick task (Some first) self clk.
Proof.
  intros Harg Hags. unfold AgentPool_execute_hierarchical.
  rewrite Harg, Hags. cbn [negb PyDict.keys map fst].
  destruct (truthy (Some first)) eqn:E; cbn [negb]; rewrite ?E; reflexivity.
Qed.

(** An empty coordinator name counts as none: the first agent coordinates. *)
Example execute_hierarchical_empty_name :
  (AgentPool_execute_hierarchical fifo "t" (Some "") pool_ABC sample_clock).1.1
  = (AgentPool_execute_hierarchical fifo "t" None pool_ABC sample_clock).1.1
  /\ section_agent
       <$> coordinator (AgentPool_execute_hierarchical fifo "t" None pool_ABC sample_clock).1.1
     = Some (Some "A").
Proof. split; reflexivity. Qed.

End HierarchicalFacts.

(** ** The orchestrator *)

Section OrchestratorFacts.
Import Agents.

(** C6. For every task and pool name: when no pool is registered under the
    name, [execute_task] raises the error that reports the missing pool (a
    [ValueError] with the message [Pool '<name>' not found], the
    NotFoundError of the specification) and leaves the orchestrator, its
    execution history included, and the clock as they were.  When a pool is
    registered under the name, [execute_task] returns a record, and the
    history afterwards is the history before followed by that one record;
    the record holds the pool name, the task, the result of the pool's
    [execute], the seconds between the clock readings before and after that
    call, and a timestamp. *)
Theorem execute_task_records (pick : Scheduler) (pool_name task : string)
  (self : SwarmOrchestrator) (clk : Clock) :
  match SwarmOrchestrator_get_pool pool_name self with
  | None =>
      SwarmOrchestrator_execute_task pick pool_name task self clk
      = (Raised (ValueError ("Pool '" +:+ pool_name +:+ "' not found")), self, clk)
  | Some pool =>
      let ran := AgentPool_execute pick task pool (datetime_now clk).2 in
      exists record self' clk',
        SwarmOrchestrator_execute_task pick pool_name task self clk
        = (Returned record, self', clk')
        /\ execution_history self' = execution_history self ++ [record]
        /\ record_pool record = pool_name
        /\ record_task record = task
        /\ record_result record = ran.1.1
        /\ record_duration record
           = total_seconds ((datetime_now ran.2).1 - (datetime_now clk).1)
        /\ record_timestamp record = (datetime_now (datetime_now ran.2).2).1
  end.
Proof.
  unfold SwarmOrchestrator_execute_task.
  destruct (SwarmOrchestrator_get_pool pool_name self) as [pool|]; [|done].
  cbv zeta. cbn [datetime_now fst snd].
  destruct (AgentPool_execute pick task pool _) as [[res pool'] clk1].
  cbn [fst snd]. eexists _, _, _. repeat split.
Qed.

(** The example of the specification, on an orchestrator with one pool. *)
Example execute_task_missing_pool :
  let orch := (SwarmOrchestrator_create_pool "research" SwarmOrchestrator_init).2 in
  SwarmOrchestrator_execute_task fifo "missing_pool" "t" orch sample_clock
  = (Raised (ValueError "Pool 'missing_pool' not found"), orch, sample_clock).
Proof. reflexivity. Qed.

Example execute_task_registered_pool :
  let orch := (SwarmOrchestrator_create_pool "research" SwarmOrchestrator_init).2 in
  let after := SwarmOrchestrator_execute_task fifo "research" "t" orch sample_clock in
  after.1.1
  = Returned {| record_pool := "research"; record_task := "t";
                record_result := Flat [];
                record_duration := total_seconds 1000;
                record_timestamp := 2000 |}
  /\ length (execution_history after.1.2) = 1.
Proof. split; reflexivity. Qed.

End OrchestratorFacts.

(** ** The memory store *)

Section MemoryFacts.
Import Graph.
Context {V : Type}.
Implicit Types (self : MemoryManager V) (clk : Clock).

(** After [if k not in d: d[k] = fresh], the lookup [d[k]] finds the old
    value or the fresh one: the default of [item] is never used. *)
Lemma get_ensure_eq {A} (k : string) (fresh : A) (d : PyDict.t A) :
  PyDict.get k (ensure k fresh d) = Some (default fresh (PyDict.get k d)).
Proof.
  unfold ensure, PyDict.mem.
  destruct (PyDict.get k d) as [a|] eqn:E; simpl; [done|].
  apply dict_get_set_eq.
Qed.

Lemma get_ensure_ne {A} (k k' : string) (fresh : A) (d : PyDict.t A) :
  k <> k' -> PyDict.get k' (ensure k fresh d) = PyDict.get k' d.
Proof.
  intros Hne. unfold ensure. destruct (PyDict.mem k d); [done|].
  by apply dict_get_set_ne.
Qed.

Lemma item_ensure {A} (k : string) (fresh unreachable : A) (d : PyDict.t A) :
  item k (ensure k fresh d) unreachable = default fresh (PyDict.get k d).
Proof. unfold item. by rewrite get_ensure_eq. Qed.

(** The bucket and the index of the category written by [store_long_term]. *)
Lemma store_long_term_bucket key (value : V) category self clk :
  PyDict.get category (long_term (store_long_term key value category self clk).1)
  = Some (PyDict.set key {| lt_value := value; lt_timestamp := (datetime_now clk).1 |}
            (default PyDict.empty (PyDict.get category (long_term self)))).
Proof.
  unfold store_long_term. simpl. by rewrite dict_get_set_eq, item_ensure.
Qed.

Lemma store_long_term_index key (value : V) category self clk :
  PyDict.get category (memory_index (store_long_term key value category self clk).1)
  = Some (default [] (PyDict.get category (memory_index self)) ++ [key]).
Proof.
  unfold store_long_term. simpl. by rewrite dict_get_set_eq, item_ensure.
Qed.

(** The other categories keep their bucket and their index. *)
Lemma store_long_term_other key (value : V) category category' self clk :
  category <> category' ->
  PyDict.get category' (long_term (store_long_term key value category self clk).1)
  = PyDict.get category' (long_term self)
  /\ PyDict.get category' (memory_index (store_long_term key value category self clk).1)
     = PyDict.get category' (memory_index self).
Proof.
  intros Hne. unfold store_long_term. simpl.
  by rewrite !dict_get_set_ne, !get_ensure_ne.
Qed.

Lemma store_long_term_short_term key (value : V) category self clk :
  short_term (store_long_term key value category self clk).1 = short_term self.
Proof. done. Qed.

Lemma store_short_term_long_term key (value : V) ttl self clk :
  long_term (store_short_term key value ttl self clk).1 = long_term self
  /\ memory_index (store_short_term key value ttl self clk).1 = memory_index self.
Proof. done. Qed.

Lemma index_covers_storage_init (mtype : string) :
  index_covers_storage (MemoryManager_init (V := V) mtype).
Proof. intros category bucket H. discriminate H. Qed.

Lemma store_long_term_preserves key (value : V) category self clk :
  index_covers_storage self ->
  index_covers_storage (store_long_term key value category self clk).1.
Proof.
  intros Hinv category' bucket' Hget.
  destruct (decide (category = category')) as [<-|Hne].
  - rewrite store_long_term_bucket in Hget. injection Hget as <-.
    rewrite store_long_term_index. eexists. split; [done|].
    intros k Hk. rewrite dict_keys_set in Hk.
    assert (k ∈ PyDict.keys (default PyDict.empty (PyDict.get category (long_term self)))
            \/ k = key) as [Hold | ->].
    { destruct (PyDict.mem key _); [by left|].
      apply elem_of_app in Hk as [?|Hk]; [by left|].
      apply list_elem_of_singleton in Hk. by right. }
    + apply elem_of_app. left.
      destruct (PyDict.get category (long_term self)) as [bucket|] eqn:Eb; simpl in Hold.
      * destruct (Hinv category bucket Eb) as (idx & -> & Hcov). simpl. by apply Hcov.
      * by apply elem_of_nil in Hold.
    + apply elem_of_app. right. by apply list_elem_of_singleton.
  - destruct (store_long_term_other key value category category' self clk Hne) as [H1 H2].
    rewrite H1 in Hget. rewrite H2. by apply Hinv.
Qed.

Lemma apply_op_preserves (op : MemoryOp V) (st : MemoryManager V * Clock) :
  index_covers_storage st.1 -> index_covers_storage (apply_op op st).1.
Proof.
  destruct st as [self clk]. destruct op; simpl; try done.
  apply store_long_term_preserves.
Qed.

Lemma run_ops_preserves (ops : list (MemoryOp V)) (st : MemoryManager V * Clock) :
  index_covers_storage st.1 -> index_covers_storage (run_ops ops st).1.
Proof.
  unfold run_ops. revert st.
  induction ops as [|op ops IH]; intros st Hinv; simpl; [done|].
  apply IH. by apply apply_op_preserves.
Qed.

(** C8. After every sequence of operations on a new store, every key of the
    long-term bucket of every category occurs in the index of that category.
    And a call of [store_long_term], on any store, leaves a bucket for the
    category that holds the key with the value, and an index for the category
    that is the index before (empty when there was none) followed by the key,
    whether or not the bucket held the key already. *)
Theorem index_covers_storage_always (ops : list (MemoryOp V)) (mtype : string)
  (clk : Clock) :
  index_covers_storage (run_ops ops (MemoryManager_init mtype, clk)).1
  /\ forall key (value : V) category self clk',
       (exists bucket,
           PyDict.get category (long_term (store_long_term key value category self clk').1)
           = Some bucket
           /\ lt_value <$> PyDict.get key bucket = Some value
           /\ key ∈ PyDict.keys bucket)
       /\ PyDict.get category (memory_index (store_long_term key value category self clk').1)
          = Some (default [] (PyDict.get category (memory_index self)) ++ [key]).
Proof.
  split.
  - apply run_ops_preserves. apply index_covers_storage_init.
  - intros key value category self clk'. split; [|apply store_long_term_index].
    rewrite store_long_term_bucket. eexists. split; [done|].
    rewrite dict_get_set_eq. split; [done|].
    apply dict_mem_true. unfold PyDict.mem. by rewrite dict_get_set_eq.
Qed.

End MemoryFacts.

Section MemoryExamples.
Import Graph.

(** Storing a key twice keeps one entry in the bucket and two in the index. *)
Example store_long_term_twice :
  let m := (run_ops [StoreLongTerm "k" 1%nat "general"; StoreLongTerm "k" 2%nat "general"]
                    (MemoryManager_init "chroma", sample_clock)).1 in
  PyDict.keys <$> PyDict.get "general" (long_term m) = Some ["k"]
  /\ PyDict.get "general" (memory_index m) = Some ["k"; "k"]
  /\ retrieve_long_term "k" "general" m = Some 2%nat.
Proof. repeat split. Qed.

(** The example of the specification for [search_memory]. *)
Example search_memory_tasks :
  let m := (run_ops [StoreLongTerm "task_001" "data1" "tasks";
                     StoreLongTerm "task_002" "data2" "tasks"]
                    (MemoryManager_init "chroma", sample_clock)).1 in
  length (search_memory ascii_lower "task" "tasks" m) = 2%nat
  /\ search_memory ascii_lower "task" "general" m = [].
Proof. split; reflexivity. Qed.

End MemoryExamples.

(** ** The evaluation engine *)

Section EvaluationFacts.
Import Graph.

(** Python's [min] of two numbers is the minimum. *)
Lemma py_min_Qmin (a b : Q) : py_min a b = Qmin a b.
Proof.
  unfold py_min, Qmin, GenericMinMax.gmin.
  rewrite <- (Qcompare_antisym a b).
  by destruct (a ?= b)%Q.
Qed.

Lemma criterion_score_formula (output : string) :
  criterion_score output
  = Qmin (inject_Z (Z.of_nat (String.length output)) / 1000) 1.
Proof. apply py_min_Qmin. Qed.

(** The score is between 0 and 1, and is 1 from 1000 characters on. *)
Lemma criterion_score_saturates (output : string) :
  (1000 <= String.length output)%nat -> (criterion_score output == 1)%Q.
Proof.
  intros Hlen. rewrite criterion_score_formula.
  apply Q.min_r. unfold Qle, Qdiv, Qmult, Qinv, inject_Z. simpl. lia.
Qed.

Lemma criterion_score_bounds (output : string) :
  (0 <= criterion_score output <= 1)%Q.
Proof.
  rewrite criterion_score_formula. split.
  - apply Q.min_glb; [|done].
    unfold Qle, Qdiv, Qmult, Qinv, inject_Z. simpl. lia.
  - apply Q.le_min_r.
Qed.

(** The loop gives every criterion the score of the output and adds that
    score to the total once for each criterion. *)
Lemma score_loop_spec (output : string) (items : list (string * string)) :
  forall scores total,
    score_loop output items scores total
    = (PyDict.update scores ((fun kd => (kd.1, criterion_score output)) <$> items),
       fold_left Qplus ((fun _ => criterion_score output) <$> items) total).
Proof.
  induction items as [|[k d] items IH]; intros scores total; simpl; [done|].
  by rewrite IH.
Qed.

(** C4. For every output and every criteria mapping (its names pairwise
    distinct), [evaluate_output] returns an evaluation; its scores have the
    names of the criteria as keys; every criterion has the score
    [min(len(output)/1000, 1)], which is [1] from 1000 characters on (so for
    2000 characters); when there is a criterion, the overall score is the sum
    of the scores of the criteria divided by their number; when there is
    none, the overall score is [0] and nothing is divided. *)
Theorem evaluate_output_scores (output : string) (criteria : PyDict.t string)
  (self : EvaluationEngine) (clk : Clock) :
  PyDict.wf criteria ->
  exists ev,
    (evaluate_output output criteria self clk).1.1 = Returned ev
    /\ PyDict.keys (criteria_scores ev) = PyDict.keys criteria
    /\ (forall c, c ∈ PyDict.keys criteria ->
          PyDict.get c (criteria_scores ev)
          = Some (Qmin (inject_Z (Z.of_nat (String.length output)) / 1000) 1))
    /\ ((1000 <= String.length output)%nat ->
        forall c s, PyDict.get c (criteria_scores ev) = Some s -> (s == 1)%Q)
    /\ (criteria <> [] ->
        overall_score ev
        = (py_sum (PyDict.values (criteria_scores ev))
           / inject_Z (Z.of_nat (length (criteria_scores ev))))%Q)
    /\ (criteria = [] -> overall_score ev = 0%Q).
Proof.
  intros Hwf. unfold evaluate_output. cbv zeta. cbn [datetime_now].
  destruct criteria as [|[k d] rest] eqn:Ecrit.
  { simpl. eexists. split; [done|]. repeat split; try done.
    intros c Hc. by apply elem_of_nil in Hc. }
  rewrite <- Ecrit in *. unfold PyDict.items. rewrite score_loop_spec.
  assert (PyDict.update PyDict.empty ((fun kd => (kd.1, criterion_score output)) <$> criteria)
          = (fun kd => (kd.1, criterion_score output)) <$> criteria) as Hscores.
  { apply dict_update_empty. rewrite <- list_fmap_compose.
    replace (map (fst ∘ (fun kd : string * string => (kd.1, criterion_score output))) criteria)
      with (PyDict.keys criteria) by done. exact Hwf. }
  rewrite Hscores.
  assert (length criteria = S (length rest)) as Hlen by by rewrite Ecrit.
  unfold truediv. rewrite Hlen. rewrite <- Hlen.
  eexists. split; [done|]. cbn [criteria_scores overall_score].
  split; [|split; [|split; [|split]]].
  - unfold PyDict.keys. by rewrite <- list_fmap_compose.
  - intros c Hc. rewrite <- criterion_score_formula.
    apply dict_elem_get.
    + unfold PyDict.wf, PyDict.keys. by rewrite <- list_fmap_compose.
    + apply list_elem_of_fmap in Hc as ([c' d'] & -> & Hin).
      apply list_elem_of_fmap. by exists (c', d').
  - intros Hlong c s Hs. apply dict_get_Some_elem in Hs.
    apply list_elem_of_fmap in Hs as (kd & [= _ ->] & _).
    by apply criterion_score_saturates.
  - intros _. rewrite length_fmap. unfold py_sum, PyDict.values.
    by rewrite <- list_fmap_compose.
  - intros Hnil. rewrite Hnil in Ecrit. discriminate Ecrit.
Qed.

(** The example of the specification: 2000 characters and one criterion. *)
Lemma evaluate_output_scores_witness :
  exists ev,
    (evaluate_output two_thousand_x [("a", "d")] EvaluationEngine_init sample_clock).1.1
    = Returned ev
    /\ PyDict.keys (criteria_scores ev) = PyDict.keys [("a", "d")]
    /\ (forall c, c ∈ PyDict.keys [("a", "d")] ->
          PyDict.get c (criteria_scores ev)
          = Some (Qmin (inject_Z (Z.of_nat (String.length two_thousand_x)) / 1000) 1))
    /\ ((1000 <= String.length two_thousand_x)%nat ->
        forall c s, PyDict.get c (criteria_scores ev) = Some s -> (s == 1)%Q)
    /\ ([("a", "d")] <> [] ->
        overall_score ev
        = (py_sum (PyDict.values (criteria_scores ev))
           / inject_Z (Z.of_nat (length (criteria_scores ev))))%Q)
    /\ ([("a", "d")] = [] -> overall_score ev = 0%Q).
Proof.
  apply (evaluate_output_scores two_thousand_x [("a", "d")] EvaluationEngine_init sample_clock).
  apply NoDup_ListNoDup. vm_compute. repeat constructor; simpl; intuition discriminate.
Defined.

Example evaluate_output_2000 :
  (fun ev => (criteria_scores ev, overall_score ev))
    <$> match (evaluate_output two_thousand_x [("a", "d")] EvaluationEngine_init
                               sample_clock).1.1 with
        | Returned ev => Some ev
        | Raised _ => None
        end
  = Some ([("a", 1%Q)], 1%Q).
Proof. vm_compute. reflexivity. Qed.

Example evaluate_output_no_criteria (output : string) :
  overall_score
    <$> match (evaluate_output output [] EvaluationEngine_init sample_clock).1.1 with
        | Returned ev => Some ev
        | Raised _ => None
        end
  = Some 0%Q.
Proof. reflexivity. Qed.

End EvaluationFacts.

(** ** The pipeline *)

Section PipelineFacts.
Import Graph.

(** The decimal text of a number determines it. *)
Lemma str_nat_inj (n m : nat) : str_nat n = str_nat m -> n = m.
Proof.
  unfold str_nat. intros H.
  assert (Some (Nat.to_uint n) = Some (Nat.to_uint m)) as H'.
  { by rewrite <- !NilEmpty.usu, H. }
  injection H' as H'.
  by rewrite <- (DecimalNat.Unsigned.of_to n), <- (DecimalNat.Unsigned.of_to m), H'.
Qed.

Lemma task_key_inj (n m : nat) : task_key n = task_key m -> n = m.
Proof. unfold task_key. simpl. intros [= H]. by apply str_nat_inj. Qed.

Lemma task_key_fresh (n : nat) : task_key n ∉ task_key <$> seq 0 n.
Proof.
  intros H. apply list_elem_of_fmap in H as (i & Heq & Hi).
  apply task_key_inj in Heq as <-. apply elem_of_seq in Hi. lia.
Qed.

(** The graph built by [_build_graph] has the five stages on one path. *)
Example build_graph_path :
  entry_point build_graph = Some "process_input"
  /\ PyDict.keys (nodes build_graph)
     = ["process_input"; "agent_execution"; "evaluation"; "memory_update";
        "aggregate_results"]
  /\ edges build_graph
     = [("process_input", "agent_execution"); ("agent_execution", "evaluation");
        ("evaluation", "memory_update"); ("memory_update", "aggregate_results");
        ("aggregate_results", END)].
Proof. repeat split. Qed.

(** A run, on any graph and clock: it returns, within the recursion limit;
    the final state and what was filed in the long-term memory. *)
Lemma run_spec (t : string) (g : SwarmGraph) (clk : Clock) :
  exists st g' clk' entry,
    run t g clk = (Returned st, g', clk')
    /\ task st = t
    /\ status st = "completed"
    /\ messages st
       = [HumanMessage t;
          AIMessage ("Task completed: " +:+ substring 0 50 t +:+ "...")]
    /\ long_term_memory st = long_term (memory g')
    /\ lt_value entry = RunValue t (agent_results st) (evaluation_results st)
    /\ PyDict.get "tasks" (long_term (memory g'))
       = Some (PyDict.set (next_task_key (memory g)) entry
                 (default PyDict.empty (PyDict.get "tasks" (long_term (memory g))))).
Proof.
  destruct g as [mem ev], clk as [rd n].
  unfold run, invoke.
  cbn -[store_long_term criterion_score next_task_key substring String.append
        Qplus Qdiv inject_Z Nat.ltb].
  match goal with
  | |- context [store_long_term ?k ?v ?c ?m ?ck] =>
      pose proof (store_long_term_bucket k v c m ck) as Hb;
      destruct (store_long_term k v c m ck) as [mem2 clk4]
  end.
  cbn [fst] in Hb.
  eexists _, _, _, _. split; [reflexivity|].
  cbn [task status messages long_term_memory memory agent_results evaluation_results].
  repeat split. 2: exact Hb. reflexivity.
Qed.


(** The keys of the category [tasks] after a run. *)
Lemma run_task_keys (t : string) (g : SwarmGraph) (clk : Clock) :
  task_keys g = task_key <$> seq 0 (length (task_keys g)) ->
  task_keys (run t g clk).1.2 = task_keys g ++ [task_key (length (task_keys g))].
Proof.
  intros Hcanon.
  destruct (run_spec t g clk) as (st & g' & clk' & entry & Hrun & _ & _ & _ & _ & _ & Hget).
  rewrite Hrun. cbn [fst snd]. unfold task_keys at 1. rewrite Hget. cbn [default].
  unfold next_task_key.
  replace (length (default PyDict.empty (PyDict.get "tasks" (long_term (memory g)))))
    with (length (task_keys g)) by (unfold task_keys, PyDict.keys; by rewrite length_map).
  rewrite dict_set_absent.
  - unfold PyDict.keys, id. by rewrite map_app.
  - fold (task_keys g). rewrite Hcanon at 2. apply task_key_fresh.
Qed.

(** On a graph that only ran tasks, the keys of the category are
    [task_0], [task_1], ... in the order of the runs. *)
Lemma Reachable_task_keys (g : SwarmGraph) :
  Reachable g -> task_keys g = task_key <$> seq 0 (length (task_keys g)).
Proof.
  induction 1 as [|g t clk Hg IH]; [done|].
  rewrite (run_task_keys t g clk IH).
  rewrite length_app, Nat.add_1_r, seq_S, fmap_app. simpl. by rewrite <- IH.
Qed.

(** C7. For every task, a run on a new graph, or on one that has run tasks
    before, returns a final state (it ends within the recursion limit of the
    graph) whose status is ["completed"] and whose messages are exactly two,
    the input turn then the completion turn; the run files exactly one new
    key in the long-term category [tasks] of the memory store, which the
    final state shows in its snapshot. *)
Theorem run_completes (t : string) (g : SwarmGraph) (clk : Clock) :
  Reachable g ->
  exists st g' clk',
    run t g clk = (Returned st, g', clk')
    /\ status st = "completed"
    /\ messages st
       = [HumanMessage t;
          AIMessage ("Task completed: " +:+ substring 0 50 t +:+ "...")]
    /\ length (messages st) = 2%nat
    /\ exists key,
         (key ∉ task_keys g)
         /\ task_keys g' = task_keys g ++ [key]
         /\ PyDict.keys <$> PyDict.get "tasks" (long_term_memory st)
            = Some (task_keys g ++ [key]).
Proof.
  intros Hreach. pose proof (Reachable_task_keys g Hreach) as Hcanon.
  pose proof (run_task_keys t g clk Hcanon) as Hkeys.
  destruct (run_spec t g clk)
    as (st & g' & clk' & entry & Hrun & _ & Hstatus & Hmsgs & Hsnap & _ & Hget).
  rewrite Hrun in Hkeys. cbn [fst snd] in Hkeys.
  exists st, g', clk'. split; [done|]. split; [done|]. split; [done|].
  split; [by rewrite Hmsgs|].
  exists (task_key (length (task_keys g))). split; [|split; [done|]].
  - rewrite Hcanon at 2. apply task_key_fresh.
  - rewrite Hsnap, <- Hkeys. unfold task_keys. by rewrite Hget.
Qed.

Lemma run_completes_witness :
  exists st g' clk',
    run "demo task" SwarmGraph_init sample_clock = (Returned st, g', clk')
    /\ status st = "completed"
    /\ messages st
       = [HumanMessage "demo task";
          AIMessage ("Task completed: " +:+ substring 0 50 "demo task" +:+ "...")]
    /\ length (messages st) = 2%nat
    /\ exists key,
         (key ∉ task_keys SwarmGraph_init)
         /\ task_keys g' = task_keys SwarmGraph_init ++ [key]
         /\ PyDict.keys <$> PyDict.get "tasks" (long_term_memory st)
            = Some (task_keys SwarmGraph_init ++ [key]).
Proof.
  apply (run_completes "demo task" SwarmGraph_init sample_clock).
  apply Reachable_init.
Defined.

(** The example of the specification, and a second run on the same graph. *)
Example run_demo_task :
  let '(res, g', _) := run "demo task" SwarmGraph_init sample_clock in
  (fun st => (status st, messages st)) <$> (match res with Returned st => Some st | Raised _ => None end)
  = Some ("completed",
          [HumanMessage "demo task"; AIMessage "Task completed: demo task..."])
  /\ task_keys g' = ["task_0"]
  /\ task_keys (run "again" g' sample_clock).1.2 = ["task_0"; "task_1"].
Proof. vm_compute. repeat split. Qed.

End PipelineFacts.


(** * Further facts *)

(** ** Agents and pools: memory, statistics, membership *)

Section MoreDictFacts.
Import PyDict.
Context {V : Type}.
Implicit Types (d : t V) (k : string) (v : V).

Lemma dict_length_set k v d :
  length (set k v d) = if mem k d then length d else S (length d).
Proof.
  destruct (mem k d) eqn:E.
  - apply dict_mem_true in E. revert E.
    induction d as [|[k' v'] d IH]; simpl; intros E.
    + by apply elem_of_nil in E.
    + destruct (String.eqb_spec k k') as [->|Hne]; [done|]. simpl. f_equal.
      apply IH. apply elem_of_cons in E as [?|?]; [congruence|done].
  - apply dict_mem_false in E. rewrite dict_set_absent by done.
    rewrite length_app. simpl. lia.
Qed.

Lemma dict_get_del_eq k d : wf d -> get k (del k d) = None.
Proof.
  unfold wf. induction d as [|[k' v'] d IH]; simpl; [done|].
  intros Hnd. apply NoDup_cons in Hnd as [Hk' Hnd].
  destruct (String.eqb_spec k k') as [->|Hne].
  - by apply dict_get_None.
  - simpl. destruct (String.eqb_spec k k'); [done|]. by apply IH.
Qed.

Lemma dict_get_del_ne k k' d : k <> k' -> get k' (del k d) = get k' d.
Proof.
  intros Hne. induction d as [|[k0 v0] d IH]; simpl; [done|].
  destruct (String.eqb_spec k k0) as [->|Hne0]; simpl.
  - by destruct (String.eqb_spec k' k0) as [->|_].
  - by rewrite IH.
Qed.

Lemma dict_length_del k d :
  length (del k d) = if mem k d then Nat.pred (length d) else length d.
Proof.
  unfold mem. induction d as [|[k0 v0] d IH]; simpl; [done|].
  destruct (String.eqb_spec k k0) as [->|Hne0]; simpl; [done|].
  rewrite IH. destruct (get k d) eqn:E; [|done].
  destruct d; [discriminate E | done].
Qed.

End MoreDictFacts.

Section MoreAgentFacts.
Import Agents.

(** X1. The private memory of an agent: a value stored under a key is what
    [retrieve_memory] returns for that key afterwards (the last store wins);
    every other key keeps its answer; a key that was never stored gives
    [None]; storing under a present key adds no key. *)
Theorem Agent_memory_round_trip {V} (key : string) (value : V)
  (memory : PyDict.t (MemoryCell V)) (clk : Clock) :
  let memory' := (Agent_store_memory key value memory clk).1 in
  Agent_retrieve_memory key memory' = Some value
  /\ (forall k, k <> key ->
        Agent_retrieve_memory k memory' = Agent_retrieve_memory k memory)
  /\ (forall k, k ∉ PyDict.keys memory -> Agent_retrieve_memory k memory = None)
  /\ length memory'
     = if PyDict.mem key memory then length memory else S (length memory).
Proof.
  unfold Agent_store_memory, Agent_retrieve_memory. simpl.
  split; [by rewrite dict_get_set_eq|]. split; [|split].
  - intros k Hk. by rewrite dict_get_set_ne.
  - intros k Hk. apply dict_get_None in Hk. by rewrite Hk.
  - apply dict_length_set.
Qed.

(** The status that every call of an agent logs: it depends on the role. *)
Lemma processed_role (cfg : AgentConfig) (task : string) :
  match role cfg with
  | Member _ => exists r, processed cfg task = Returned r
  | PlainStr _ => exists e, processed cfg task = Raised e
  end.
Proof. unfold processed. destruct (role cfg); simpl; eauto. Qed.

Lemma Agent_execute_log (self : Agent) (task : string) (clk : Clock) :
  exists entry,
    execution_log (Agent_execute self task clk).1.2 = execution_log self ++ [entry]
    /\ log_task entry = task
    /\ log_status entry
       = match role (config self) with Member _ => "completed" | PlainStr _ => "failed" end.
Proof.
  unfold Agent_execute, processed. simpl.
  destruct (role (config self)); simpl; eexists; repeat split.
Qed.

Lemma Agent_execute_all_log (tasks : list string) :
  forall (self : Agent) (clk : Clock),
    config (Agent_execute_all tasks self clk).1 = config self
    /\ exists entries,
         execution_log (Agent_execute_all tasks self clk).1
         = execution_log self ++ entries
         /\ log_task <$> entries = tasks
         /\ Forall (fun entry =>
                      log_status entry
                      = match role (config self) with
                        | Member _ => "completed"
                        | PlainStr _ => "failed"
                        end) entries.
Proof.
  induction tasks as [|t tasks IH]; intros self clk; simpl.
  - split; [done|]. exists []. by rewrite app_nil_r.
  - pose proof (Agent_execute_config self t clk) as Hcfg.
    destruct (Agent_execute_log self t clk) as (entry & Hlog & Htask & Hstatus).
    destruct (Agent_execute self t clk) as [[out self'] clk']. simpl in *.
    destruct (IH self' clk') as (Hcfg' & entries & Hlog' & Htasks & Hall).
    split; [congruence|]. exists (entry :: entries).
    rewrite Hlog', Hlog, <- app_assoc. split; [done|]. split.
    + rewrite fmap_cons. by rewrite Htask, Htasks.
    + constructor; [done|]. by rewrite <- Hcfg.
Qed.

Lemma filter_status_all (s s' : string) (entries : list LogEntry) :
  Forall (fun entry => log_status entry = s) entries ->
  length (List.filter (fun log => String.eqb (log_status log) s') entries)
  = if String.eqb s s' then length entries else 0%nat.
Proof.
  induction 1 as [|e l He Hl IH]; simpl.
  - by destruct (String.eqb s s').
  - rewrite He. destruct (String.eqb s s'); simpl; by rewrite IH.
Qed.

(** X2. A new agent that was called on [n] tasks reports [n] executions,
    under its own name; all of them successful when its role is a member of
    the enum, all of them failed otherwise; and its log holds the tasks in
    the order of the calls. *)
Theorem Agent_stats_after_calls (cfg : AgentConfig) (tasks : list string)
  (clk : Clock) :
  let self := (Agent_execute_all tasks (Agent_init cfg) clk).1 in
  log_task <$> execution_log self = tasks
  /\ exists st,
       Agent_get_execution_stats self = Returned st
       /\ agent_name st = name cfg
       /\ total_executions st = length tasks
       /\ (successful st + failed st = length tasks)%nat
       /\ match role cfg with
          | Member _ => successful st = length tasks
          | PlainStr _ => failed st = length tasks
          end.
Proof.
  destruct (Agent_execute_all_log tasks (Agent_init cfg) clk)
    as (Hcfg & entries & Hlog & Htasks & Hall).
  simpl in Hlog, Hcfg, Hall. cbv zeta. split; [by rewrite Hlog|].
  assert (length entries = length tasks) as Hlen by by rewrite <- Htasks, length_fmap.
  unfold Agent_get_execution_stats. rewrite Hlog, Hcfg.
  rewrite !(filter_status_all _ _ _ Hall).
  destruct entries as [|e entries'].
  - simpl in *. eexists. split; [done|]. simpl. rewrite <- Hlen.
    by destruct (role cfg).
  - unfold truediv. cbn [length]. eexists. split; [done|].
    cbn [agent_name total_executions successful failed].
    cbn [length] in Hlen. rewrite Hlen.
    destruct (role cfg); simpl; repeat split; lia.
Qed.

(** [get_execution_stats] returns, with the counts of the log. *)
Lemma Agent_get_execution_stats_counts (self : Agent) :
  exists st,
    Agent_get_execution_stats self = Returned st
    /\ agent_name st = name (config self)
    /\ total_executions st = length (execution_log self)
    /\ successful st
       = length (List.filter (fun log => String.eqb (log_status log) "completed")
                             (execution_log self))
    /\ failed st
       = length (List.filter (fun log => String.eqb (log_status log) "failed")
                             (execution_log self)).
Proof.
  unfold Agent_get_execution_stats.
  destruct (execution_log self) as [|e l]; [by eexists|].
  unfold truediv. cbn [length]. by eexists.
Qed.

(** X3. For every agent, whatever its log holds, [get_execution_stats]
    returns: the division is guarded and never made by zero.  It reports the
    agent's name and the length of the log; the entries it counts as
    successful or failed are entries of the log, and they are all of them
    when every status is ["completed"] or ["failed"], the two that [execute]
    writes.  One more call of [execute] adds one to the executions, and one
    to the successful when the role is a member of the enum, to the failed
    otherwise. *)
Theorem Agent_stats_counts (self : Agent) :
  exists st,
    Agent_get_execution_stats self = Returned st
    /\ agent_name st = name (config self)
    /\ total_executions st = length (execution_log self)
    /\ (successful st + failed st <= total_executions st)%nat
    /\ (Forall (fun entry => log_status entry = "completed"
                             \/ log_status entry = "failed") (execution_log self) ->
        (successful st + failed st = total_executions st)%nat)
    /\ forall task clk,
         exists st',
           Agent_get_execution_stats (Agent_execute self task clk).1.2 = Returned st'
           /\ agent_name st' = agent_name st
           /\ total_executions st' = S (total_executions st)
           /\ (successful st', failed st')
              = match role (config self) with
                | Member _ => (S (successful st), failed st)
                | PlainStr _ => (successful st, S (failed st))
                end.
Proof.
  destruct (Agent_get_execution_stats_counts self) as (st & Hst & Hname & Htot & Hs & Hf).
  exists st. split; [done|]. split; [done|]. split; [done|].
  rewrite Hs, Hf, Htot. split; [|split].
  - generalize (execution_log self). induction l as [|e l IH]; simpl; [lia|].
    destruct (String.eqb (log_status e) "completed") eqn:E1,
             (String.eqb (log_status e) "failed") eqn:E2; simpl; try lia.
    apply String.eqb_eq in E1, E2. congruence.
  - generalize (execution_log self). induction 1 as [|e l He Hl IH]; simpl; [done|].
    destruct He as [-> | ->]; simpl; lia.
  - intros task clk.
    destruct (Agent_get_execution_stats_counts (Agent_execute self task clk).1.2)
      as (st' & Hst' & Hname' & Htot' & Hs' & Hf').
    exists st'. split; [done|].
    destruct (Agent_execute_log self task clk) as (entry & Hlog & _ & Hstatus).
    rewrite Hname', Hname, Agent_execute_config. split; [done|].
    rewrite Htot', Hs', Hf', Hlog, !List.filter_app, !length_app.
    cbn [List.filter length]. rewrite Hstatus.
    split; [lia|]. destruct (role (config self)); simpl; f_equal; lia.
Qed.

(** X4. [add_agent] puts a new agent, idle and with an empty log, under the
    name of the config, and returns it; every other name keeps its agent; a
    name that was present keeps its place and the pool its size (the agent
    that was there is replaced), a new name is added at the end. *)
Theorem AgentPool_add_agent_lookup (cfg : AgentConfig) (self : AgentPool) :
  let '(agent, self') := AgentPool_add_agent cfg self in
  agent = Agent_init cfg
  /\ PyDict.get (name cfg) (agents self') = Some (Agent_init cfg)
  /\ (forall n, n <> name cfg ->
        PyDict.get n (agents self') = PyDict.get n (agents self))
  /\ PyDict.keys (agents self')
     = (if PyDict.mem (name cfg) (agents self)
        then PyDict.keys (agents self)
        else PyDict.keys (agents self) ++ [name cfg])
  /\ execution_mode self' = execution_mode self.
Proof.
  simpl. split; [done|]. split; [apply dict_get_set_eq|]. split; [|split; [|done]].
  - intros n Hn. by apply dict_get_set_ne.
  - apply dict_keys_set.
Qed.

(** X5. [remove_agent] on a pool with pairwise distinct names: the name is
    not an agent of the pool afterwards, every other name keeps its agent,
    and removing a name that is not in the pool changes nothing. *)
Theorem AgentPool_remove_agent_lookup (agent_name : string) (self : AgentPool) :
  PyDict.wf (agents self) ->
  let self' := AgentPool_remove_agent agent_name self in
  PyDict.get agent_name (agents self') = None
  /\ (forall n, n <> agent_name ->
        PyDict.get n (agents self') = PyDict.get n (agents self))
  /\ (agent_name ∉ PyDict.keys (agents self) -> self' = self)
  /\ length (agents self')
     = (if PyDict.mem agent_name (agents self)
        then Nat.pred (length (agents self))
        else length (agents self))
  /\ execution_mode self' = execution_mode self.
Proof.
  intros Hwf. unfold AgentPool_remove_agent.
  destruct (PyDict.mem agent_name (agents self)) eqn:E; simpl.
  - split; [by apply dict_get_del_eq|]. split; [|split; [|split; [|done]]].
    + intros n Hn. by apply dict_get_del_ne.
    + intros Habs. apply dict_mem_false in Habs. congruence.
    + by rewrite dict_length_del, E.
  - split; [|done]. apply dict_get_None. by apply dict_mem_false.
Qed.

Lemma AgentPool_remove_agent_lookup_witness :
  let self' := AgentPool_remove_agent "B" pool_ABC in
  PyDict.get "B" (agents self') = None
  /\ (forall n, n <> "B" ->
        PyDict.get n (agents self') = PyDict.get n (agents pool_ABC))
  /\ ("B" ∉ PyDict.keys (agents pool_ABC) -> self' = pool_ABC)
  /\ length (agents self')
     = (if PyDict.mem "B" (agents pool_ABC)
        then Nat.pred (length (agents pool_ABC))
        else length (agents pool_ABC))
  /\ execution_mode self' = execution_mode pool_ABC.
Proof.
  apply (AgentPool_remove_agent_lookup "B" pool_ABC).
  apply NoDup_ListNoDup. vm_compute. repeat constructor; simpl; intuition discriminate.
Defined.

End MoreAgentFacts.

(** ** Every agent is called once *)

Section CallsFacts.
Import Agents.

(** What one call leaves of an agent. *)
Lemma called_once_effect (task : string) (before after : Agent) :
  called_once task before after ->
  config after = config before
  /\ exists entry,
       execution_log after = execution_log before ++ [entry]
       /\ log_task entry = task
       /\ (log_status entry, state after)
          = match role (config before) with
            | Member _ => ("completed", "idle")
            | PlainStr _ => ("failed", "error")
            end.
Proof.
  intros [clk ->]. split; [apply Agent_execute_config|].
  unfold Agent_execute, processed. simpl.
  destruct (role (config before)); simpl; eexists; repeat split.
Qed.

Lemma sequential_loop_calls (task : string) (items : list (string * Agent)) :
  forall results clk,
    Forall2 (fun na na' => na.1 = na'.1 /\ called_once task na.2 na'.2)
            items (sequential_loop task items results clk).1.2.
Proof.
  induction items as [|[n a] items IH]; intros results clk; simpl; [constructor|].
  assert (called_once task a (Agent_execute a task clk).1.2) as Hc by by exists clk.
  destruct (Agent_execute a task clk) as [[r a'] clk']. simpl in Hc.
  specialize (IH (PyDict.set n (slot r) results) clk').
  destruct (sequential_loop task items (PyDict.set n (slot r) results) clk')
    as [[res items'] clk'']. simpl in *.
  constructor; [done|done].
Qed.

(** The event loop calls every agent of the queue once, whatever the order:
    an agent whose task is still in the queue is as [gather] received it, an
    agent whose task has left the queue was called once. *)
Lemma event_loop_calls pick task (ags0 : list Agent) fuel :
  forall ready ags done clk,
    length ready <= fuel ->
    NoDup ready ->
    length ags = length ags0 ->
    (forall i a0, ags0 !! i = Some a0 ->
       ((i ∈ ready) /\ ags !! i = Some a0)
       \/ ((i ∉ ready) /\ exists a, ags !! i = Some a /\ called_once task a0 a)) ->
    Forall2 (called_once task) ags0 (event_loop pick task fuel ready (ags, done, clk)).1.1.
Proof.
  induction fuel as [|fuel IH]; intros ready ags done clk Hlen Hnd Hlens Hinv.
  - destruct ready; [|simpl in Hlen; lia]. simpl.
    apply Forall2_same_length_lookup. split; [done|].
    intros i a0 a Ha0 Ha.
    destruct (Hinv i a0 Ha0) as [[Hin _]|[_ (a' & Ha' & Hc)]].
    + by apply elem_of_nil in Hin.
    + congruence.
  - cbn [event_loop]. destruct ready as [|i0 rest] eqn:Eready.
    { simpl. apply Forall2_same_length_lookup. split; [done|].
      intros i a0 a Ha0 Ha.
      destruct (Hinv i a0 Ha0) as [[Hin _]|[_ (a' & Ha' & Hc)]].
      + by apply elem_of_nil in Hin.
      + congruence. }
    rewrite <- Eready in *.
    set (k := (pick ready mod length ready)%nat).
    assert (k < length ready) as Hk.
    { apply Nat.mod_upper_bound. rewrite Eready. simpl. lia. }
    destruct (lookup_lt_is_Some_2 _ _ Hk) as [i Hi]. rewrite Hi.
    pose proof (delete_Permutation _ _ _ Hi) as Hperm.
    assert (NoDup (i :: delete k ready)) as Hnd' by by rewrite <- Hperm.
    apply NoDup_cons in Hnd' as [Hi_out Hnd'].
    assert (i ∈ ready) as Hi_in by (rewrite Hperm; left).
    unfold run_task at 1.
    destruct (ags !! i) as [a|] eqn:Ha.
    + destruct (lookup_lt_is_Some_2 ags0 i) as [a0 Ha0].
      { rewrite <- Hlens. by apply lookup_lt_Some in Ha. }
      assert (a = a0) as ->.
      { destruct (Hinv i a0 Ha0) as [[_ H]|[H _]]; [congruence|done]. }
      assert (called_once task a0 (Agent_execute a0 task clk).1.2) as Hc by by exists clk.
      destruct (Agent_execute a0 task clk) as [[r a'] clk']. simpl in Hc.
      apply IH.
      * rewrite length_delete by eauto. lia.
      * done.
      * by rewrite length_insert.
      * intros j b0 Hb0. destruct (decide (j = i)) as [->|Hne].
        -- right. split; [done|]. exists a'. split; [|congruence].
           apply list_lookup_insert_eq. by apply lookup_lt_Some in Ha.
        -- rewrite list_lookup_insert_ne by done.
           destruct (Hinv j b0 Hb0) as [[Hin H]|[Hout H]].
           ++ left. split; [|done]. rewrite Hperm in Hin.
              apply elem_of_cons in Hin as [?|?]; [done|done].
           ++ right. split; [|done]. intros Hin. apply Hout. rewrite Hperm. by right.
    + apply lookup_ge_None in Ha. apply IH.
      * rewrite length_delete by eauto. lia.
      * done.
      * done.
      * intros j b0 Hb0.
        assert (j <> i) as Hne.
        { intros ->. apply lookup_lt_Some in Hb0. lia. }
        destruct (Hinv j b0 Hb0) as [[Hin H]|[Hout H]].
        -- left. split; [|done]. rewrite Hperm in Hin.
           apply elem_of_cons in Hin as [?|?]; [done|done].
        -- right. split; [|done]. intros Hin. apply Hout. rewrite Hperm. by right.
Qed.

Lemma gather_calls pick task (ags : list Agent) clk :
  Forall2 (called_once task) ags (gather pick task ags clk).1.2.
Proof.
  unfold gather.
  pose proof (event_loop_calls pick task ags (length ags) (seq 0 (length ags)) ags [] clk) as H.
  destruct (event_loop pick task (length ags) (seq 0 (length ags)) (ags, [], clk))
    as [[ags' done'] clk']. simpl in *. apply H.
  - by rewrite length_seq.
  - apply NoDup_seq.
  - done.
  - intros i a0 Ha0. left. split; [|done].
    apply elem_of_seq. apply lookup_lt_Some in Ha0. lia.
Qed.

Lemma Forall2_zip_keys {A} (R : A -> A -> Prop) (d : PyDict.t A) (vs : list A) :
  Forall2 R (PyDict.values d) vs ->
  Forall2 (fun kv kv' => kv.1 = kv'.1 /\ R kv.2 kv'.2) d (zip (PyDict.keys d) vs).
Proof.
  revert vs. induction d as [|[k v] d IH]; intros vs H; simpl in *.
  - apply Forall2_nil_inv_l in H as ->. constructor.
  - apply Forall2_cons_inv_l in H as (v' & vs' & Hv & Hvs & ->). simpl.
    constructor; [done|]. by apply IH.
Qed.

Lemma execute_sequential_calls task (self : AgentPool) clk :
  Forall2 (fun na na' => na.1 = na'.1 /\ called_once task na.2 na'.2)
          (agents self) (agents (AgentPool_execute_sequential task self clk).1.2).
Proof.
  unfold AgentPool_execute_sequential.
  pose proof (sequential_loop_calls task (PyDict.items (agents self)) PyDict.empty clk) as H.
  destruct (sequential_loop task (PyDict.items (agents self)) PyDict.empty clk)
    as [[res items] clk']. exact H.
Qed.

Lemma execute_parallel_calls pick task (self : AgentPool) clk :
  Forall2 (fun na na' => na.1 = na'.1 /\ called_once task na.2 na'.2)
          (agents self) (agents (AgentPool_execute_parallel pick task self clk).1.2).
Proof.
  unfold AgentPool_execute_parallel.
  destruct (PyDict.values (agents self)) as [|a0 rest] eqn:Ev.
  - destruct (agents self) eqn:E; [|discriminate]. simpl. rewrite E. constructor.
  - rewrite <- Ev.
    pose proof (gather_calls pick task (PyDict.values (agents self)) clk) as H.
    destruct (gather pick task (PyDict.values (agents self)) clk) as [[responses ags] clk'].
    simpl in *. by apply Forall2_zip_keys.
Qed.

(** X6. In sequential mode, and in parallel mode under every scheduler,
    every agent of the pool is called exactly once on the task: the pool
    afterwards has the same names in the same order, every agent keeps its
    config, and the log of every agent is its log before followed by one
    entry for the task, ["completed"] with state ["idle"] for a role of the
    enum and ["failed"] with state ["error"] otherwise. *)
Theorem AgentPool_execute_calls_each_agent_once (pick : Scheduler) (task : string)
  (self : AgentPool) (clk : Clock) :
  let once (na na' : string * Agent) :=
    na.1 = na'.1
    /\ config na'.2 = config na.2
    /\ exists entry,
         execution_log na'.2 = execution_log na.2 ++ [entry]
         /\ log_task entry = task
         /\ (log_status entry, state na'.2)
            = match role (config na.2) with
              | Member _ => ("completed", "idle")
              | PlainStr _ => ("failed", "error")
              end in
  Forall2 once (agents self) (agents (AgentPool_execute_sequential task self clk).1.2)
  /\ Forall2 once (agents self) (agents (AgentPool_execute_parallel pick task self clk).1.2).
Proof.
  intros once. split.
  - eapply Forall2_impl; [apply execute_sequential_calls|].
    intros na na' [Hn Hc]. destruct (called_once_effect _ _ _ Hc) as [? ?]. by split.
  - eapply Forall2_impl; [apply execute_parallel_calls|].
    intros na na' [Hn Hc]. destruct (called_once_effect _ _ _ Hc) as [? ?]. by split.
Qed.

(** Writing back into a dictionary the values of the keys selected by [P]. *)
Lemma update_cons_other {A} (k : string) (x : A) (rest : PyDict.t A)
  (pairs : list (string * A)) :
  k ∉ pairs.*1 ->
  PyDict.update ((k, x) :: rest) pairs = (k, x) :: PyDict.update rest pairs.
Proof.
  unfold PyDict.update. revert rest.
  induction pairs as [|[k' v'] pairs IH]; intros rest Hk; simpl; [done|].
  simpl in Hk. apply not_elem_of_cons in Hk as [Hne Hk].
  destruct (String.eqb_spec k' k) as [->|_]; [done|]. by apply IH.
Qed.

Lemma update_filtered {A} (P : string -> bool) (R : A -> A -> Prop)
  (d : PyDict.t A) :
  PyDict.wf d ->
  forall vs,
    Forall2 R (PyDict.values (List.filter (fun kv => P kv.1) d)) vs ->
    Forall2 (fun kv kv' => kv.1 = kv'.1
                           /\ if P kv.1 then R kv.2 kv'.2 else kv.2 = kv'.2)
            d (PyDict.update d (zip (PyDict.keys (List.filter (fun kv => P kv.1) d)) vs)).
Proof.
  unfold PyDict.wf. induction d as [|[k v] d IH]; intros Hnd vs Hvs.
  - simpl in *. apply Forall2_nil_inv_l in Hvs as ->. constructor.
  - apply NoDup_cons in Hnd as [Hk Hnd].
    assert (forall ws : list A,
              k ∉ (zip (PyDict.keys (List.filter (fun kv => P kv.1) d)) ws).*1) as Hfresh.
    { intros ws Hin. apply Hk.
      apply list_elem_of_fmap in Hin as ([k' w] & -> & Hin).
      apply elem_of_zip_l in Hin. simpl in *.
      apply list_elem_of_fmap in Hin as ([k'' v''] & -> & Hin).
      apply list_elem_of_In, filter_In in Hin as [Hin _].
      apply list_elem_of_fmap. exists (k'', v''). split; [done|]. by apply list_elem_of_In. }
    revert Hvs. cbn [List.filter fst]. destruct (P k) eqn:EP; intros Hvs.
    + cbn [PyDict.values map snd] in Hvs.
      apply Forall2_cons_inv_l in Hvs as (v' & vs' & Hv & Hvs & ->).
      cbn [PyDict.keys map fst zip zip_with]. unfold PyDict.update at 1. cbn [fold_left fst snd PyDict.set].
      rewrite String.eqb_refl.
      pose proof (update_cons_other k v' d _ (Hfresh vs')) as Heq.
      unfold PyDict.update, PyDict.keys in Heq. rewrite Heq.
      constructor; [simpl; by rewrite EP|]. by apply IH.
    + rewrite update_cons_other by apply Hfresh.
      constructor; [simpl; by rewrite EP|]. by apply IH.
Qed.

Lemma set_present_Forall2 {A} (c : string) (a' : A) (d : PyDict.t A) :
  PyDict.wf d ->
  Forall2 (fun kv kv' => kv.1 = kv'.1
                         /\ if String.eqb kv.1 c then kv'.2 = a' else kv.2 = kv'.2)
          d (PyDict.set c a' d)
  \/ c ∉ PyDict.keys d.
Proof.
  unfold PyDict.wf. induction d as [|[k v] d IH]; intros Hnd.
  - right. apply not_elem_of_nil.
  - apply NoDup_cons in Hnd as [Hk Hnd]. simpl.
    destruct (String.eqb_spec c k) as [->|Hne].
    + left. constructor; [simpl; by rewrite String.eqb_refl|].
      apply Forall2_same_length_lookup. split; [done|].
      intros i [k1 v1] [k2 v2] H1 H2. rewrite H1 in H2. injection H2 as <- <-.
      split; [done|]. simpl. destruct (String.eqb_spec k1 k) as [->|_]; [|done].
      exfalso. apply Hk. apply list_elem_of_fmap. exists (k, v1). split; [done|].
      by apply list_elem_of_lookup_2 in H1.
    + destruct (IH Hnd) as [H|H].
      * left. constructor; [|done]. simpl. by destruct (String.eqb_spec k c) as [->|_].
      * right. unfold PyDict.keys. simpl. apply not_elem_of_cons. by split.
Qed.

End CallsFacts.

(** ** Hierarchical execution: who is called on what *)

Section MoreHierarchicalFacts.
Import Agents.

(** The worker phase, on the agents [ags1] that the coordinator phase left. *)
Lemma worker_phase_calls pick task (cn : option string) (ags1 : PyDict.t Agent) clk :
  PyDict.wf ags1 ->
  let ws := List.filter (fun na => differs na.1 cn) ags1 in
  Forall2 (fun na na' => na.1 = na'.1
                         /\ if differs na.1 cn then called_once task na.2 na'.2
                            else na.2 = na'.2)
          ags1
          (PyDict.update ags1
             (zip (PyDict.keys ws) (gather pick task (PyDict.values ws) clk).1.2)).
Proof.
  intros Hwf ws.
  apply (update_filtered (fun n => differs n cn) (called_once task) ags1 Hwf).
  apply gather_calls.
Qed.

(** X7. Hierarchical execution with a coordinator name that is not empty,
    on a pool with pairwise distinct names, under every scheduler: every
    agent of the pool is called exactly once, the coordinator on the task
    prefixed with ["Coordinate: "] and every other agent on the task itself;
    the names and their order stay. *)
Theorem AgentPool_execute_hierarchical_calls (pick : Scheduler) (task c : string)
  (self : AgentPool) (clk : Clock) :
  PyDict.wf (agents self) ->
  c <> "" ->
  Forall2 (fun na na' =>
             na.1 = na'.1
             /\ called_once (if String.eqb na.1 c then "Coordinate: " +:+ task else task)
                            na.2 na'.2)
          (agents self)
          (agents (AgentPool_execute_hierarchical pick task (Some c) self clk).1.2).
Proof.
  intros Hwf Hc. unfold AgentPool_execute_hierarchical, PyDict.items.
  cbv zeta. rewrite !(truthy_Some c Hc). cbn [negb]. rewrite !(truthy_Some c Hc).
  destruct (PyDict.get c (agents self)) as [a|] eqn:Hget.
  - assert (called_once ("Coordinate: " +:+ task) a
              (Agent_execute a ("Coordinate: " +:+ task) clk).1.2) as Hcoord
      by by eexists.
    destruct (Agent_execute a ("Coordinate: " +:+ task) clk) as [[out a'] clk'].
    simpl in Hcoord. cbn [agents with_agents].
    assert (PyDict.wf (PyDict.set c a' (agents self))) as Hwf1 by by apply dict_wf_set.
    pose proof (worker_phase_calls pick task (Some c) _ clk' Hwf1) as Hw.
    cbv zeta in Hw.
    destruct (set_present_Forall2 c a' (agents self) Hwf) as [Hset|Habs];
      [|by apply dict_get_None in Habs; congruence].
    assert (Forall2 (fun na na' =>
              na.1 = na'.1
              /\ called_once (if String.eqb na.1 c then "Coordinate: " +:+ task else task)
                             na.2 na'.2)
              (agents self)
              (PyDict.update (PyDict.set c a' (agents self))
                 (zip (PyDict.keys (List.filter (fun na => differs na.1 (Some c))
                                                (PyDict.set c a' (agents self))))
                      (gather pick task
                         (PyDict.values (List.filter (fun na => differs na.1 (Some c))
                                                     (PyDict.set c a' (agents self))))
                         clk').1.2))) as Hall.
    { apply Forall2_same_length_lookup. split.
      - by rewrite (Forall2_length _ _ _ Hset), (Forall2_length _ _ _ Hw).
      - intros i x z Hx Hz.
        destruct (Forall2_lookup_l _ _ _ _ _ Hset Hx) as (y & Hy & Hxy1 & Hxy2).
        destruct (Forall2_lookup_lr _ _ _ _ _ _ Hw Hy Hz) as [Hyz1 Hyz2].
        split; [congruence|]. rewrite <- Hxy1 in Hyz2. simpl in Hyz2.
        destruct (String.eqb x.1 c) eqn:E; simpl in Hyz2.
        + rewrite <- Hyz2, Hxy2.
          apply String.eqb_eq in E.
          assert (x.2 = a) as ->; [|done].
          apply list_elem_of_lookup_2 in Hx. destruct x as [n b]. simpl in *. subst n.
          apply (dict_elem_get _ _ _ Hwf) in Hx. congruence.
        + by rewrite Hxy2. }
    destruct (List.filter (fun na => differs na.1 (Some c)) (PyDict.set c a' (agents self)))
      as [|w ws] eqn:EW.
    + cbn [fst snd agents with_agents]. exact Hall.
    + destruct (gather pick task (PyDict.values (w :: ws)) clk') as [[wr ags] clk''].
      cbn [fst snd agents with_agents] in *. exact Hall.
  - pose proof (worker_phase_calls pick task (Some c) _ clk Hwf) as Hw.
    cbv zeta in Hw.
    assert (Forall2 (fun na na' =>
              na.1 = na'.1
              /\ called_once (if String.eqb na.1 c then "Coordinate: " +:+ task else task)
                             na.2 na'.2)
              (agents self)
              (PyDict.update (agents self)
                 (zip (PyDict.keys (List.filter (fun na => differs na.1 (Some c))
                                                (agents self)))
                      (gather pick task
                         (PyDict.values (List.filter (fun na => differs na.1 (Some c))
                                                     (agents self)))
                         clk).1.2))) as Hall.
    { apply Forall2_same_length_lookup. split; [by apply (Forall2_length _ _ _ Hw)|].
      intros i x z Hx Hz.
      destruct (Forall2_lookup_lr _ _ _ _ _ _ Hw Hx Hz) as [Hn Hxz].
      split; [done|]. simpl in Hxz.
      destruct (String.eqb x.1 c) eqn:E; simpl in Hxz; [|done].
      exfalso. apply String.eqb_eq in E.
      apply dict_get_None in Hget. apply Hget.
      apply list_elem_of_fmap. exists x. split; [done|].
      by apply list_elem_of_lookup_2 in Hx. }
    destruct (List.filter (fun na => differs na.1 (Some c)) (agents self))
      as [|w ws] eqn:EW.
    + cbn [fst snd agents with_agents]. exact Hall.
    + destruct (gather pick task (PyDict.values (w :: ws)) clk) as [[wr ags] clk''].
      cbn [fst snd agents with_agents] in *. exact Hall.
Qed.


Lemma AgentPool_execute_hierarchical_calls_witness :
  Forall2 (fun na na' =>
             na.1 = na'.1
             /\ called_once (if String.eqb na.1 "B" then "Coordinate: " +:+ "t" else "t")
                            na.2 na'.2)
          (agents pool_ABC)
          (agents (AgentPool_execute_hierarchical fifo "t" (Some "B") pool_ABC sample_clock).1.2).
Proof.
  apply (AgentPool_execute_hierarchical_calls fifo "t" "B" pool_ABC sample_clock).
  - apply NoDup_ListNoDup. vm_compute. repeat constructor; simpl; intuition discriminate.
  - discriminate.
Defined.

Lemma filter_differs_head (first : string) (a : Agent) (rest : PyDict.t Agent) :
  PyDict.wf ((first, a) :: rest) ->
  List.filter (fun na => differs na.1 (Some first)) ((first, a) :: rest) = rest.
Proof.
  intros Hwf. apply NoDup_cons in Hwf as [Hfirst _].
  cbn [List.filter fst differs]. rewrite String.eqb_refl. cbn [negb].
  by apply filter_differs_absent.
Qed.

(** X8. [AgentPool.execute] in hierarchical mode, on a pool with pairwise
    distinct names whose first agent has a name that is not empty: the first
    agent of the pool is the coordinator, called on the task prefixed with
    ["Coordinate: "]; the agents after it are the workers, each with the slot
    of its own call on the task; with one agent only there is no workers key. *)
Theorem AgentPool_execute_hierarchical_mode (pick : Scheduler) (task : string)
  (self : AgentPool) (clk : Clock) (first : string) (a : Agent)
  (rest : PyDict.t Agent) :
  execution_mode self = HIERARCHICAL ->
  agents self = (first, a) :: rest ->
  PyDict.wf (agents self) ->
  first <> "" ->
  (AgentPool_execute pick task self clk).1.1
  = Nested {| coordinator :=
                Some (coordinator_section first
                        (processed (config a) ("Coordinate: " +:+ task)));
              workers :=
                match rest with
                | [] => None
                | _ :: _ => Some (slots task rest)
                end |}.
Proof.
  intros Hmode Hags Hwf Hfirst. unfold AgentPool_execute. rewrite Hmode.
  rewrite (execute_hierarchical_default pick task None self clk first a rest eq_refl Hags).
  destruct (execute_hierarchical_spec pick task first self clk Hfirst Hwf) as [Hc Hw].
  destruct (AgentPool_execute_hierarchical pick task (Some first) self clk)
    as [[res self'] clk']. cbn [fst snd] in *.
  destruct res as [coord work]. cbn [coordinator workers] in *.
  rewrite Hc, Hw, Hags. rewrite Hags in Hwf.
  rewrite (filter_differs_head first a rest Hwf).
  cbn [PyDict.get]. rewrite String.eqb_refl. cbn [fmap option_fmap option_map].
  by destruct rest.
Qed.

Lemma AgentPool_execute_hierarchical_mode_witness :
  (AgentPool_execute fifo "t"
     (AgentPool_set_execution_mode HIERARCHICAL pool_ABC) sample_clock).1.1
  = Nested {| coordinator :=
                Some (coordinator_section "A"
                        (processed (AgentConfig_new "A" (Member RESEARCHER))
                                   ("Coordinate: " +:+ "t")));
              workers :=
                match [("B", Agent_init (AgentConfig_new "B" (Member COORDINATOR)));
                       ("C", Agent_init (AgentConfig_new "C" (Member ANALYZER)))] with
                | [] => None
                | _ :: _ =>
                    Some (slots "t"
                            [("B", Agent_init (AgentConfig_new "B" (Member COORDINATOR)));
                             ("C", Agent_init (AgentConfig_new "C" (Member ANALYZER)))])
                end |}.
Proof.
  apply (AgentPool_execute_hierarchical_mode fifo "t"
           (AgentPool_set_execution_mode HIERARCHICAL pool_ABC) sample_clock
           "A" (Agent_init (AgentConfig_new "A" (Member RESEARCHER)))
           [("B", Agent_init (AgentConfig_new "B" (Member COORDINATOR)));
            ("C", Agent_init (AgentConfig_new "C" (Member ANALYZER)))]).
  - reflexivity.
  - reflexivity.
  - apply NoDup_ListNoDup. vm_compute. repeat constructor; simpl; intuition discriminate.
  - discriminate.
Defined.

(** X9. On a pool without agents, [AgentPool.execute] calls nobody in any
    mode: the flat result is empty, the nested result has neither a
    coordinator nor a workers key (also when a coordinator is named), and the
    pool and the clock are as before. *)
Theorem AgentPool_execute_empty_pool (pick : Scheduler) (task : string)
  (mode : ExecutionMode) (coordinator_arg : option string) (clk : Clock) :
  let self := AgentPool_set_execution_mode mode AgentPool_init in
  AgentPool_execute pick task self clk
  = (match mode with
     | HIERARCHICAL => Nested {| coordinator := None; workers := None |}
     | _ => Flat PyDict.empty
     end, self, clk)
  /\ AgentPool_execute_hierarchical pick task coordinator_arg self clk
     = ({| coordinator := None; workers := None |}, self, clk).
Proof.
  split.
  - by destruct mode.
  - unfold AgentPool_execute_hierarchical.
    destruct coordinator_arg as [c|]; [|reflexivity].
    destruct (String.eqb_spec c "") as [->|Hne]; [reflexivity|].
    cbv zeta. rewrite !(truthy_Some c Hne). cbn [negb].
    rewrite !(truthy_Some c Hne). reflexivity.
Qed.

End MoreHierarchicalFacts.

(** ** Statistics of pools and of the orchestrator *)

Section StatsFacts.
Import Agents.

Lemma Agent_stats_total (self : Agent) :
  exists st,
    Agent_get_execution_stats self = Returned st
    /\ total_executions st = length (execution_log self)
    /\ agent_name st = name (config self).
Proof.
  unfold Agent_get_execution_stats.
  destruct (execution_log self) as [|e l]; simpl; eexists; repeat split.
Qed.

(** The loop of [get_pool_stats] ends, with the statistics of every agent. *)
Lemma pool_stats_loop_spec (items : list (string * Agent)) :
  forall acc,
    exists pairs,
      pool_stats_loop items acc = Returned (PyDict.update acc pairs)
      /\ Forall2 (fun na ns => na.1 = ns.1
                               /\ Agent_get_execution_stats na.2 = Returned ns.2)
                 items pairs.
Proof.
  induction items as [|[n a] items IH]; intros acc; simpl.
  - exists []. split; [done|constructor].
  - destruct (Agent_get_execution_stats_returns a) as [st Hst]. rewrite Hst.
    destruct (IH (PyDict.set n st acc)) as (pairs & Hloop & Hall).
    exists ((n, st) :: pairs). split; [done|]. by constructor.
Qed.

Lemma Forall2_get {A B} (R : A -> B -> Prop) (d : PyDict.t A) (d' : PyDict.t B)
  (n : string) (a : A) :
  Forall2 (fun kv kv' => kv.1 = kv'.1 /\ R kv.2 kv'.2) d d' ->
  PyDict.get n d = Some a ->
  exists b, PyDict.get n d' = Some b /\ R a b.
Proof.
  induction 1 as [|[k v] [k' v'] d d' [Hk Hv] Hall IH]; simpl; [done|].
  simpl in Hk, Hv. subst k'.
  destruct (String.eqb n k); [|done]. intros [= ->]. eauto.
Qed.

Lemma Forall2_keys {A B} (R : A -> B -> Prop) (d : PyDict.t A) (d' : PyDict.t B) :
  Forall2 (fun kv kv' => kv.1 = kv'.1 /\ R kv.2 kv'.2) d d' ->
  PyDict.keys d = PyDict.keys d'.
Proof.
  induction 1 as [|[k v] [k' v'] d d' [Hk Hv] Hall IH]; simpl; [done|].
  simpl in Hk. by rewrite Hk, IH.
Qed.

Lemma get_pool_stats_spec (self : AgentPool) :
  PyDict.wf (agents self) ->
  exists per_agent,
    AgentPool_get_pool_stats self
    = Returned {| total_agents := length (agents self);
                  stats_execution_mode := ExecutionMode_value (execution_mode self);
                  stats_agents := per_agent |}
    /\ Forall2 (fun na ns => na.1 = ns.1
                             /\ Agent_get_execution_stats na.2 = Returned ns.2)
               (agents self) per_agent.
Proof.
  intros Hwf. unfold AgentPool_get_pool_stats, PyDict.items.
  destruct (pool_stats_loop_spec (agents self) PyDict.empty) as (pairs & -> & Hall).
  exists pairs. split; [|done].
  rewrite dict_update_empty; [done|].
  change (map fst pairs) with (PyDict.keys pairs).
  by rewrite <- (Forall2_keys stats_of _ _ Hall).
Qed.

(** X10. [get_pool_stats] on a pool with pairwise distinct names returns (no
    division by zero in the statistics of any agent): the number of agents,
    the value of the execution mode, and for every agent, under its name and
    in the order of the pool, what [get_execution_stats] returns for it. *)
Theorem AgentPool_get_pool_stats_lookup (self : AgentPool) :
  PyDict.wf (agents self) ->
  exists st,
    AgentPool_get_pool_stats self = Returned st
    /\ total_agents st = length (agents self)
    /\ stats_execution_mode st = ExecutionMode_value (execution_mode self)
    /\ PyDict.keys (stats_agents st) = PyDict.keys (agents self)
    /\ forall n a,
         PyDict.get n (agents self) = Some a ->
         exists s,
           PyDict.get n (stats_agents st) = Some s
           /\ Agent_get_execution_stats a = Returned s
           /\ total_executions s = length (execution_log a).
Proof.
  intros Hwf. destruct (get_pool_stats_spec self Hwf) as (per_agent & Hst & Hall).
  eexists. split; [exact Hst|]. repeat split; simpl.
  - symmetry. by apply (Forall2_keys stats_of _ _ Hall).
  - intros n a Hget.
    destruct (Forall2_get stats_of _ _ n a Hall Hget) as (s & Hs & Hstats).
    exists s. split; [done|]. split; [done|].
    destruct (Agent_stats_total a) as (s' & Hs' & Htot & _). congruence.
Qed.

Lemma AgentPool_get_pool_stats_lookup_witness :
  exists st,
    AgentPool_get_pool_stats pool_ABC = Returned st
    /\ total_agents st = length (agents pool_ABC)
    /\ stats_execution_mode st = ExecutionMode_value (execution_mode pool_ABC)
    /\ PyDict.keys (stats_agents st) = PyDict.keys (agents pool_ABC)
    /\ forall n a,
         PyDict.get n (agents pool_ABC) = Some a ->
         exists s,
           PyDict.get n (stats_agents st) = Some s
           /\ Agent_get_execution_stats a = Returned s
           /\ total_executions s = length (execution_log a).
Proof.
  apply (AgentPool_get_pool_stats_lookup pool_ABC).
  apply NoDup_ListNoDup. vm_compute. repeat constructor; simpl; intuition discriminate.
Defined.

Lemma called_once_total (task : string) (a a' : Agent) :
  called_once task a a' ->
  length (execution_log a') = S (length (execution_log a))
  /\ name (config a') = name (config a).
Proof.
  intros H. destruct (called_once_effect _ _ _ H) as (Hcfg & entry & Hlog & _).
  rewrite Hlog, length_app, Hcfg. simpl. split; [lia|done].
Qed.

(** X11. After [AgentPool.execute] in sequential or parallel mode, under
    every scheduler, on a pool with pairwise distinct names, [get_pool_stats]
    reports the same agents as before, and for every agent one execution more
    than before. *)
Theorem AgentPool_stats_after_execute (pick : Scheduler) (task : string)
  (self : AgentPool) (clk : Clock) :
  PyDict.wf (agents self) ->
  execution_mode self <> HIERARCHICAL ->
  exists st st',
    AgentPool_get_pool_stats self = Returned st
    /\ AgentPool_get_pool_stats (AgentPool_execute pick task self clk).1.2 = Returned st'
    /\ total_agents st' = total_agents st
    /\ PyDict.keys (stats_agents st') = PyDict.keys (stats_agents st)
    /\ forall n s,
         PyDict.get n (stats_agents st) = Some s ->
         exists s',
           PyDict.get n (stats_agents st') = Some s'
           /\ total_executions s' = S (total_executions s)
           /\ agent_name s' = agent_name s.
Proof.
  intros Hwf Hmode.
  assert (Forall2 (fun na na' => na.1 = na'.1 /\ called_once task na.2 na'.2)
            (agents self) (agents (AgentPool_execute pick task self clk).1.2)) as Hcalls.
  { unfold AgentPool_execute. destruct (execution_mode self); [| |done].
    - pose proof (execute_sequential_calls task self clk) as H.
      by destruct (AgentPool_execute_sequential task self clk) as [[r p] c].
    - pose proof (execute_parallel_calls pick task self clk) as H.
      by destruct (AgentPool_execute_parallel pick task self clk) as [[r p] c]. }
  set (self' := (AgentPool_execute pick task self clk).1.2) in *.
  assert (PyDict.wf (agents self')) as Hwf'.
  { unfold PyDict.wf. by rewrite <- (Forall2_keys (called_once task) _ _ Hcalls). }
  destruct (get_pool_stats_spec self Hwf) as (per & Hst & Hall).
  destruct (get_pool_stats_spec self' Hwf') as (per' & Hst' & Hall').
  eexists _, _. split; [exact Hst|]. split; [exact Hst'|]. simpl.
  split; [by rewrite (Forall2_length _ _ _ Hcalls)|]. split.
  - by rewrite <- (Forall2_keys stats_of _ _ Hall'), <- (Forall2_keys stats_of _ _ Hall),
         (Forall2_keys (called_once task) _ _ Hcalls).
  - intros n s Hs.
    destruct (PyDict.get n (agents self)) as [a|] eqn:Ha.
    + destruct (Forall2_get stats_of _ _ n a Hall Ha) as (s0 & Hs0 & Hsa).
      destruct (Forall2_get (called_once task) _ _ n a Hcalls Ha) as (a' & Ha' & Hc).
      destruct (Forall2_get stats_of _ _ n a' Hall' Ha') as (s' & Hs' & Hsa').
      exists s'. split; [done|].
      destruct (Agent_stats_total a) as (t & Ht & Htot & Hname).
      destruct (Agent_stats_total a') as (t' & Ht' & Htot' & Hname').
      destruct (called_once_total _ _ _ Hc) as [Hlen Hnm].
      assert (s = t) as -> by congruence. assert (s' = t') as -> by congruence.
      split; [lia|congruence].
    + exfalso. apply dict_get_None in Ha. apply dict_get_Some_elem in Hs.
      apply Ha. rewrite (Forall2_keys stats_of _ _ Hall).
      apply list_elem_of_fmap. by exists (n, s).
Qed.

Lemma AgentPool_stats_after_execute_witness :
  exists st st',
    AgentPool_get_pool_stats pool_ABC_str_role = Returned st
    /\ AgentPool_get_pool_stats
         (AgentPool_execute fifo "t" pool_ABC_str_role sample_clock).1.2 = Returned st'
    /\ total_agents st' = total_agents st
    /\ PyDict.keys (stats_agents st') = PyDict.keys (stats_agents st)
    /\ forall n s,
         PyDict.get n (stats_agents st) = Some s ->
         exists s',
           PyDict.get n (stats_agents st') = Some s'
           /\ total_executions s' = S (total_executions s)
           /\ agent_name s' = agent_name s.
Proof.
  apply (AgentPool_stats_after_execute fifo "t" pool_ABC_str_role sample_clock).
  - apply NoDup_ListNoDup. vm_compute. repeat constructor; simpl; intuition discriminate.
  - discriminate.
Defined.


(** The statistics of a pool, and of the orchestrator, never raise. *)
Lemma get_pool_stats_returns (self : AgentPool) :
  exists st,
    AgentPool_get_pool_stats self = Returned st
    /\ total_agents st = length (agents self).
Proof.
  unfold AgentPool_get_pool_stats, PyDict.items.
  destruct (pool_stats_loop_spec (agents self) PyDict.empty) as (pairs & -> & _).
  eexists. split; done.
Qed.

Lemma orchestration_stats_loop_returns (items : list (string * AgentPool)) :
  forall acc, exists per_pool, orchestration_stats_loop items acc = Returned per_pool.
Proof.
  induction items as [|[n p] items IH]; intros acc; simpl; [eauto|].
  destruct (get_pool_stats_returns p) as (st & -> & _). apply IH.
Qed.

(** X12. [create_pool] registers a new pool, without agents and in
    sequential mode, under the name, and returns it; [get_pool] finds it
    there; every other name keeps its pool and the history is untouched; a
    pool that was registered under the name before is replaced, at its place;
    [get_pool] of a name that is not registered is [None]. *)
Theorem SwarmOrchestrator_create_pool_lookup (pool_name : string)
  (self : SwarmOrchestrator) :
  let '(pool, self') := SwarmOrchestrator_create_pool pool_name self in
  pool = AgentPool_init
  /\ SwarmOrchestrator_get_pool pool_name self' = Some AgentPool_init
  /\ (forall n, n <> pool_name ->
        SwarmOrchestrator_get_pool n self' = SwarmOrchestrator_get_pool n self)
  /\ (forall n, n ∉ PyDict.keys (agent_pools self') ->
        SwarmOrchestrator_get_pool n self' = None)
  /\ PyDict.keys (agent_pools self')
     = (if PyDict.mem pool_name (agent_pools self)
        then PyDict.keys (agent_pools self)
        else PyDict.keys (agent_pools self) ++ [pool_name])
  /\ execution_history self' = execution_history self.
Proof.
  unfold SwarmOrchestrator_get_pool. simpl.
  split; [done|]. split; [apply dict_get_set_eq|]. split; [|split; [|split; [|done]]].
  - intros n Hn. by apply dict_get_set_ne.
  - intros n Hn. by apply dict_get_None.
  - apply dict_keys_set.
Qed.

(** X13. [execute_task] on a registered pool stores the pool as its
    [execute] left it back under its name, keeps the names and the order of
    the pools and every other pool as it was; [get_orchestration_stats] then
    returns, with the same number of pools and one execution more than
    before.  On a name that is not registered the statistics are those of
    before. *)
Theorem SwarmOrchestrator_execute_task_state (pick : Scheduler)
  (pool_name task : string) (self : SwarmOrchestrator) (clk : Clock) :
  let self' := (SwarmOrchestrator_execute_task pick pool_name task self clk).1.2 in
  match SwarmOrchestrator_get_pool pool_name self with
  | None =>
      self' = self
  | Some pool =>
      SwarmOrchestrator_get_pool pool_name self'
      = Some (AgentPool_execute pick task pool (datetime_now clk).2).1.2
      /\ (forall n, n <> pool_name ->
            SwarmOrchestrator_get_pool n self' = SwarmOrchestrator_get_pool n self)
      /\ PyDict.keys (agent_pools self') = PyDict.keys (agent_pools self)
      /\ exists st st',
           SwarmOrchestrator_get_orchestration_stats self = Returned st
           /\ SwarmOrchestrator_get_orchestration_stats self' = Returned st'
           /\ total_pools st' = total_pools st
           /\ stats_total_executions st' = S (stats_total_executions st)
  end.
Proof.
  unfold SwarmOrchestrator_execute_task, SwarmOrchestrator_get_pool.
  destruct (PyDict.get pool_name (agent_pools self)) as [pool|] eqn:Hget; [|done].
  cbv zeta. cbn [datetime_now fst snd].
  destruct (AgentPool_execute pick task pool _) as [[res pool'] clk1].
  cbn [fst snd agent_pools execution_history].
  split; [apply dict_get_set_eq|]. split; [|split].
  - intros n Hn. by apply dict_get_set_ne.
  - apply dict_keys_set_present.
    apply dict_mem_true. unfold PyDict.mem. by rewrite Hget.
  - unfold SwarmOrchestrator_get_orchestration_stats, PyDict.items.
    cbn [agent_pools execution_history].
    destruct (orchestration_stats_loop_returns (agent_pools self) PyDict.empty) as [pp ->].
    destruct (orchestration_stats_loop_returns
                (PyDict.set pool_name pool' (agent_pools self)) PyDict.empty) as [pp' ->].
    eexists _, _. split; [done|]. split; [done|]. simpl. split.
    + rewrite dict_length_set. unfold PyDict.mem. by rewrite Hget.
    + rewrite length_app. simpl. lia.
Qed.

End StatsFacts.

(** ** The memory store: round trips, search, statistics *)

Section StringSearchFacts.
Import Graph.

Lemma prefix_refl (s : string) : String.prefix s s = true.
Proof.
  induction s as [|a s IH]; simpl; [done|]. by destruct (ascii_dec a a).
Qed.

(** Every text contains the empty text, and itself. *)
Lemma contains_empty (s : string) : contains "" s = true.
Proof. unfold contains. by destruct s. Qed.

Lemma contains_refl (s : string) : contains s s = true.
Proof.
  unfold contains. destruct s as [|a s]; [done|].
  cbn [String.index]. by rewrite prefix_refl.
Qed.

End StringSearchFacts.

Section MoreMemoryFacts.
Import Graph.
Context {V : Type}.
Implicit Types (self : MemoryManager V) (clk : Clock).

(** X14. Short-term memory: a value stored under a key is what
    [retrieve_short_term] returns for the key afterwards, whatever the TTL
    (the last store wins); every other key keeps its answer, a key never
    stored gives [None]; the long-term tier and its index are untouched. *)
Theorem store_short_term_round_trip key (value : V) ttl self clk :
  let self' := (store_short_term key value ttl self clk).1 in
  retrieve_short_term key self' = Some value
  /\ (forall k, k <> key -> retrieve_short_term k self' = retrieve_short_term k self)
  /\ (forall k, k ∉ PyDict.keys (short_term self) -> retrieve_short_term k self = None)
  /\ short_term_size (get_memory_stats self')
     = (if PyDict.mem key (short_term self)
        then short_term_size (get_memory_stats self)
        else S (short_term_size (get_memory_stats self)))
  /\ long_term self' = long_term self
  /\ memory_index self' = memory_index self.
Proof.
  unfold retrieve_short_term. simpl.
  split; [by rewrite dict_get_set_eq|]. split; [|split; [|split; [|done]]].
  - intros k Hk. by rewrite dict_get_set_ne.
  - intros k Hk. apply dict_get_None in Hk. by rewrite Hk.
  - apply dict_length_set.
Qed.

(** X15. Long-term memory: a value stored under a key and a category is
    what [retrieve_long_term] returns for that key and category afterwards
    (the last store wins); every other key of the category and every key of
    every other category keeps its answer; a category or a key that was never
    stored gives [None]; the short-term tier is untouched. *)
Theorem store_long_term_round_trip key (value : V) category self clk :
  let self' := (store_long_term key value category self clk).1 in
  retrieve_long_term key category self' = Some value
  /\ (forall k c, k <> key \/ c <> category ->
        retrieve_long_term k c self' = retrieve_long_term k c self)
  /\ (forall k c, c ∉ PyDict.keys (long_term self) -> retrieve_long_term k c self = None)
  /\ short_term self' = short_term self.
Proof.
  cbv zeta. unfold retrieve_long_term. split; [|split; [|split; [|done]]].
  - by rewrite store_long_term_bucket, dict_get_set_eq.
  - intros k c Hkc. destruct (decide (c = category)) as [->|Hc].
    + destruct Hkc as [Hk|Hc]; [|done].
      rewrite store_long_term_bucket, dict_get_set_ne by done.
      by destruct (PyDict.get category (long_term self)).
    + destruct (store_long_term_other key value category c self clk) as [-> _]; done.
  - intros k c Hc. apply dict_get_None in Hc. by rewrite Hc.
Qed.

(** [clear_short_term] empties the short-term tier: every key gives
    [None] afterwards and the size is zero; the long-term tier and its index
    are untouched, so every long-term retrieval and search answers as before. *)
Lemma clear_short_term_effect self :
  let self' := clear_short_term self in
  (forall k, retrieve_short_term k self' = None)
  /\ short_term_size (get_memory_stats self') = 0%nat
  /\ (forall k c, retrieve_long_term k c self' = retrieve_long_term k c self)
  /\ (forall lower q c, search_memory lower q c self' = search_memory lower q c self)
  /\ memory_index self' = memory_index self.
Proof. done. Qed.

Lemma store_wf_init (mtype : string) : store_wf (MemoryManager_init (V := V) mtype).
Proof.
  repeat split; try constructor. intros c b H. discriminate H.
Qed.

Lemma ensure_wf {A} (k : string) (fresh : A) (d : PyDict.t A) :
  PyDict.wf d -> PyDict.wf (ensure k fresh d).
Proof.
  intros H. unfold ensure. destruct (PyDict.mem k d); [done|]. by apply dict_wf_set.
Qed.

Lemma store_long_term_wf key (value : V) category self clk :
  store_wf self -> store_wf (store_long_term key value category self clk).1.
Proof.
  intros (Hs & Hl & Hi & Hb). split; [done|]. split; [|split].
  - unfold store_long_term. simpl. by apply dict_wf_set, ensure_wf.
  - unfold store_long_term. simpl. by apply dict_wf_set, ensure_wf.
  - intros c b Hget. destruct (decide (category = c)) as [<-|Hne].
    + rewrite store_long_term_bucket in Hget. injection Hget as <-.
      apply dict_wf_set.
      destruct (PyDict.get category (long_term self)) eqn:E; simpl; [eauto|constructor].
    + destruct (store_long_term_other key value category c self clk Hne) as [H _].
      rewrite H in Hget. eauto.
Qed.

Lemma apply_op_wf (op : MemoryOp V) (st : MemoryManager V * Clock) :
  store_wf st.1 -> store_wf (apply_op op st).1.
Proof.
  destruct st as [self clk]. destruct op; simpl; try done.
  - intros (Hs & Hl & Hi & Hb). repeat split; try done. by apply dict_wf_set.
  - apply store_long_term_wf.
  - intros (Hs & Hl & Hi & Hb). repeat split; try done. constructor.
Qed.

Lemma run_ops_wf (ops : list (MemoryOp V)) (st : MemoryManager V * Clock) :
  store_wf st.1 -> store_wf (run_ops ops st).1.
Proof.
  unfold run_ops. revert st.
  induction ops as [|op ops IH]; intros st H; simpl; [done|].
  apply IH. by apply apply_op_wf.
Qed.

Lemma search_memory_elem (lower : string -> string) (query category key : string)
  (value : V) self :
  (key, value) ∈ search_memory lower query category self
  <-> exists bucket data,
        PyDict.get category (long_term self) = Some bucket
        /\ (key, data) ∈ bucket
        /\ lt_value data = value
        /\ contains (lower query) (lower key) = true.
Proof.
  unfold search_memory, PyDict.items.
  destruct (PyDict.get category (long_term self)) as [bucket|]; split.
  - intros H. apply list_elem_of_fmap in H as ([k d] & [= -> ->] & H).
    apply list_elem_of_In, filter_In in H as [Hin Hc].
    exists bucket, d. by rewrite list_elem_of_In.
  - intros (b & d & [= <-] & Hin & <- & Hc).
    apply list_elem_of_fmap. exists (key, d). split; [done|].
    apply list_elem_of_In, filter_In. by rewrite <- list_elem_of_In.
  - intros H. by apply elem_of_nil in H.
  - intros (b & d & H & _). discriminate H.
Qed.

(** X16. [search_memory] on a store built by its operations, whatever
    [str.lower()] does to a text: the results are exactly the keys of the
    category whose lowered text contains the lowered query, each with the
    value that [retrieve_long_term] returns for it, and no key is returned
    twice; so a key is found by the query that is the key itself; the empty
    query returns every key of the category, given that lowering the empty
    text leaves it empty; a category that was never stored gives no result. *)
Theorem search_memory_sound_and_complete (lower : string -> string)
  (ops : list (MemoryOp V)) (mtype : string) (clk : Clock)
  (query category : string) :
  let self := (run_ops ops (MemoryManager_init mtype, clk)).1 in
  (forall key value,
      (key, value) ∈ search_memory lower query category self
      <-> retrieve_long_term key category self = Some value
          /\ contains (lower query) (lower key) = true)
  /\ NoDup (search_memory lower query category self).*1
  /\ (forall key value,
        retrieve_long_term key category self = Some value ->
        (key, value) ∈ search_memory lower key category self)
  /\ (lower "" = "" ->
      forall key value,
        retrieve_long_term key category self = Some value ->
        (key, value) ∈ search_memory lower "" category self)
  /\ (category ∉ PyDict.keys (long_term self) ->
      search_memory lower query category self = []).
Proof.
  intros self.
  assert (store_wf self) as (_ & _ & _ & Hb).
  { apply run_ops_wf. apply store_wf_init. }
  assert (forall q key value,
            retrieve_long_term key category self = Some value ->
            contains (lower q) (lower key) = true ->
            (key, value) ∈ search_memory lower q category self) as Hcomplete.
  { intros q key value Hr Hc. apply search_memory_elem.
    unfold retrieve_long_term in Hr.
    destruct (PyDict.get category (long_term self)) as [bucket|] eqn:Eb; [|done].
    destruct (PyDict.get key bucket) as [data|] eqn:Ed; [|done].
    injection Hr as <-. exists bucket, data. repeat split; try done.
    by apply dict_get_Some_elem. }
  split; [|split; [|split; [|split]]].
  - intros key value. split; [|by intros [Hr Hc]; apply Hcomplete].
    intros H. apply search_memory_elem in H as (b & d & Hget & Hin & <- & Hc).
    split; [|done]. unfold retrieve_long_term. rewrite Hget.
    by rewrite (dict_elem_get _ _ _ (Hb _ _ Hget) Hin).
  - unfold search_memory, PyDict.items.
    destruct (PyDict.get category (long_term self)) as [bucket|] eqn:Eb; [|constructor].
    rewrite <- list_fmap_compose.
    pose proof (Hb _ _ Eb) as Hwf. unfold PyDict.wf, PyDict.keys in Hwf.
    clear -Hwf. induction bucket as [|[k d] bucket IH]; simpl; [constructor|].
    apply NoDup_cons in Hwf as [Hk Hwf].
    destruct (contains (lower query) (lower k)); simpl; [|by apply IH].
    constructor; [|by apply IH]. intros Hin. apply Hk.
    apply list_elem_of_fmap in Hin as ([k' d'] & Heq & Hin). simpl in Heq. subst k'.
    apply list_elem_of_In, filter_In in Hin as [Hin _].
    apply list_elem_of_fmap. exists (k, d'). split; [done|]. by apply list_elem_of_In.
  - intros key value Hr. apply Hcomplete; [done|]. apply contains_refl.
  - intros Hlow key value Hr. apply Hcomplete; [done|]. rewrite Hlow. apply contains_empty.
  - intros Hc. apply dict_get_None in Hc. unfold search_memory. by rewrite Hc.
Qed.


(** The total of [get_memory_stats] when one bucket is replaced. *)
Lemma fold_add_shift (l : list nat) (a : nat) :
  fold_left Nat.add l a = (a + fold_left Nat.add l 0)%nat.
Proof.
  revert a. induction l as [|x l IH]; intros a; simpl; [lia|].
  rewrite (IH (a + x)%nat), (IH x). lia.
Qed.

Lemma total_set {A} (c : string) (b : list A) (d : PyDict.t (list A)) :
  (fold_left Nat.add (map (fun v => length v) (PyDict.values (PyDict.set c b d))) 0
   + length (default [] (PyDict.get c d))
   = fold_left Nat.add (map (fun v => length v) (PyDict.values d)) 0 + length b)%nat.
Proof.
  induction d as [|[k v] d IH]; simpl; [lia|].
  destruct (String.eqb_spec c k) as [->|Hne]; simpl.
  - rewrite (fold_add_shift _ (length b)), (fold_add_shift _ (length v)). lia.
  - rewrite (fold_add_shift _ (length v)).
    rewrite (fold_add_shift
               (map (fun v0 => length v0) (PyDict.values d)) (length v)). lia.
Qed.

Lemma total_ensure {A} (c : string) (d : PyDict.t (list A)) :
  fold_left Nat.add (map (fun v => length v) (PyDict.values (ensure c [] d))) 0
  = fold_left Nat.add (map (fun v => length v) (PyDict.values d)) 0.
Proof.
  unfold ensure. destruct (PyDict.mem c d) eqn:E; [done|].
  pose proof (total_set c [] d) as H. apply dict_mem_false, dict_get_None in E.
  rewrite E in H. simpl in H. lia.
Qed.

(** X17. [get_memory_stats] after [store_long_term]: the total of
    long-term entries grows by one when the key is new in its category and
    stays when the key was there (its value is replaced); the category is
    added to the categories when it is new; the short-term size stays. *)
Theorem get_memory_stats_after_store_long_term key (value : V) category self clk :
  let before := get_memory_stats self in
  let after := get_memory_stats (store_long_term key value category self clk).1 in
  long_term_total after
  = (if PyDict.mem key (default PyDict.empty (PyDict.get category (long_term self)))
     then long_term_total before
     else S (long_term_total before))
  /\ long_term_categories after
     = (if PyDict.mem category (long_term self)
        then long_term_categories before
        else long_term_categories before ++ [category])
  /\ short_term_size after = short_term_size before.
Proof.
  cbv zeta. unfold get_memory_stats, store_long_term. simpl.
  unfold PyDict.empty. split; [|split; [|done]].
  - rewrite item_ensure.
    set (bucket0 := default [] (PyDict.get category (long_term self))).
    set (entry := {| lt_value := value; lt_timestamp := readings clk (reads clk) |}).
    pose proof (total_set category (PyDict.set key entry bucket0)
                  (ensure category [] (long_term self))) as H.
    rewrite get_ensure_eq in H. fold bucket0 in H. cbn [default from_option id] in H.
    rewrite total_ensure in H. rewrite dict_length_set in H.
    unfold bucket0 in *. clear bucket0.
    match goal with
    | |- ?A = (if ?c then ?B else S ?B) =>
        assert (Hn : forall L : nat,
                   (A + L = B + (if c then L else S L))%nat ->
                   A = (if c then B else S B))
          by (intros L; destruct c; lia)
    end.
    eapply Hn. exact H.
  - rewrite dict_keys_set_present.
    + unfold ensure. destruct (PyDict.mem category (long_term self)) eqn:E; [done|].
      apply dict_mem_false in E. rewrite dict_set_absent by done.
      unfold PyDict.keys. by rewrite map_app.
    + apply dict_mem_true. unfold PyDict.mem. by rewrite get_ensure_eq.
Qed.

End MoreMemoryFacts.

(** ** The evaluation engine: history, bounds, batches *)

Section MoreEvaluationFacts.
Import Graph.

Lemma fold_Qplus_const {A} (s : Q) (items : list A) :
  forall t : Q,
    (fold_left Qplus ((fun _ => s) <$> items) t
     == t + inject_Z (Z.of_nat (length items)) * s)%Q.
Proof.
  induction items as [|x items IH]; intros t.
  - simpl. ring.
  - rewrite fmap_cons. cbn [fold_left length]. rewrite IH.
    rewrite Nat2Z.inj_succ, <- Z.add_1_r, inject_Z_plus. ring.
Qed.

Lemma inject_nat_pos (n : nat) : ~ (inject_Z (Z.of_nat (S n)) == 0)%Q.
Proof. unfold Qeq, inject_Z. simpl. lia. Qed.

Lemma length_substring_0 (n : nat) :
  forall s, (n <= String.length s)%nat -> String.length (substring 0 n s) = n.
Proof.
  induction n as [|n IH]; intros [|c s]; simpl; try done; try lia.
  intros H. rewrite IH; lia.
Qed.

Lemma length_string_app (s1 s2 : string) :
  String.length (s1 +:+ s2) = (String.length s1 + String.length s2)%nat.
Proof. induction s1 as [|c s1 IH]; simpl; [done|]. by rewrite IH. Qed.

(** A lookup in a mapping filled with one value finds that value. *)
Lemma get_update_const {A} (v : A) (pairs : list (string * A)) :
  Forall (fun kv => kv.2 = v) pairs ->
  forall (d : PyDict.t A),
    Forall (fun kv => kv.2 = v) d ->
    forall c s, PyDict.get c (PyDict.update d pairs) = Some s -> s = v.
Proof.
  unfold PyDict.update.
  induction 1 as [|[k x] pairs Hx Hpairs IH]; intros d Hd c s Hget; simpl in *.
  - apply dict_get_Some_elem in Hget. rewrite Forall_forall in Hd.
    by apply (Hd (c, s)).
  - assert (Forall (fun kv => kv.2 = v) (PyDict.set k x d)) as Hset.
    { subst x. clear -Hd.
      induction Hd as [|[k' x'] d Hx' Hd IH]; simpl; [by repeat constructor|].
      destruct (String.eqb k k'); constructor; done. }
    exact (IH _ Hset c s Hget).
Qed.

(** One call of [evaluate_output], for any criteria: the evaluation it
    returns does not depend on the engine. *)
Lemma evaluate_output_spec (output : string) (criteria : PyDict.t string)
  (clk : Clock) :
  exists ev,
    (forall self,
        evaluate_output output criteria self clk
        = (Returned ev,
           {| evaluation_history := evaluation_history self ++ [ev] |},
           {| readings := readings clk; reads := S (reads clk) |}))
    /\ eval_timestamp ev = readings clk (reads clk)
    /\ eval_output ev
       = (if (100 <? String.length output)%nat
          then substring 0 100 output +:+ "..." else output)
    /\ (forall c s, PyDict.get c (criteria_scores ev) = Some s ->
          s = criterion_score output)
    /\ (overall_score ev == expected_overall output criteria)%Q.
Proof.
  unfold evaluate_output. cbv zeta. cbn [datetime_now].
  destruct criteria as [|[k d] rest].
  { eexists. split; [reflexivity|]. by repeat split. }
  unfold PyDict.items. rewrite score_loop_spec.
  cbn [length truediv].
  eexists. split; [reflexivity|]. cbn [eval_timestamp eval_output overall_score criteria_scores].
  split; [done|]. split; [done|]. split.
  - apply get_update_const; [|constructor].
    apply Forall_forall. intros kv Hkv.
    by apply list_elem_of_fmap in Hkv as (kd & -> & _).
  - rewrite fold_Qplus_const. cbn [length].
    field. apply inject_nat_pos.
Qed.

(** X18. [evaluate_output] returns an evaluation for every output and every
    criteria mapping, empty or not: no division by zero reaches the caller.
    The evaluation is added at the end of the engine's history, which keeps
    what it held; the clock is read once, for the timestamp.  The text kept
    in the evaluation is the output itself up to 100 characters, and its
    first 100 characters followed by three dots beyond, 103 characters. *)
Theorem evaluate_output_appends_to_history (output : string)
  (criteria : PyDict.t string) (self : EvaluationEngine) (clk : Clock) :
  exists ev,
    evaluate_output output criteria self clk
    = (Returned ev,
       {| evaluation_history := evaluation_history self ++ [ev] |},
       {| readings := readings clk; reads := S (reads clk) |})
    /\ eval_timestamp ev = readings clk (reads clk)
    /\ ((String.length output <= 100)%nat -> eval_output ev = output)
    /\ ((100 < String.length output)%nat ->
        eval_output ev = substring 0 100 output +:+ "..."
        /\ String.length (eval_output ev) = 103%nat).
Proof.
  destruct (evaluate_output_spec output criteria clk)
    as (ev & Hrun & Hts & Hout & _).
  exists ev. split; [done|]. split; [done|]. split.
  - intros Hlen. rewrite Hout.
    by destruct (Nat.ltb_spec 100 (String.length output)); [lia|].
  - intros Hlen. rewrite Hout.
    destruct (Nat.ltb_spec 100 (String.length output)); [|lia].
    split; [done|]. rewrite length_string_app, length_substring_0 by lia. done.
Qed.

(** X19. When there is a criterion, the overall score of an evaluation is
    between 0 and 1, it is 1 from 1000 characters on, and 0 for the empty
    output; with one or two criteria, as the pipeline has, it is the score
    that every criterion received.  These are the facts about the mean that
    hold of the floating-point computation as they do of the exact one: a
    sum of [n] numbers between 0 and 1 stays between 0 and [n], [n] ones add
    up to [n], and the mean of one number, or of the same number twice, is
    that number. *)
Theorem evaluate_output_overall_score (output : string)
  (criteria : PyDict.t string) (self : EvaluationEngine) (clk : Clock) :
  criteria <> [] ->
  exists ev,
    (evaluate_output output criteria self clk).1.1 = Returned ev
    /\ (0 <= overall_score ev <= 1)%Q
    /\ ((1000 <= String.length output)%nat -> (overall_score ev == 1)%Q)
    /\ (output = "" -> (overall_score ev == 0)%Q)
    /\ ((length criteria <= 2)%nat ->
        forall c s,
          PyDict.get c (criteria_scores ev) = Some s -> (overall_score ev == s)%Q).
Proof.
  intros Hne.
  destruct (evaluate_output_spec output criteria clk)
    as (ev & Hrun & _ & _ & Hscores & Hov).
  exists ev. rewrite Hrun. split; [done|].
  destruct criteria as [|kd rest]; [done|].
  split; [rewrite Hov; apply criterion_score_bounds|].
  split; [|split].
  - intros Hlen. rewrite Hov. by apply criterion_score_saturates.
  - intros ->. rewrite Hov. done.
  - intros _ c s Hs. by rewrite Hov, (Hscores c s Hs).
Qed.

Lemma evaluate_output_overall_score_witness :
  exists ev,
    (evaluate_output "some output" builtin_criteria
       EvaluationEngine_init sample_clock).1.1 = Returned ev
    /\ (0 <= overall_score ev <= 1)%Q
    /\ ((1000 <= String.length "some output")%nat -> (overall_score ev == 1)%Q)
    /\ ("some output" = "" -> (overall_score ev == 0)%Q)
    /\ ((length builtin_criteria <= 2)%nat ->
        forall c s,
          PyDict.get c (criteria_scores ev) = Some s -> (overall_score ev == s)%Q).
Proof.
  apply (evaluate_output_overall_score "some output" builtin_criteria
           EvaluationEngine_init sample_clock).
  discriminate.
Defined.

(** The loop of [batch_evaluate]: one call of [evaluate_output] for each
    output, each at its own reading of the clock. *)
Lemma batch_loop_spec (criteria : PyDict.t string) (outputs : list string) :
  forall acc self clk,
  exists evs,
    batch_loop outputs criteria acc self clk
    = (Returned (acc ++ evs),
       {| evaluation_history := evaluation_history self ++ evs |},
       {| readings := readings clk; reads := (reads clk + length outputs)%nat |})
    /\ length evs = length outputs
    /\ (forall i output,
          outputs !! i = Some output ->
          exists ev,
            evs !! i = Some ev
            /\ forall engine,
                 (evaluate_output output criteria engine
                    {| readings := readings clk;
                       reads := (reads clk + i)%nat |}).1.1 = Returned ev).
Proof.
  induction outputs as [|output outputs IH]; intros acc self clk.
  - exists []. simpl. rewrite !app_nil_r, Nat.add_0_r.
    split; [by destruct self, clk|]. split; [done|]. intros i o H. done.
  - cbn [batch_loop].
    destruct (evaluate_output_spec output criteria clk) as (ev & Hrun & _).
    rewrite Hrun.
    destruct (IH (acc ++ [ev])
                {| evaluation_history := evaluation_history self ++ [ev] |}
                {| readings := readings clk; reads := S (reads clk) |})
      as (evs & -> & Hlen & Hall).
    exists (ev :: evs). cbn [evaluation_history readings reads length] in *.
    rewrite <- !app_assoc. cbn [app].
    replace (S (reads clk) + length outputs)%nat
      with (reads clk + S (length outputs))%nat by lia.
    split; [done|]. split; [by rewrite Hlen|].
    intros [|i] o Ho; simpl in Ho.
    + injection Ho as <-. exists ev. split; [done|]. intros engine.
      rewrite Nat.add_0_r.
      replace {| readings := readings clk; reads := reads clk |} with clk
        by by destruct clk.
      by rewrite Hrun.
    + destruct (Hall i o Ho) as (ev' & Hev' & Hcall). exists ev'. split; [done|].
      intros engine.
      replace (reads clk + S i)%nat with (S (reads clk) + i)%nat by lia.
      apply Hcall.
Qed.

(** X20. [batch_evaluate] returns for every list of outputs and every
    criteria mapping.  It gives one evaluation for each output, in the order
    of the outputs: the evaluation at a place is what one call of
    [evaluate_output] returns for the output at that place, made at that
    output's own reading of the clock, on any engine.  The engine's history
    grows by exactly these evaluations, in that order; the clock is read
    once for each output.  The average score is the sum of the overall
    scores divided by their number when there is an output, and zero,
    without a division, when there is none. *)
Theorem batch_evaluate_evaluates_each_output (outputs : list string)
  (criteria : PyDict.t string) (self : EvaluationEngine) (clk : Clock) :
  exists res,
    batch_evaluate outputs criteria self clk
    = (Returned res,
       {| evaluation_history := evaluation_history self ++ evaluations res |},
       {| readings := readings clk; reads := (reads clk + length outputs)%nat |})
    /\ length (evaluations res) = length outputs
    /\ (forall i output,
          outputs !! i = Some output ->
          exists ev,
            evaluations res !! i = Some ev
            /\ forall engine,
                 (evaluate_output output criteria engine
                    {| readings := readings clk;
                       reads := (reads clk + i)%nat |}).1.1 = Returned ev)
    /\ average_score res
       = (match outputs with
          | [] => 0
          | _ :: _ =>
              py_sum (overall_score <$> evaluations res)
              / inject_Z (Z.of_nat (length outputs))
          end)%Q.
Proof.
  unfold batch_evaluate.
  destruct (batch_loop_spec criteria outputs [] self clk)
    as (evs & -> & Hlen & Hall).
  cbn [app].
  destruct evs as [|ev evs].
  - destruct outputs; [|done]. eexists (Build_BatchResult _ _).
    split; [reflexivity|]. by repeat split.
  - destruct outputs as [|o outputs]; [done|].
    cbn [map length truediv]. eexists (Build_BatchResult _ _).
    split; [reflexivity|].
    cbn [evaluations average_score]. split; [done|]. split; [done|].
    rewrite length_map. cbn [length] in Hlen. by rewrite Hlen.
Qed.

End MoreEvaluationFacts.

(** ** The pipeline: what a run leaves behind *)

Section MorePipelineFacts.
Import Graph.

Lemma store_long_term_clock {V} key (value : V) category self clk :
  (store_long_term key value category self clk).2 = (datetime_now clk).2.
Proof. done. Qed.

(** The effects of a run on the memory store, the evaluator and the clock. *)
Lemma run_effects (t : string) (g : SwarmGraph) (clk : Clock) :
  exists st g' clk' ev,
    run t g clk = (Returned st, g', clk')
    /\ PyDict.get "current_task" (short_term (memory g'))
       = Some {| st_value := TextValue t; st_timestamp := readings clk (reads clk);
                 st_ttl := None |}
    /\ (forall k, k <> "current_task" ->
          PyDict.get k (short_term (memory g')) = PyDict.get k (short_term (memory g)))
    /\ PyDict.keys (short_term (memory g'))
       = PyDict.keys (PyDict.set "current_task"
                        {| st_value := TextValue t;
                           st_timestamp := readings clk (reads clk);
                           st_ttl := None |} (short_term (memory g)))
    /\ agent_results st
       = {| primary_agent := Some (processing t);
            results_timestamp := Some (readings clk (S (reads clk))) |}
    /\ evaluation_results st = Some ev
    /\ (evaluate_output (processing t) builtin_criteria (evaluator g)
          {| readings := readings clk; reads := S (S (reads clk)) |}).1.1 = Returned ev
    /\ evaluation_history (evaluator g') = evaluation_history (evaluator g) ++ [ev]
    /\ short_term_memory st = short_term (memory g')
    /\ long_term_memory st = long_term (memory g')
    /\ readings clk' = readings clk
    /\ reads clk' = (reads clk + 4)%nat.
Proof.
  destruct g as [mem ev], clk as [rd n].
  unfold run, invoke.
  cbn -[store_long_term criterion_score next_task_key substring String.append
        Qplus Qdiv inject_Z Nat.ltb].
  match goal with
  | |- context [store_long_term ?k ?v ?c ?m ?ck] =>
      pose proof (store_long_term_short_term k v c m ck) as Hs;
      pose proof (store_long_term_clock k v c m ck) as Hc;
      destruct (store_long_term k v c m ck) as [mem2 clk4]
  end.
  cbn [fst snd short_term datetime_now] in Hs, Hc. subst clk4.
  eexists _, _, _, _. split; [reflexivity|].
  cbn [memory short_term evaluator evaluation_history agent_results
       evaluation_results short_term_memory long_term_memory readings reads].
  rewrite Hs. split; [apply dict_get_set_eq|].
  split; [by intros k Hk; apply dict_get_set_ne|].
  repeat split. lia.
Qed.

(** X22. A run, on any graph: afterwards the short-term memory answers
    the task text under [current_task] and every other short-term key as
    before; the agent stage's text is [Processing: ] followed by the first 50
    characters of the task and three dots; the evaluation in the final state
    is the evaluation of that text against the two built-in criteria, and it
    is added at the end of the evaluator's history; the record filed in the
    long-term category [tasks] holds the task, the agent results and that
    evaluation, and is what [retrieve_long_term] returns for the new key; the
    snapshots in the final state are the two tiers of the store; the clock
    was read four times. *)
Theorem run_stores_task_and_evaluation (t : string) (g : SwarmGraph) (clk : Clock) :
  exists st g' clk' ev,
    run t g clk = (Returned st, g', clk')
    /\ retrieve_short_term "current_task" (memory g') = Some (TextValue t)
    /\ (forall k, k <> "current_task" ->
          retrieve_short_term k (memory g') = retrieve_short_term k (memory g))
    /\ primary_agent (agent_results st) = Some (processing t)
    /\ evaluation_results st = Some ev
    /\ (evaluate_output (processing t) builtin_criteria (evaluator g)
          {| readings := readings clk; reads := S (S (reads clk)) |}).1.1 = Returned ev
    /\ evaluation_history (evaluator g') = evaluation_history (evaluator g) ++ [ev]
    /\ retrieve_long_term (next_task_key (memory g)) "tasks" (memory g')
       = Some (RunValue t (agent_results st) (Some ev))
    /\ short_term_memory st = short_term (memory g')
    /\ long_term_memory st = long_term (memory g')
    /\ reads clk' = (reads clk + 4)%nat.
Proof.
  destruct (run_effects t g clk)
    as (st & g' & clk' & ev & Hrun & Hcur & Hoth & _ & Hres & Hev & Heval & Hhist
        & Hss & Hls & _ & Hreads).
  destruct (run_spec t g clk)
    as (st2 & g2 & clk2 & entry & Hrun2 & _ & _ & _ & _ & Hval & Hget).
  rewrite Hrun in Hrun2. injection Hrun2 as <- <- <-.
  exists st, g', clk', ev. split; [done|].
  unfold retrieve_short_term. rewrite Hcur. split; [done|].
  split; [by intros k Hk; rewrite (Hoth k Hk)|].
  split; [by rewrite Hres|]. split; [done|]. split; [done|]. split; [done|].
  split; [|done].
  unfold retrieve_long_term. rewrite Hget, dict_get_set_eq, Hval. by rewrite Hev.
Qed.

(** [run_all] step by step. *)
Lemma run_all_cons (t : string) (tasks : list string) (g : SwarmGraph) (clk : Clock) :
  run_all (t :: tasks) g clk = run_all tasks (run t g clk).1.2 (run t g clk).2.
Proof. simpl. by destruct (run t g clk) as [[res g'] clk']. Qed.

Lemma run_all_Reachable (tasks : list string) :
  forall g clk, Reachable g -> Reachable (run_all tasks g clk).1.
Proof.
  induction tasks as [|t tasks IH]; intros g clk Hg; [done|].
  rewrite run_all_cons. apply IH. by constructor.
Qed.

Lemma run_all_task_keys_length (tasks : list string) :
  forall g clk,
    Reachable g ->
    length (task_keys (run_all tasks g clk).1)
    = (length (task_keys g) + length tasks)%nat.
Proof.
  induction tasks as [|t tasks IH]; intros g clk Hg; [simpl; lia|].
  rewrite run_all_cons, IH by by constructor.
  rewrite (run_task_keys t g clk (Reachable_task_keys g Hg)).
  rewrite length_app. simpl. lia.
Qed.

Lemma dict_set_nonempty {A} (k : string) (v : A) (d : PyDict.t A) :
  PyDict.set k v d <> [].
Proof. destruct d as [|[k' v'] d]; simpl; [done|]. by destruct (String.eqb k k'). Qed.

(** The store of a graph that only ran tasks: nothing before the first run;
    afterwards the one short-term key [current_task] and the one long-term
    category [tasks]; one evaluation for each run. *)
Lemma Reachable_store (g : SwarmGraph) :
  Reachable g ->
  length (evaluation_history (evaluator g)) = length (task_keys g)
  /\ ((short_term (memory g) = [] /\ long_term (memory g) = [])
      \/ (PyDict.keys (short_term (memory g)) = ["current_task"]
          /\ exists bucket, long_term (memory g) = [("tasks", bucket)]
                            /\ bucket <> [])).
Proof.
  induction 1 as [|g t clk Hg [IHn IHs]]; [split; [done|by left]|].
  pose proof (run_task_keys t g clk (Reachable_task_keys g Hg)) as Hkeys.
  destruct (run_effects t g clk)
    as (st & g' & clk' & ev & Hrun & _ & _ & Hsk & _ & _ & _ & Hhist & _ & _ & _ & _).
  destruct (run_spec t g clk)
    as (st2 & g2 & clk2 & entry & Hrun2 & _ & _ & _ & _ & _ & Hget).
  rewrite Hrun in Hrun2. injection Hrun2 as <- <- <-.
  rewrite Hrun in *. cbn [fst snd] in *.
  split. { rewrite Hhist, Hkeys, !length_app. simpl. lia. }
  right. split.
  - rewrite Hsk. destruct IHs as [[-> _]|[Hk _]]; [done|].
    rewrite dict_keys_set_present; [done|]. rewrite Hk. apply list_elem_of_here.
  - assert (PyDict.keys (long_term (memory g'))
            = PyDict.keys (PyDict.set "tasks" [] (long_term (memory g)))) as Hlk.
    { clear -Hrun. destruct g as [mem e], clk as [rd n].
      unfold run, invoke in Hrun.
      cbn -[criterion_score next_task_key substring String.append
            Qplus Qdiv inject_Z Nat.ltb ensure item PyDict.set] in Hrun.
      injection Hrun as _ <- _. cbn [memory long_term].
      unfold ensure. destruct (PyDict.mem "tasks" (long_term mem)) eqn:E.
      - apply dict_mem_true in E. by rewrite !dict_keys_set_present.
      - rewrite dict_keys_set_present; [done|].
        apply dict_mem_true. unfold PyDict.mem. by rewrite dict_get_set_eq. }
    assert (exists b, long_term (memory g') = [("tasks", b)]) as [b Hb].
    { destruct IHs as [[_ Hl]|[_ (b0 & Hl & _)]]; rewrite Hl in Hlk; simpl in Hlk;
        destruct (long_term (memory g')) as [|[k b] [|? ?]]; try done;
        injection Hlk as ->; by exists b. }
    exists b. split; [done|]. rewrite Hb in Hget. simpl in Hget. injection Hget as ->.
    apply dict_set_nonempty.
Qed.

(** X23. The statistics of the store after running a list of tasks on a
    graph that only ran tasks before: the long-term total is the number of
    runs so far, all in the one category [tasks], whose keys are [task_0],
    [task_1], ... in the order of the runs; the short-term size is 1 however
    many tasks ran, since every run overwrites [current_task]; the evaluator
    holds one evaluation for each run.  Before the first run everything is
    empty. *)
Theorem run_all_memory_stats (tasks : list string) (g : SwarmGraph) (clk : Clock) :
  Reachable g ->
  let g' := (run_all tasks g clk).1 in
  let n := (length (task_keys g) + length tasks)%nat in
  SwarmGraph_get_memory_stats g'
  = {| short_term_size := if n is O then 0 else 1;
       long_term_categories := if n is O then [] else ["tasks"];
       long_term_total := n |}
  /\ task_keys g' = task_key <$> seq 0 n
  /\ length (evaluation_history (evaluator g')) = n.
Proof.
  intros Hg g' n.
  assert (Reachable g') as Hg' by by apply run_all_Reachable.
  assert (length (task_keys g') = n) as Hn by by apply run_all_task_keys_length.
  destruct (Reachable_store g' Hg') as [Hhist Hshape].
  split; [|split].
  - unfold SwarmGraph_get_memory_stats, get_memory_stats.
    destruct Hshape as [[Hs Hl]|[Hs (b & Hl & Hb)]].
    + unfold task_keys in Hn. rewrite Hl in Hn. simpl in Hn.
      rewrite <- Hn, Hs, Hl. done.
    + unfold task_keys in Hn. rewrite Hl in Hn. simpl in Hn.
      unfold PyDict.keys in Hn. rewrite length_map in Hn.
      rewrite Hl. simpl. rewrite Hn.
      replace (length (short_term (memory g'))) with 1%nat.
      2: { unfold PyDict.keys in Hs. by rewrite <- (length_map fst), Hs. }
      destruct n; [by destruct b|done].
  - rewrite <- Hn. by apply Reachable_task_keys.
  - by rewrite Hhist.
Qed.

Lemma run_all_memory_stats_witness :
  let g' := (run_all ["first"; "second"] SwarmGraph_init sample_clock).1 in
  let n := (length (task_keys SwarmGraph_init) + length ["first"; "second"])%nat in
  SwarmGraph_get_memory_stats g'
  = {| short_term_size := if n is O then 0 else 1;
       long_term_categories := if n is O then [] else ["tasks"];
       long_term_total := n |}
  /\ task_keys g' = task_key <$> seq 0 n
  /\ length (evaluation_history (evaluator g')) = n.
Proof.
  apply (run_all_memory_stats ["first"; "second"] SwarmGraph_init sample_clock).
  apply Reachable_init.
Defined.

(** A run keeps every record filed before. *)
Lemma run_keeps_records (t : string) (g : SwarmGraph) (clk : Clock) (k : string) :
  k <> next_task_key (memory g) ->
  retrieve_long_term k "tasks" (memory (run t g clk).1.2)
  = retrieve_long_term k "tasks" (memory g).
Proof.
  intros Hk.
  destruct (run_spec t g clk)
    as (st & g' & clk' & entry & Hrun & _ & _ & _ & _ & _ & Hget).
  rewrite Hrun. cbn [fst snd]. unfold retrieve_long_term.
  rewrite Hget, dict_get_set_ne by done.
  by destruct (PyDict.get "tasks" (long_term (memory g))).
Qed.

Lemma next_task_key_length (g : SwarmGraph) :
  next_task_key (memory g) = task_key (length (task_keys g)).
Proof. unfold next_task_key, task_keys, PyDict.keys. by rewrite length_map. Qed.

Lemma run_all_keeps_records (tasks : list string) :
  forall g clk m,
    Reachable g -> (m < length (task_keys g))%nat ->
    retrieve_long_term (task_key m) "tasks" (memory (run_all tasks g clk).1)
    = retrieve_long_term (task_key m) "tasks" (memory g).
Proof.
  induction tasks as [|t tasks IH]; intros g clk m Hg Hm; [done|].
  rewrite run_all_cons, IH.
  - apply run_keeps_records. rewrite next_task_key_length.
    intros Heq. apply task_key_inj in Heq. lia.
  - by constructor.
  - rewrite (run_task_keys t g clk (Reachable_task_keys g Hg)), length_app. lia.
Qed.

(** The record a run files under its key. *)
Lemma run_files_record (t : string) (g : SwarmGraph) (clk : Clock) :
  exists results ev,
    retrieve_long_term (next_task_key (memory g)) "tasks" (memory (run t g clk).1.2)
    = Some (RunValue t results (Some ev))
    /\ primary_agent results = Some (processing t).
Proof.
  destruct (run_effects t g clk)
    as (st & g' & clk' & ev & Hrun & _ & _ & _ & Hres & Hev & _).
  destruct (run_spec t g clk)
    as (st2 & g2 & clk2 & entry & Hrun2 & _ & _ & _ & _ & Hval & Hget).
  rewrite Hrun in Hrun2. injection Hrun2 as <- <- <-.
  rewrite Hrun. cbn [fst snd]. exists (agent_results st), ev.
  unfold retrieve_long_term. rewrite Hget, dict_get_set_eq, Hval, Hev.
  split; [done|]. by rewrite Hres.
Qed.

(** X24. After running a list of tasks on a graph that only ran tasks
    before, the record of the [i]-th task of the list is what
    [retrieve_long_term] returns in the category [tasks] for the key
    [task_] followed by the number of runs made before it; the record holds
    the task and the agent stage's text for it.  The records filed before
    the list are returned as before: no run overwrites another's record. *)
Theorem run_all_records_each_task (tasks : list string) (g : SwarmGraph)
  (clk : Clock) :
  Reachable g ->
  let g' := (run_all tasks g clk).1 in
  (forall i t, tasks !! i = Some t ->
     exists results ev,
       retrieve_long_term (task_key (length (task_keys g) + i)) "tasks" (memory g')
       = Some (RunValue t results (Some ev))
       /\ primary_agent results = Some (processing t))
  /\ (forall m, (m < length (task_keys g))%nat ->
        retrieve_long_term (task_key m) "tasks" (memory g')
        = retrieve_long_term (task_key m) "tasks" (memory g)).
Proof.
  intros Hg g'. split; [|by intros m Hm; apply run_all_keeps_records].
  subst g'. revert g clk Hg.
  induction tasks as [|t0 tasks IH]; intros g clk Hg i t Hi; [done|].
  rewrite run_all_cons.
  pose proof (run_task_keys t0 g clk (Reachable_task_keys g Hg)) as Hkeys.
  assert (Reachable (run t0 g clk).1.2) as Hg1 by by constructor.
  destruct i as [|i]; simpl in Hi.
  - injection Hi as ->. rewrite Nat.add_0_r.
    rewrite run_all_keeps_records; [|done|rewrite Hkeys, length_app; simpl; lia].
    destruct (run_files_record t g clk) as (results & ev & H1 & H2).
    exists results, ev. by rewrite <- next_task_key_length.
  - destruct (IH _ (run t0 g clk).2 Hg1 i t Hi) as (results & ev & H1 & H2).
    exists results, ev. split; [|done]. rewrite <- H1. f_equal. f_equal.
    rewrite Hkeys, length_app. simpl. lia.
Qed.

Lemma run_all_records_each_task_witness :
  let g := (run "earlier" SwarmGraph_init sample_clock).1.2 in
  let g' := (run_all ["first"; "second"] g sample_clock).1 in
  (forall i t, ["first"; "second"] !! i = Some t ->
     exists results ev,
       retrieve_long_term (task_key (length (task_keys g) + i)) "tasks" (memory g')
       = Some (RunValue t results (Some ev))
       /\ primary_agent results = Some (processing t))
  /\ (forall m, (m < length (task_keys g))%nat ->
        retrieve_long_term (task_key m) "tasks" (memory g')
        = retrieve_long_term (task_key m) "tasks" (memory g)).
Proof.
  apply (run_all_records_each_task ["first"; "second"]
           (run "earlier" SwarmGraph_init sample_clock).1.2 sample_clock).
  apply Reachable_run, Reachable_init.
Defined.

End MorePipelineFacts.

(** ** The registry of the tools *)

Section ToolsFacts.
Import Tools.

Lemma get_tools_cons (name : string) (names : list string) :
  get_tools (Some (name :: names))
  = match PyDict.get name TOOL_REGISTRY with
    | Some t => t :: get_tools (Some names)
    | None => get_tools (Some names)
    end.
Proof. reflexivity. Qed.

(** X25. [get_tools] with a list of names never fails on a name that is
    not registered: it drops it.  The result holds, for the registered names
    of the list, in their order and as often as they occur, the tool filed
    under each; so it is never longer than the list, as long exactly when
    every name is registered, and the result for a concatenation is the
    concatenation of the results.  Asked for the names of the registry, it
    gives what it gives without names: every tool of the registry. *)
Theorem get_tools_selects_registered (names names' : list string) :
  Forall2 (fun name t => PyDict.get name TOOL_REGISTRY = Some t)
          (List.filter (fun name => PyDict.mem name TOOL_REGISTRY) names)
          (get_tools (Some names))
  /\ (length (get_tools (Some names)) <= length names)%nat
  /\ (length (get_tools (Some names)) = length names
      <-> Forall (fun name => name ∈ PyDict.keys TOOL_REGISTRY) names)
  /\ get_tools (Some (names ++ names'))
     = get_tools (Some names) ++ get_tools (Some names')
  /\ get_tools (Some (PyDict.keys TOOL_REGISTRY)) = get_tools None.
Proof.
  assert (forall l, length (get_tools (Some l)) <= length l)%nat as Hle.
  { induction l as [|n l IH]; [done|]. rewrite get_tools_cons.
    destruct (PyDict.get n TOOL_REGISTRY); cbn [length]; lia. }
  split; [|split; [done|split; [|split; [|done]]]].
  - induction names as [|n names IH]; [constructor|].
    rewrite get_tools_cons. cbn [List.filter]. unfold PyDict.mem.
    destruct (PyDict.get n TOOL_REGISTRY) eqn:E; [|done]. by constructor.
  - induction names as [|n names IH]; [done|].
    rewrite get_tools_cons, Forall_cons, <- dict_mem_true. unfold PyDict.mem.
    pose proof (Hle names) as Hn.
    destruct (PyDict.get n TOOL_REGISTRY) eqn:E; cbn [length].
    + rewrite <- IH. split; [intros [= H]; done|intros [_ H]; by rewrite H].
    + split; [lia|intros [H _]; done].
  - unfold get_tools. induction names as [|n names IH]; [done|].
    change (omap ?f ((n :: names) ++ names')) with
      (match PyDict.get n TOOL_REGISTRY with
       | Some t => t :: omap (fun name => PyDict.get name TOOL_REGISTRY) (names ++ names')
       | None => omap (fun name => PyDict.get name TOOL_REGISTRY) (names ++ names')
       end).
    change (omap ?f (n :: names)) with
      (match PyDict.get n TOOL_REGISTRY with
       | Some t => t :: omap (fun name => PyDict.get name TOOL_REGISTRY) names
       | None => omap (fun name => PyDict.get name TOOL_REGISTRY) names
       end).
    rewrite IH. by destruct (PyDict.get n TOOL_REGISTRY).
Qed.

End ToolsFacts.
